(** * Gravity: a 2-D N-body integrator (attackallmonsters/Gravity)

    Shallow embedding of [GravityMath.cpp] and [Gravity.cpp].

    - A C++ [double] is an IEEE-754 binary64 value: Rocq's primitive [float],
      with the kernel's round-to-nearest operations.  Every arithmetic
      operation of the source is one primitive operation here, in the
      evaluation order of the C++ expression (no fused multiply-add).
    - A [float] literal of the source ([0.1f], [0.8f], [0.01f]) is written as
      the binary64 value it widens to.
    - An [int] is a [Z]; the fixed arrays [bodies] and [initBodies] are lists
      read with [!!!] and written with [<[i:=b]>].
    - [std::cos], [std::sin], [std::tanh] and the C library's [rand] are not
      part of the repository: they are the fields of a [Host].  The pseudo
      random source is the sequence of values [rand] returns, and the number
      of draws made so far is threaded through every function that draws.
    - The diagnostics ([pd_error], [post]) go to the host and change nothing
      in the engine: a rejected call returns the engine as it is. *)

From Stdlib Require Import ZArith Floats Bool Lia.
From stdpp Require Import base list.

Set Warnings "-inexact-float".

Local Open Scope float_scope.

(** ** Host environment: libm and the pseudo random source *)

Record Host := mkHost {
  h_cos : float -> float;
  h_sin : float -> float;
  h_tanh : float -> float;
  rand_seq : nat -> Z;   (* n-th value returned by rand() *)
  RAND_MAX : Z
}.

(** Computations that call [rand()]: the state is the number of draws so far. *)
Definition Rand (A : Type) : Type := nat -> A * nat.

Definition ret {A} (a : A) : Rand A := fun n => (a, n).

Definition bind {A B} (m : Rand A) (k : A -> Rand B) : Rand B :=
  fun n => k (fst (m n)) (snd (m n)).

Notation "'let*' x := m 'in' k" := (bind m (fun x => k))
  (at level 10, x name, m at level 100, k at level 200).

(** A [for] loop over the indices of [l], threading the state [a]. *)
Fixpoint forM {A} (l : list nat) (f : nat -> A -> Rand A) (a : A) : Rand A :=
  match l with
  | [] => ret a
  | i :: l' => let* a' := f i a in forM l' f a'
  end.

(** [(double) z] for an [int] value [z]. *)
Definition Z2F (z : Z) : float :=
  if (z <? 0)%Z then - (of_uint63 (Uint63.of_Z (- z))) else of_uint63 (Uint63.of_Z z).

(** [std::max (a, b)] is [(a < b) ? b : a]. *)
Definition fmax (a b : float) : float := if a <? b then b else a.

Definition M_PI : float := 0x1.921fb54442d18p+1.
Definition DBL_MAX : float := 0x1.fffffffffffffp+1023.
(** The single precision literals [0.1f], [0.8f] and [0.01f], widened. *)
Definition f32_0_1 : float := 0x1.99999ap-4.
Definition f32_0_8 : float := 0x1.99999ap-1.
Definition f32_0_01 : float := 0x1.47ae14p-7.

(** ** GravityMath *)

Record Vector := mkVector { v_x : float; v_y : float }.

Definition calcRadiusFromCenter (x y : float) : float := x * x + y * y.

Definition calcRelativePositionVector (x1 y1 x2 y2 : float) : Vector :=
  mkVector (x2 - x1) (y2 - y1).

Definition calcEuclideanDistance (dx dy : float) : float := sqrt (dx * dx + dy * dy).

Definition calcEuclideanDistance4 (x1 y1 x2 y2 : float) : float :=
  let v := calcRelativePositionVector x1 y1 x2 y2 in
  calcEuclideanDistance (v_x v) (v_y v).

Definition calcPositionDamping (x y baseDamping : float) : float :=
  let dist := sqrt (x * x + y * y) in
  baseDamping * (1.0 + dist).

Definition calcSpeed (vx vy : float) : float := sqrt (vx * vx + vy * vy).

Definition calcAcceleration (ax ay : float) : float := sqrt (ax * ax + ay * ay).

Definition clampSpeed (vx vy vmin vmax : float) : Vector :=
  let speed := calcSpeed vx vy in
  if speed =? 0.0 then mkVector vx vy
  else if speed <? vmin then
    let scale := vmin / speed in mkVector (vx * scale) (vy * scale)
  else if vmax <? speed then
    let scale := vmax / speed in mkVector (vx * scale) (vy * scale)
  else mkVector vx vy.

Section GravityMathRandom.
Context (H : Host).

Definition rand : Rand Z := fun n => (rand_seq H n, S n).

(** [(double) rand() / RAND_MAX] *)
Definition rand_unit : Rand float :=
  let* r := rand in ret (Z2F r / Z2F (RAND_MAX H)).

Definition randomAngle : Rand float :=
  let* u := rand_unit in ret (u * 2.0 * M_PI).

Definition randomRange (min max : float) : Rand float :=
  let* u := rand_unit in ret (min + u * (max - min)).

Definition randomImpulse (minStrength maxStrength : float) : Rand Vector :=
  let* angle := randomAngle in
  let* strength := randomRange minStrength maxStrength in
  ret (mkVector (strength * h_cos H angle) (strength * h_sin H angle)).

End GravityMathRandom.

(** ** The engine state *)

Record Body := mkBody {
  b_x : float; b_y : float;      (* position *)
  b_vx : float; b_vy : float;    (* velocity *)
  b_ax : float; b_ay : float;    (* acceleration *)
  b_mass : float
}.

(** [Body{}]: value initialisation zeroes every field. *)
Definition zeroBody : Body := mkBody 0 0 0 0 0 0 0.

#[global] Instance Body_inhabited : Inhabited Body := populate zeroBody.
#[global] Instance float_inhabited : Inhabited float := populate 0.

Definition BodyCount : Z := 10.

Record Gravity := mkGravity {
  initBodies : list Body;
  bodies : list Body;
  blackHole : Body;
  G : float;
  dt : float;
  pos_damping : float;
  vel_damping : float;
  softening : float;
  vmin : float;
  vmax : float;
  body_count : Z;
  nudge_mode : bool;
  nudge_step : Z
}.

(** Field assignments. *)
Definition set_initBodies (l : list Body) (s : Gravity) : Gravity :=
  mkGravity l (bodies s) (blackHole s) (G s) (dt s) (pos_damping s) (vel_damping s)
    (softening s) (vmin s) (vmax s) (body_count s) (nudge_mode s) (nudge_step s).
Definition set_bodies (l : list Body) (s : Gravity) : Gravity :=
  mkGravity (initBodies s) l (blackHole s) (G s) (dt s) (pos_damping s) (vel_damping s)
    (softening s) (vmin s) (vmax s) (body_count s) (nudge_mode s) (nudge_step s).
Definition set_blackHole (b : Body) (s : Gravity) : Gravity :=
  mkGravity (initBodies s) (bodies s) b (G s) (dt s) (pos_damping s) (vel_damping s)
    (softening s) (vmin s) (vmax s) (body_count s) (nudge_mode s) (nudge_step s).
Definition set_G (g : float) (s : Gravity) : Gravity :=
  mkGravity (initBodies s) (bodies s) (blackHole s) g (dt s) (pos_damping s) (vel_damping s)
    (softening s) (vmin s) (vmax s) (body_count s) (nudge_mode s) (nudge_step s).
Definition set_dt (d : float) (s : Gravity) : Gravity :=
  mkGravity (initBodies s) (bodies s) (blackHole s) (G s) d (pos_damping s) (vel_damping s)
    (softening s) (vmin s) (vmax s) (body_count s) (nudge_mode s) (nudge_step s).
Definition set_pos_damping (d : float) (s : Gravity) : Gravity :=
  mkGravity (initBodies s) (bodies s) (blackHole s) (G s) (dt s) d (vel_damping s)
    (softening s) (vmin s) (vmax s) (body_count s) (nudge_mode s) (nudge_step s).
Definition set_vel_damping (d : float) (s : Gravity) : Gravity :=
  mkGravity (initBodies s) (bodies s) (blackHole s) (G s) (dt s) (pos_damping s) d
    (softening s) (vmin s) (vmax s) (body_count s) (nudge_mode s) (nudge_step s).
Definition set_softening (d : float) (s : Gravity) : Gravity :=
  mkGravity (initBodies s) (bodies s) (blackHole s) (G s) (dt s) (pos_damping s) (vel_damping s)
    d (vmin s) (vmax s) (body_count s) (nudge_mode s) (nudge_step s).
Definition set_vmin (v : float) (s : Gravity) : Gravity :=
  mkGravity (initBodies s) (bodies s) (blackHole s) (G s) (dt s) (pos_damping s) (vel_damping s)
    (softening s) v (vmax s) (body_count s) (nudge_mode s) (nudge_step s).
Definition set_vmax (v : float) (s : Gravity) : Gravity :=
  mkGravity (initBodies s) (bodies s) (blackHole s) (G s) (dt s) (pos_damping s) (vel_damping s)
    (softening s) (vmin s) v (body_count s) (nudge_mode s) (nudge_step s).
Definition set_body_count (c : Z) (s : Gravity) : Gravity :=
  mkGravity (initBodies s) (bodies s) (blackHole s) (G s) (dt s) (pos_damping s) (vel_damping s)
    (softening s) (vmin s) (vmax s) c (nudge_mode s) (nudge_step s).
Definition set_nudge (m : bool) (n : Z) (s : Gravity) : Gravity :=
  mkGravity (initBodies s) (bodies s) (blackHole s) (G s) (dt s) (pos_damping s) (vel_damping s)
    (softening s) (vmin s) (vmax s) (body_count s) m n.

Definition set_pos (x y : float) (b : Body) : Body :=
  mkBody x y (b_vx b) (b_vy b) (b_ax b) (b_ay b) (b_mass b).
Definition set_vel (vx vy : float) (b : Body) : Body :=
  mkBody (b_x b) (b_y b) vx vy (b_ax b) (b_ay b) (b_mass b).
Definition set_acc (ax ay : float) (b : Body) : Body :=
  mkBody (b_x b) (b_y b) (b_vx b) (b_vy b) ax ay (b_mass b).
Definition set_mass (m : float) (b : Body) : Body :=
  mkBody (b_x b) (b_y b) (b_vx b) (b_vy b) (b_ax b) (b_ay b) m.

(** [Body &body = bodies[i]; body = f (body)]. *)
Definition modify_body (i : nat) (f : Body -> Body) (s : Gravity) : Gravity :=
  set_bodies (<[i := f (bodies s !!! i)]> (bodies s)) s.

(** The indices [0 .. n-1] of a [for (int i = 0; i < n; ++i)]. *)
Definition upto (n : Z) : list nat := seq 0 (Z.to_nat n).

(** ** Parameter setters ([void], a rejected call returns the state as it is) *)

Definition initParams (s : Gravity) : Gravity :=
  set_vmax 5 (set_vmin 1 (set_softening 0.0 (set_vel_damping 0.005
    (set_pos_damping 0.003 (set_dt 0.01 (set_G 1.0 s)))))).

Definition resetBodies (s : Gravity) : Gravity :=
  fold_left (fun s i =>
      set_initBodies (<[i := zeroBody]> (initBodies s))
        (set_bodies (<[i := zeroBody]> (bodies s)) s))
    (upto BodyCount) s.

Definition setG (g : float) (s : Gravity) : Gravity :=
  if (g <? 0.0) || (10.0 <? g) then s
  else set_G (if g <? f32_0_1 then 0.1 else g) s.

Definition setDt (d : float) (s : Gravity) : Gravity :=
  if (d <=? 0.0) || (0.1 <? d) then s else set_dt d s.

Definition setPosDamping (damp : float) (s : Gravity) : Gravity :=
  if (damp <? 0.0) || (0.1 <? damp) then s else set_pos_damping (damp / 10000) s.

Definition setVelDamping (damp : float) (s : Gravity) : Gravity :=
  if (damp <? 0.0) || (0.5 <? damp) then s else set_vel_damping damp s.

Definition setSoftening (v : float) (s : Gravity) : Gravity :=
  if (v <? 0.0) || (5.0 <? v) then s else set_softening v s.

Definition setVmin (v : float) (s : Gravity) : Gravity :=
  if (v <? 0.1) || (1000.0 <? v) then s
  else
    let s1 := set_vmin v s in
    if vmax s1 <? v then set_vmax v s1 else s1.

Definition setVmax (v : float) (s : Gravity) : Gravity :=
  if (v <? 1.0) || (10000.0 <? v) then s
  else
    let s1 := set_vmax v s in
    if v <? vmin s1 then set_vmin v s1 else s1.

Definition setBodyCount (count : Z) (s : Gravity) : Gravity :=
  if ((count <? 2) || (count >? BodyCount))%Z then s else set_body_count count s.

Definition setBodyMass (index : Z) (mass : float) (s : Gravity) : Gravity :=
  if ((index <? 0) || (index >? BodyCount - 1))%Z then s
  else if (mass <? 0.1) || (30 <? mass) then s
  else modify_body (Z.to_nat index) (set_mass mass) s.

Definition setBlackHole (x y mass : float) (s : Gravity) : Gravity :=
  if (x <? -500) || (500 <? x) then s
  else if (y <? -500) || (500 <? y) then s
  else if (mass <? 0) || (10000 <? mass) then s
  else set_blackHole (mkBody x y 0 0 0 0 mass) s.

(** ** Accessors *)

Definition getG (s : Gravity) : float := G s.
Definition getDt (s : Gravity) : float := dt s.
Definition getVmin (s : Gravity) : float := vmin s.
Definition getVmax (s : Gravity) : float := vmax s.
Definition getPosDamping (s : Gravity) : float := pos_damping s.
Definition getVelDamping (s : Gravity) : float := vel_damping s.
Definition getSoftening (s : Gravity) : float := softening s.
Definition getBodyCount (s : Gravity) : Z := body_count s.
Definition getBlackHole (s : Gravity) : Body := blackHole s.

Definition getBody (index : Z) (s : Gravity) : Body :=
  if ((index <? 0) || (index >? BodyCount - 1))%Z then bodies s !!! 0%nat
  else bodies s !!! Z.to_nat index.

Definition getBodies (s : Gravity) : list Body := take (Z.to_nat BodyCount) (bodies s).

Definition getInitBody (index : Z) (s : Gravity) : Body :=
  if ((index <? 0) || (index >? BodyCount - 1))%Z then initBodies s !!! 0%nat
  else initBodies s !!! Z.to_nat index.

(** ** Force computation *)

(** One iteration of the loop of [computeAcceleration]: the pair
    (target, i), accumulated into [acc] = (ax, ay).  Index [body_count] is the
    black hole. *)
Definition accel_pair (s : Gravity) (targetIndex : nat) (acc : Vector) (i : nat) : Vector :=
  let target := bodies s !!! targetIndex in
  if (i =? targetIndex)%nat then acc
  else
    let other := if (Z.of_nat i <? body_count s)%Z then bodies s !!! i else blackHole s in
    if (Z.of_nat i =? body_count s)%Z && (b_mass (blackHole s) =? 0) then acc
    else
      let v := calcRelativePositionVector (b_x target) (b_y target) (b_x other) (b_y other) in
      let distance := calcEuclideanDistance (v_x v) (v_y v) in
      let currentSoftening := fmax (softening s) (distance * softening s) in
      let distSqr := v_x v * v_x v + v_y v * v_y v + currentSoftening * currentSoftening in
      if (distSqr <=? 0.0) || (distSqr <? 0.0001) then acc
      else
        let invDist := 1.0 / sqrt distSqr in
        let invDist3 := invDist * invDist * invDist in
        mkVector (v_x acc + G s * b_mass other * v_x v * invDist3)
                 (v_y acc + G s * b_mass other * v_y v * invDist3).

Definition computeAcceleration (s : Gravity) (targetIndex : nat) : Vector :=
  fold_left (accel_pair s targetIndex) (upto (body_count s + 1)) (mkVector 0 0).

(** The acceleration [initBody] and [simulate] store: gravity plus the pull
    towards the origin. *)
Definition damped_acceleration (s : Gravity) (index : nat) (b : Body) : Body :=
  let v := computeAcceleration s index in
  let pdamp := calcPositionDamping (b_x b) (b_y b) (pos_damping s) in
  set_acc (v_x v - b_x b * pdamp) (v_y v - b_y b * pdamp) b.

Definition initBody (index : nat) (s : Gravity) : Gravity :=
  modify_body index (damped_acceleration s index) s.

Definition setBody (index : Z) (x y vx vy mass : float) (s : Gravity) : Gravity :=
  if ((index <? 0) || (index >? BodyCount - 1))%Z then s
  else
    let i := Z.to_nat index in
    let s1 := modify_body i (fun b => mkBody x y vx vy (b_ax b) (b_ay b) mass) s in
    let s2 := set_initBodies (<[i := mkBody x y vx vy 0 0 mass]> (initBodies s1)) s1 in
    initBody i s2.

(** One iteration of the loop of [reset]. *)
Definition restore_from (iBody b : Body) : Body :=
  mkBody (b_x iBody) (b_y iBody) (b_vx iBody) (b_vy iBody) (b_ax iBody) (b_ay iBody)
         (b_mass b).

Definition reset_body (s : Gravity) (i : nat) : Gravity :=
  initBody i (modify_body i (restore_from (initBodies s !!! i)) s).

Definition reset (s : Gravity) : Gravity := fold_left reset_body (upto 10) s.

Definition nudge (s : Gravity) : Gravity := set_nudge true (nudge_step s) s.

(** ** The integration step *)

Section Engine.
Context (H : Host).

Definition computeAdaptiveDt (s : Gravity) : float :=
  let n := Z.to_nat (body_count s) in
  let minDist :=
    fold_left (fun m i =>
        fold_left (fun m j =>
            let dist := calcEuclideanDistance4 (b_x (bodies s !!! i)) (b_y (bodies s !!! i))
                          (b_x (bodies s !!! j)) (b_y (bodies s !!! j)) in
            if dist <? m then dist else m)
          (seq (i + 1) (n - (i + 1))) m)
      (seq 0 n) DBL_MAX in
  let scale := f32_0_8 + f32_0_8 * h_tanh H (minDist * 0.8) in
  let dampDt := dt s * scale in
  fmax dampDt 0.001.

(** One iteration of the loop of [applyMinSpeed]. *)
Definition minSpeed_body (i : nat) (s : Gravity) : Rand Gravity :=
  let body := bodies s !!! i in
  let r := calcRadiusFromCenter (b_x body) (b_y body) in
  if r <? 100.0 * 100.0 then ret s
  else
    let v := calcSpeed (b_vx body) (b_vy body) in
    let a := calcAcceleration (b_ax body) (b_ay body) in
    if (v <? vmin s) && (a <? f32_0_01) then
      let* imp := randomImpulse H 0.02 0.07 in
      ret (modify_body i (fun b => set_vel (b_vx b + v_x imp) (b_vy b + v_y imp) b) s)
    else ret s.

Definition applyMinSpeed (s : Gravity) : Rand Gravity :=
  forM (upto (body_count s)) minSpeed_body s.

(** One iteration of the neighbour loop of [applyCloseBodyRepulsion]. *)
Definition repel_neighbour (index : nat) (repel_zone repel_max : float)
    (j : nat) (s : Gravity) : Rand Gravity :=
  if (j =? index)%nat then ret s
  else
    let body := bodies s !!! index in
    let nbbody := if (Z.of_nat j <? body_count s)%Z then bodies s !!! j else blackHole s in
    if (Z.of_nat j =? body_count s)%Z && (b_mass (blackHole s) =? 0) then ret s
    else
      let v := calcRelativePositionVector (b_x nbbody) (b_y nbbody) (b_x body) (b_y body) in
      if (repel_zone <? abs (v_x v)) || (repel_zone <? abs (v_y v)) then ret s
      else
        let dist_sqr := v_x v * v_x v + v_y v * v_y v in
        if repel_zone * repel_zone <=? dist_sqr then ret s
        else
          let dist := sqrt dist_sqr + 1e-6 in
          let norm := 1.0 / dist in
          let factor := (repel_zone - dist) / repel_zone in
          let base_strength := repel_max * factor * factor in
          let* u := rand_unit H in
          let jitter := (u - 0.5) * base_strength * 2.0 in
          let fx := (base_strength + jitter) * v_x v * norm in
          let fy := (base_strength + jitter) * v_y v * norm in
          ret (modify_body index (fun b => set_acc (b_ax b - fx) (b_ay b - fy) b) s).

(** [index] is a loop counter of [simulate], never negative. *)
Definition applyCloseBodyRepulsion (index : nat) (vmin_ amin repel_zone repel_max : float)
    (s : Gravity) : Rand Gravity :=
  if (body_count s <=? Z.of_nat index)%Z then ret s
  else
    let body := bodies s !!! index in
    let r := calcRadiusFromCenter (b_x body) (b_y body) in
    if r <? 100.0 * 100.0 then ret s
    else
      let v := calcSpeed (b_vx body) (b_vy body) in
      let acc := calcAcceleration (b_ax body) (b_ay body) in
      if (v <? vmin_) && (acc <? amin) then
        let* u1 := rand_unit H in
        let angle := u1 * 2.0 * M_PI in
        let* u2 := rand_unit H in
        let impulse := 0.02 + u2 * 0.05 in
        let s1 := modify_body index (fun b =>
                    set_vel (b_vx b + impulse * h_cos H angle)
                            (b_vy b + impulse * h_sin H angle) b) s in
        forM (upto (body_count s1 + 1)) (repel_neighbour index repel_zone repel_max) s1
      else ret s.

(** First loop of [simulate]: the position update. *)
Definition drift_body (currentDt : float) (s : Gravity) (i : nat) : Gravity :=
  modify_body i (fun b =>
    set_pos (b_x b + (b_vx b * currentDt + 0.5 * b_ax b * currentDt * currentDt))
            (b_y b + (b_vy b * currentDt + 0.5 * b_ay b * currentDt * currentDt)) b) s.

(** Third loop: new acceleration, then the repulsion. *)
Definition accel_body (i : nat) (s : Gravity) : Rand Gravity :=
  applyCloseBodyRepulsion i 0.02 0.001 1.0 0.1
    (modify_body i (damped_acceleration s i) s).

(** The nudge block inside the velocity loop. *)
Definition nudge_body (i : nat) (s : Gravity) : Rand Gravity :=
  if nudge_mode s then
    let s1 := if (nudge_step s =? 20)%Z then set_nudge false 0 s else s in
    let nudge_factor := 10 * (5.0 + pos_damping s1) in
    let* v := randomImpulse H (- nudge_factor / 2) (nudge_factor / 2) in
    let s2 := modify_body i (set_vel (v_x v) (v_y v)) s1 in
    ret (set_nudge (nudge_mode s2) (nudge_step s2 + 1) s2)
  else ret s.

(** Fourth loop: velocity update, nudge, damping, clamping. *)
Definition kick_body (currentDt : float) (oldAx oldAy : list float)
    (i : nat) (s : Gravity) : Rand Gravity :=
  let s1 := modify_body i (fun b =>
              set_vel (b_vx b + 0.5 * (oldAx !!! i + b_ax b) * currentDt)
                      (b_vy b + 0.5 * (oldAy !!! i + b_ay b) * currentDt) b) s in
  let* s2 := nudge_body i s1 in
  ret (modify_body i (fun b =>
         let speed := calcSpeed (b_vx b) (b_vy b) in
         let vdamp := vel_damping s2 * (1.0 + speed) in
         let vx := b_vx b * (1.0 - vdamp) in
         let vy := b_vy b * (1.0 - vdamp) in
         let v := clampSpeed vx vy (vmin s2) (vmax s2) in
         set_vel (v_x v) (v_y v) b) s2).

Definition simulate (s : Gravity) : Rand Gravity :=
  let currentDt := computeAdaptiveDt s in
  let s1 := fold_left (drift_body currentDt) (upto (body_count s)) s in
  let oldAx := map (fun i => b_ax (bodies s1 !!! i)) (upto (body_count s1)) in
  let oldAy := map (fun i => b_ay (bodies s1 !!! i)) (upto (body_count s1)) in
  let* s2 := forM (upto (body_count s1)) accel_body s1 in
  let* s3 := forM (upto (body_count s2)) (kick_body currentDt oldAx oldAy) s2 in
  applyMinSpeed s3.

End Engine.

(** ** Presets *)

(** A block of statements, executed in order. *)
Definition run_block (fs : list (Gravity -> Gravity)) (s : Gravity) : Gravity :=
  fold_left (fun s f => f s) fs s.

(** [for (int i = lo; i < hi; ++i) body (i)] *)
Definition for_int (lo hi : Z) (body : Z -> Gravity -> Gravity) (s : Gravity) : Gravity :=
  fold_left (fun s k => body (lo + Z.of_nat k)%Z s) (upto (hi - lo)) s.

Section Presets.
Context (H : Host).

Definition preset_ring : Gravity -> Gravity := run_block [
  setG 0.1; setDt 0.01; setSoftening 0; setPosDamping 0.02; setVelDamping 0.005;
  setBodyCount 10;
  setBody 0 50 0 0 0.4 1;
  setBody 1 40 40 (-0.3) 0.3 1;
  setBody 2 0 50 (-0.4) 0.0 1;
  setBody 3 (-40) 40 (-0.3) (-0.3) 1;
  setBody 4 (-50) 0 0 (-0.4) 1;
  setBody 5 (-40) (-40) 0.3 (-0.3) 1;
  setBody 6 0 (-50) 0.4 0.0 1;
  setBody 7 40 (-8) 0.3 0.3 1;
  setBody 8 0 0 0.0 0.0 3;
  setBody 9 0 30 0.0 0.0 0.5 ].

Definition preset_cluster : Gravity -> Gravity := run_block [
  setG 0.1; setDt 0.01; setSoftening 0; setPosDamping 0.02; setVelDamping 0.01;
  setBodyCount 10;
  setBody 0 50 20 0.1 0.05 1;
  setBody 1 (-40) (-10) (-0.1) 0.1 1;
  setBody 2 (-60) 70 0.1 (-0.05) 1;
  setBody 3 30 (-60) (-0.1) (-0.1) 1;
  setBody 4 10 10 0.0 0.0 2;
  setBody 5 (-10) (-40) 0.05 0.0 0.8;
  setBody 6 0 (-70) 0.0 0.1 0.8;
  setBody 7 (-80) 20 0.1 0.0 0.8;
  setBody 8 70 (-20) (-0.05) 0.1 0.8;
  setBody 9 0 0 0.0 0.0 3 ].

Definition preset_spiral : Gravity -> Gravity := run_block [
  setG 0.1; setDt 0.01; setSoftening 0; setPosDamping 0.02; setVelDamping 0.01;
  setBodyCount 10;
  for_int 0 10 (fun i =>
    let angle := Z2F i * 0.6 in
    let radius := 20.0 * Z2F i in
    let x := h_cos H angle * radius in
    let y := h_sin H angle * radius in
    let vx := (- h_sin H angle) * 0.2 in
    let vy := h_cos H angle * 0.2 in
    setBody i x y vx vy 1.0) ].

Definition preset_cross : Gravity -> Gravity := run_block [
  setG 0.3; setDt 0.008; setSoftening 0; setPosDamping 0.02; setVelDamping 0.01;
  setBodyCount 10;
  for_int 0 5 (fun i => run_block [
    setBody i 0 (Z2F i * 50.0 - 100.0) 0.2 0 1.0;
    setBody (i + 5) (Z2F i * 50.0 - 100.0) 0 0 (-0.2) 1.0 ]) ].

Definition preset_orbit : Gravity -> Gravity := run_block [
  setG 0.1; setDt 0.02; setSoftening 0.5; setPosDamping 0.02; setVelDamping 0.002;
  setBodyCount 10;
  for_int 0 10 (fun i =>
    let angle := 2 * M_PI * Z2F i / 9.0 in
    let x := 100.0 * h_cos H angle in
    let y := 100.0 * h_sin H angle in
    let vx := (- h_sin H angle) * 0.5 in
    let vy := h_cos H angle * 0.5 in
    setBody i x y vx vy 1.0);
  setBody 9 0 0 0 0 5.0 ].

Definition preset_random_body (i : nat) (s : Gravity) : Rand Gravity :=
  let* r1 := rand H in
  let x := Z2F (r1 mod 200 - 100) in
  let* r2 := rand H in
  let y := Z2F (r2 mod 200 - 100) in
  let* r3 := rand H in
  let vx := Z2F (r3 mod 200 - 100) * 0.005 in
  let* r4 := rand H in
  let vy := Z2F (r4 mod 200 - 100) * 0.005 in
  let* r5 := rand H in
  ret (setBody (Z.of_nat i) x y vx vy (0.5 + Z2F (r5 mod 100) * 0.01) s).

Definition preset_random (s : Gravity) : Rand Gravity :=
  forM (upto BodyCount) preset_random_body
    (run_block [ setG 0.5; setDt 0.01; setSoftening 0.4; setPosDamping 0.02; setVelDamping 0.01;
             setBodyCount BodyCount ] s).

Definition preset_binaries : Gravity -> Gravity := run_block [
  setG 0.2; setDt 0.01; setSoftening 0; setPosDamping 0.02; setVelDamping 0.005;
  setBodyCount 10;
  setBody 0 (-50) 0 0 0.3 1;
  setBody 1 (-30) 0 0 (-0.3) 1;
  setBody 2 50 0 0 (-0.3) 1;
  setBody 3 30 0 0 0.3 1;
  setBody 4 0 80 (-0.3) 0 1;
  setBody 5 0 60 0.3 0 1;
  setBody 6 0 (-60) 0.3 0 1;
  setBody 7 0 (-80) (-0.3) 0 1;
  setBody 8 0 0 0 0 2;
  setBody 9 0 20 0 0 0.5 ].

Definition preset_figure_eight : Gravity -> Gravity := run_block [
  setG 1.0; setDt 0.005; setSoftening 0.01; setPosDamping 0.0; setVelDamping 0.0;
  setBodyCount 3;
  setBody 0 0 0 0.347111 0.532728 1;
  setBody 1 0.970004 (-0.243087) (-0.347111) 0.532728 1;
  setBody 2 (-0.970004) 0.243087 0 (-1.065456) 1;
  for_int 3 BodyCount (fun i => setBody i 0 0 0 0 0) ].

Definition preset_line : Gravity -> Gravity := run_block [
  setG 0.15; setDt 0.01; setSoftening 0.2; setPosDamping 0.02; setVelDamping 0.005;
  setBodyCount BodyCount;
  for_int 0 BodyCount (fun i =>
    let x := Z2F i * 50.0 in
    let y := 0 in
    let vx := 0 in
    let vy := Z2F (i - 5) * 0.1 in
    let mass := 0.5 + 0.5 * Z2F i in
    setBody i x y vx vy mass) ].

Definition preset_burst : Gravity -> Gravity := run_block [
  setG 0.2; setDt 0.008; setSoftening 0; setPosDamping 0.02; setVelDamping 0.01;
  setBodyCount BodyCount;
  for_int 0 BodyCount (fun i =>
    let angle := 2 * M_PI * Z2F i / 10.0 in
    let vx := h_cos H angle * 0.3 in
    let vy := h_sin H angle * 0.3 in
    setBody i 0 0 vx vy 1.0) ].

Definition preset_chaos_fast : Gravity -> Gravity := run_block [
  setG 0.15; setDt 0.01; setSoftening 0.05; setPosDamping 0.02; setVelDamping 0.0005;
  setBodyCount 5;
  setBody 0 (-120) 80 0.9 (-0.4) 1.5;
  setBody 1 100 60 (-0.5) 0.6 2.0;
  setBody 2 0 (-100) 0.4 0.8 1.2;
  setBody 3 50 50 (-0.9) (-0.2) 0.8;
  setBody 4 (-70) (-80) 0.6 0.3 1.0 ].

Definition preset_chaos_drift : Gravity -> Gravity := run_block [
  setG 0.2; setDt 0.008; setSoftening 0.05; setPosDamping 0.02; setVelDamping 0.001;
  setBodyCount 6;
  setBody 0 (-40) 20 0.5 0.4 1.0;
  setBody 1 30 (-10) (-0.6) 0.3 1.8;
  setBody 2 0 0 0.1 (-0.5) 0.6;
  setBody 3 (-30) (-30) 0.3 0.6 1.2;
  setBody 4 60 10 (-0.4) (-0.3) 1.5;
  setBody 5 (-50) 40 0.7 (-0.1) 0.9 ].

Definition preset_chaos_extreme : Gravity -> Gravity := run_block [
  setG 0.25; setDt 0.007; setSoftening 0.07; setPosDamping 0.02; setVelDamping 0.0002;
  setBodyCount 7;
  setBody 0 (-200) 100 1.0 (-0.3) 1.2;
  setBody 1 180 80 (-0.8) 0.6 2.1;
  setBody 2 0 (-90) 0.5 0.9 0.7;
  setBody 3 60 200 (-1.1) (-0.2) 1.4;
  setBody 4 (-160) (-150) 0.9 0.4 1.0;
  setBody 5 30 (-70) (-0.3) (-0.8) 0.8;
  setBody 6 90 0 (-0.5) 0.5 1.6 ].

Definition preset_chaos_triangle : Gravity -> Gravity := run_block [
  setG 0.15; setDt 0.009; setSoftening 0.05; setPosDamping 0.02; setVelDamping 0.0005;
  setBodyCount 3;
  setBody 0 (-100.0) (-50.0) 0.65 0.3 1.2;
  setBody 1 100.0 (-50.0) (-0.6) 0.35 1.8;
  setBody 2 0.0 120.0 (-0.05) (-0.7) 2.0 ].

(** The [switch (p)] of [loadPreset], on the decremented index. *)
Definition apply_preset (p : Z) (s : Gravity) : Rand Gravity :=
  match p with
  | 0 => ret (preset_ring s)
  | 1 => ret (preset_cluster s)
  | 2 => ret (preset_spiral s)
  | 3 => ret (preset_cross s)
  | 4 => ret (preset_orbit s)
  | 5 => preset_random s
  | 6 => ret (preset_binaries s)
  | 7 => ret (preset_figure_eight s)
  | 8 => ret (preset_line s)
  | 9 => ret (preset_burst s)
  | 10 => ret (preset_chaos_fast s)
  | 11 => ret (preset_chaos_drift s)
  | 12 => ret (preset_chaos_extreme s)
  | 13 => ret (preset_chaos_triangle s)
  | _ => ret s
  end%Z.

Definition loadPreset (presetIndex : Z) (s : Gravity) : Rand Gravity :=
  let p := (if presetIndex <? 1 then 1 else if presetIndex >? 14 then 14 else presetIndex)%Z in
  let p := (p - 1)%Z in
  apply_preset p (resetBodies s).

(** The constructor.  [new Gravity ()] leaves every member indeterminate; the
    constructor assigns all of them except [blackHole], and the two arrays
    are overwritten by [resetBodies]. *)
Definition Gravity_new (uninit_blackHole : Body) : Rand Gravity :=
  let raw := mkGravity (replicate 10 zeroBody) (replicate 10 zeroBody) uninit_blackHole
               0 0 0 0 0 0 0 3 false 0 in
  loadPreset 0 (initParams raw).

End Presets.

(** ** The host's calls *)

Inductive Setter :=
  | SetG (g : float)
  | SetDt (d : float)
  | SetPosDamping (damp : float)
  | SetVelDamping (damp : float)
  | SetSoftening (v : float)
  | SetVmin (v : float)
  | SetVmax (v : float)
  | SetBodyCount (count : Z)
  | SetBodyMass (index : Z) (mass : float)
  | SetBlackHole (x y mass : float).

Definition apply_setter (c : Setter) : Gravity -> Gravity :=
  match c with
  | SetG g => setG g
  | SetDt d => setDt d
  | SetPosDamping d => setPosDamping d
  | SetVelDamping d => setVelDamping d
  | SetSoftening v => setSoftening v
  | SetVmin v => setVmin v
  | SetVmax v => setVmax v
  | SetBodyCount c => setBodyCount c
  | SetBodyMass i m => setBodyMass i m
  | SetBlackHole x y m => setBlackHole x y m
  end.

Inductive Op :=
  | OSet (c : Setter)
  | OSetBody (index : Z) (x y vx vy mass : float)
  | OLoadPreset (presetIndex : Z)
  | OReset
  | ONudge
  | OSimulate.

Definition step (H : Host) (op : Op) (s : Gravity) : Rand Gravity :=
  match op with
  | OSet c => ret (apply_setter c s)
  | OSetBody i x y vx vy m => ret (setBody i x y vx vy m s)
  | OLoadPreset i => loadPreset H i s
  | OReset => ret (reset s)
  | ONudge => ret (nudge s)
  | OSimulate => simulate H s
  end.

Fixpoint run (H : Host) (ops : list Op) (s : Gravity) : Rand Gravity :=
  match ops with
  | [] => ret s
  | op :: ops' => let* s' := step H op s in run H ops' s'
  end.

(** The two arrays have [BodyCount] elements. *)
Definition wf (s : Gravity) : Prop :=
  length (bodies s) = 10%nat /\ length (initBodies s) = 10%nat.

(** A host to run the model on: short rational expressions stand in for the
    C library's [cos], [sin] and [tanh], a linear congruence for [rand]. *)
Definition example_host : Host := {|
  h_cos := fun x => 1 - x * x / 2;
  h_sin := fun x => x - x * x * x / 6;
  h_tanh := fun x => x / (1 + abs x);
  rand_seq := fun n => ((1103515245 * Z.of_nat n + 12345) mod 2147483648)%Z;
  RAND_MAX := 2147483647
|}.

(** The engine after construction on [example_host], no draw made before, and
    a call [setBlackHole (0, 0, 0)], which overwrites the black hole that the
    constructor leaves uninitialised. *)
Definition example_engine : Gravity :=
  setBlackHole 0 0 0 (fst (Gravity_new example_host zeroBody 0%nat)).

(** ** Specification vocabulary *)

(** [post m Q]: whatever the number of draws made before, the value [m]
    returns satisfies [Q]. *)
Definition post {A} (m : Rand A) (Q : A -> Prop) : Prop := forall n, Q (fst (m n)).

(** What a step leaves alone: everything but the live bodies
    [bodies[0 .. body_count)] and the nudge bookkeeping. *)
Record frame (s s' : Gravity) : Prop := mkFrame {
  fr_initBodies : initBodies s' = initBodies s;
  fr_blackHole : blackHole s' = blackHole s;
  fr_G : G s' = G s;
  fr_dt : dt s' = dt s;
  fr_pos_damping : pos_damping s' = pos_damping s;
  fr_vel_damping : vel_damping s' = vel_damping s;
  fr_softening : softening s' = softening s;
  fr_vmin : vmin s' = vmin s;
  fr_vmax : vmax s' = vmax s;
  fr_body_count : body_count s' = body_count s;
  fr_inert : forall j : nat, (body_count s <= Z.of_nat j)%Z -> bodies s' !!! j = bodies s !!! j;
  fr_length : length (bodies s') = length (bodies s)
}.

(** The nudge bookkeeping, and what one pass through the nudge block of
    [simulate] does to it. *)
Definition nudge_state (s : Gravity) : bool * Z := (nudge_mode s, nudge_step s).

Definition nudge_tick (ms : bool * Z) : bool * Z :=
  if fst ms then
    if (snd ms =? 20)%Z then (false, 0 + 1)%Z else (true, snd ms + 1)%Z
  else ms.

(** The number of live bodies is within the arrays. *)
Definition count_ok (s : Gravity) : Prop := (2 <= body_count s <= 10)%Z.

(** What the configuration calls [setBody], [reset] and [loadPreset] leave
    alone. *)
Record keeps (s s' : Gravity) : Prop := mkKeeps {
  kp_blackHole : blackHole s' = blackHole s;
  kp_vmin : vmin s' = vmin s;
  kp_vmax : vmax s' = vmax s;
  kp_nudge : nudge_state s' = nudge_state s;
  kp_len_bodies : length (bodies s') = length (bodies s);
  kp_len_init : length (initBodies s') = length (initBodies s);
  kp_count : count_ok s -> count_ok s'
}.

(** The calls that write slot [i] of [initBodies]. *)
Definition configures (i : nat) (op : Op) : bool :=
  match op with
  | OSetBody index _ _ _ _ _ =>
      negb ((index <? 0) || (index >? BodyCount - 1))%Z && (Z.to_nat index =? i)%nat
  | OLoadPreset _ => true
  | _ => false
  end.

(** The engine when the loop of [reset] reaches slot [i]: slots below [i]
    are restored, slots from [i] on are as [simulate] left them. *)
Definition reset_prefix (i : nat) (s : Gravity) : Gravity :=
  fold_left reset_body (seq 0 i) s.

(** The closed interval [[lo, hi]]. *)
Definition within (lo hi v : float) : bool := (lo <=? v) && (v <=? hi).

(** The documented valid range of each setter's arguments. *)
Definition documented_range (c : Setter) : bool :=
  match c with
  | SetG g => within 0.0 10.0 g
  | SetDt d => (0.0 <? d) && (d <=? 0.1)
  | SetPosDamping damp => within 0.0 0.1 damp
  | SetVelDamping damp => within 0.0 0.5 damp
  | SetSoftening v => within 0.0 5.0 v
  | SetVmin v => within 0.1 1000.0 v
  | SetVmax v => within 1.0 10000.0 v
  | SetBodyCount count => ((2 <=? count) && (count <=? 10))%Z
  | SetBodyMass index mass => ((0 <=? index) && (index <=? 9))%Z && within 0.1 30 mass
  | SetBlackHole x y mass => within (-500) 500 x && within (-500) 500 y && within 0 10000 mass
  end.

(** The documented stored value, read back through the setter's getter. *)
Definition documented_store (c : Setter) (s' : Gravity) : Prop :=
  match c with
  | SetG g => getG s' = fmax g 0.1
  | SetDt d => getDt s' = d
  | SetPosDamping damp => getPosDamping s' = damp / 10000
  | SetVelDamping damp => getVelDamping s' = damp
  | SetSoftening v => getSoftening s' = v
  | SetVmin v => getVmin s' = v
  | SetVmax v => getVmax s' = v
  | SetBodyCount count => getBodyCount s' = count
  | SetBodyMass index mass => b_mass (getBody index s') = mass
  | SetBlackHole x y mass => getBlackHole s' = mkBody x y 0 0 0 0 mass
  end.

(** No argument of the call is NaN. *)
Definition numeric (c : Setter) : Prop :=
  match c with
  | SetG v | SetDt v | SetPosDamping v | SetVelDamping v | SetSoftening v
  | SetVmin v | SetVmax v | SetBodyMass _ v => is_nan v = false
  | SetBodyCount _ => True
  | SetBlackHole x y mass => is_nan x = false /\ is_nan y = false /\ is_nan mass = false
  end.

(** [setG] compares with the single precision [0.1f], which is above the
    double [0.1]; the arguments strictly between the two. *)
Definition in_G_gap (c : Setter) : bool :=
  match c with
  | SetG g => (0.1 <? g) && (g <? f32_0_1)
  | _ => false
  end.

(** The speed bounds are ordered. *)
Definition vbounds_ok (s : Gravity) : Prop := (vmin s <=? vmax s) = true.


(** The preset index brought into [[1, 14]]. *)
Definition clamp_index (i : Z) : Z := Z.max 1 (Z.min 14 i).

(** The engine with all ten body and initial-body records zeroed. *)
Definition zeroed (s : Gravity) : Gravity :=
  set_initBodies (replicate 10 zeroBody) (set_bodies (replicate 10 zeroBody) s).






(** No setter argument of the call is NaN. *)
Definition numeric_op (op : Op) : Prop :=
  match op with
  | OSet c => numeric c
  | _ => True
  end.

(** What holds of every engine the host can produce: both arrays have ten
    records, between 2 and 10 bodies are live and the nudge counter is
    between 0 and 20. *)
Definition engine_ok (s : Gravity) : Prop :=
  wf s /\ count_ok s /\ (0 <= nudge_step s <= 20)%Z.

(** ** Vocabulary of the further properties *)

(** What [computeAcceleration] reads for the target [t]: the constant, the
    softening, the number of live bodies, position and mass of the black
    hole, the position of every body and the mass of every body but the
    target. *)
Record same_field (t : nat) (s s' : Gravity) : Prop := mkSameField {
  sf_G : G s' = G s;
  sf_softening : softening s' = softening s;
  sf_body_count : body_count s' = body_count s;
  sf_bh_x : b_x (blackHole s') = b_x (blackHole s);
  sf_bh_y : b_y (blackHole s') = b_y (blackHole s);
  sf_bh_mass : b_mass (blackHole s') = b_mass (blackHole s);
  sf_x : forall j : nat, b_x (bodies s' !!! j) = b_x (bodies s !!! j);
  sf_y : forall j : nat, b_y (bodies s' !!! j) = b_y (bodies s !!! j);
  sf_mass : forall j : nat, j <> t -> b_mass (bodies s' !!! j) = b_mass (bodies s !!! j)
}.

(** The distance of the bodies in slots [i] and [j], as [computeAdaptiveDt]
    measures it. *)
Definition pair_distance (s : Gravity) (i j : nat) : float :=
  calcEuclideanDistance4 (b_x (bodies s !!! i)) (b_y (bodies s !!! i))
                         (b_x (bodies s !!! j)) (b_y (bodies s !!! j)).

(** The variable [minDist] of [computeAdaptiveDt] when its loops are done. *)
Definition min_pair_distance (s : Gravity) : float :=
  let n := Z.to_nat (body_count s) in
  fold_left (fun m i =>
      fold_left (fun m j => if pair_distance s i j <? m then pair_distance s i j else m)
        (seq (i + 1) (n - (i + 1))) m)
    (seq 0 n) DBL_MAX.

(** The engine after the first loop of [simulate], the position update. *)
Definition drifted (H : Host) (s : Gravity) : Gravity :=
  fold_left (drift_body (computeAdaptiveDt H s)) (upto (body_count s)) s.

(** The test [r < 100.0 * 100.0] of [applyCloseBodyRepulsion] and
    [applyMinSpeed]: the body is within 100 of the centre. *)
Definition near_centre (b : Body) : bool :=
  calcRadiusFromCenter (b_x b) (b_y b) <? 100.0 * 100.0.

(** [quiet m Q]: [m] never calls [rand ()]; it returns one value, whatever
    the number of draws made before, and leaves that number as it is; the
    value satisfies [Q]. *)
Definition quiet {A} (m : Rand A) (Q : A -> Prop) : Prop :=
  exists a, Q a /\ forall n, m n = (a, n).


(** The field [p] of every body record is the same in [s'] as in [s]. *)
Definition same_p {A} (p : Body -> A) (s s' : Gravity) : Prop :=
  forall j : nat, p (bodies s' !!! j) = p (bodies s !!! j).

(** The engine [a] has the nudge off, and the body count and the positions
    of [s0]. *)
Definition calm (s0 a : Gravity) : Prop :=
  nudge_mode a = false /\ body_count a = body_count s0
  /\ same_p b_x s0 a /\ same_p b_y s0 a.

(** The test that makes [applyCloseBodyRepulsion] and [applyMinSpeed] act on
    a body: it is not within 100 of the centre, slower than [vmin_] and its
    acceleration is below [amin]. *)
Definition stagnating (vmin_ amin : float) (b : Body) : bool :=
  negb (near_centre b)
  && ((calcSpeed (b_vx b) (b_vy b) <? vmin_)
      && (calcAcceleration (b_ax b) (b_ay b) <? amin)).

(** Every slot of the live array is at the position of its initial record. *)
Definition settled (s : Gravity) : Prop :=
  forall i : nat, (i < 10)%nat ->
    b_x (bodies s !!! i) = b_x (initBodies s !!! i)
    /\ b_y (bodies s !!! i) = b_y (initBodies s !!! i).

(** Every initial record is the live record of its slot with the
    acceleration set to zero. *)
Definition synced (s : Gravity) : Prop :=
  wf s /\ forall j : nat, (j < 10)%nat -> initBodies s !!! j = set_acc 0 0 (bodies s !!! j).

(** Not below zero: a NaN, a zero of either sign, or a value with the sign
    bit clear. *)
Definition SF_nonneg (x : spec_float) : Prop :=
  match x with
  | S754_infinity true | S754_finite true _ _ => False
  | _ => True
  end.

(** Not above zero. *)
Definition SF_nonpos (x : spec_float) : Prop :=
  match x with
  | S754_infinity false | S754_finite false _ _ => False
  | _ => True
  end.

(** Above zero. *)
Definition SF_pos (x : spec_float) : Prop :=
  match x with
  | S754_infinity false | S754_finite false _ _ => True
  | _ => False
  end.

(** The engine [a] differs from [d] in velocities and accelerations only. *)
Definition steady (d a : Gravity) : Prop :=
  set_bodies (bodies d) a = d
  /\ same_p b_x d a /\ same_p b_y d a /\ same_p b_mass d a.

(** What one iteration of a loop over the bodies does to the array: slot [k]
    becomes [g] of what it was, the other slots stay, as does the length. *)
Definition writes_slot (k : nat) (g : Body -> Body) (a a' : Gravity) : Prop :=
  (forall j : nat, j <> k -> bodies a' !!! j = bodies a !!! j)
  /\ ((k < length (bodies a))%nat -> bodies a' !!! k = g (bodies a !!! k))
  /\ length (bodies a') = length (bodies a).

(** The velocity update of the last loop of [simulate] with the nudge off:
    half step with the mean of old and new acceleration, damping, clamping. *)
Definition kicked (h oldAx oldAy vel_damping_ vmin_ vmax_ : float) (b : Body) : Body :=
  let vx := b_vx b + 0.5 * (oldAx + b_ax b) * h in
  let vy := b_vy b + 0.5 * (oldAy + b_ay b) * h in
  let speed := calcSpeed vx vy in
  let vdamp := vel_damping_ * (1.0 + speed) in
  let v := clampSpeed (vx * (1.0 - vdamp)) (vy * (1.0 - vdamp)) vmin_ vmax_ in
  set_vel (v_x v) (v_y v) (set_vel vx vy b).

(** One iteration of a loop over the bodies, as a relation: slot [k] goes
    from [b] to some [b'] with [R b b'], the other slots stay, as does the
    length. *)
Definition relates_slot (k : nat) (R : Body -> Body -> Prop) (a a' : Gravity) : Prop :=
  (forall j : nat, j <> k -> bodies a' !!! j = bodies a !!! j)
  /\ ((k < length (bodies a))%nat -> R (bodies a !!! k) (bodies a' !!! k))
  /\ length (bodies a') = length (bodies a).

(** What [applyMinSpeed] does to a live body: a stagnating one gets a random
    impulse of strength 0.02 to 0.07 added to its velocity, any other stays
    as it is. *)
Definition minSpeed_rel (H : Host) (vmin_ : float) (b b' : Body) : Prop :=
  if stagnating vmin_ f32_0_01 b then
    exists m : nat,
      b' = set_vel (b_vx b + v_x (fst (randomImpulse H 0.02 0.07 m)))
                   (b_vy b + v_y (fst (randomImpulse H 0.02 0.07 m))) b
  else b' = b.

(** The engine [a] differs from [s] in the positions, velocities and
    accelerations of its bodies only. *)
Definition same_setup (s a : Gravity) : Prop :=
  set_bodies (bodies s) a = s /\ same_p b_mass s a /\ length (bodies a) = length (bodies s).

(* ====================================================================== *)
(** * Properties *)

(** ** Order of binary64 values

    [<?] and [<=?] are the IEEE comparisons: both are [false] as soon as an
    operand is NaN.  On other values they are a total preorder. *)

Lemma SFcompare_antisym (x y : spec_float) :
  SFcompare y x = option_map CompOpp (SFcompare x y).
Proof.
  destruct x as [sx|sx| |sx mx ex], y as [sy|sy| |sy my ey]; simpl; try reflexivity;
    try (destruct sx; reflexivity); try (destruct sy; reflexivity);
    try (destruct sx, sy; reflexivity).
  destruct sx, sy; simpl; try reflexivity;
    rewrite (Z.compare_antisym ex ey); destruct (ex ?= ey)%Z; simpl; try reflexivity;
    change (Pos.compare_cont Eq ?a ?b) with (Pos.compare a b);
    rewrite (Pos.compare_antisym mx my); destruct (mx ?= my)%positive; reflexivity.
Qed.

Lemma is_nan_false_SF (x : float) : is_nan x = false -> Prim2SF x <> S754_nan.
Proof.
  unfold is_nan. rewrite FloatAxioms.eqb_spec. intros Hx Hn. rewrite Hn in Hx. discriminate.
Qed.

Lemma SF_not_nan_is_nan (x : float) : Prim2SF x <> S754_nan -> is_nan x = false.
Proof.
  unfold is_nan. rewrite FloatAxioms.eqb_spec. unfold SFeqb. intros Hn.
  destruct (Prim2SF x) as [s|s| |s m e]; simpl; try reflexivity; try (destruct s; reflexivity).
  - congruence.
  - destruct s; rewrite Z.compare_refl; 
      change (Pos.compare_cont Eq ?a ?b) with (Pos.compare a b); rewrite Pos.compare_refl; reflexivity.
Qed.

Lemma ltb_negb_leb (x y : float) :
  is_nan x = false -> is_nan y = false -> (x <? y) = negb (y <=? x).
Proof.
  intros Hx%is_nan_false_SF Hy%is_nan_false_SF.
  rewrite ltb_spec, leb_spec. unfold SFltb, SFleb.
  rewrite (SFcompare_antisym (Prim2SF x) (Prim2SF y)).
  destruct (SFcompare (Prim2SF x) (Prim2SF y)) as [[]|] eqn:E; simpl; try reflexivity.
  destruct (Prim2SF x) as [sx|sx| |sx mx ex], (Prim2SF y) as [sy|sy| |sy my ey];
    simpl in E; congruence.
Qed.

Lemma leb_true_not_nan (x y : float) :
  (x <=? y) = true -> is_nan x = false /\ is_nan y = false.
Proof.
  rewrite leb_spec. unfold SFleb. intros E.
  split; apply SF_not_nan_is_nan; intros Hn; rewrite Hn in E; simpl in E;
    try discriminate.
  destruct (Prim2SF x); discriminate.
Qed.

Lemma ltb_true_not_nan (x y : float) :
  (x <? y) = true -> is_nan x = false /\ is_nan y = false.
Proof.
  rewrite ltb_spec. unfold SFltb. intros E.
  split; apply SF_not_nan_is_nan; intros Hn; rewrite Hn in E; simpl in E;
    try discriminate.
  destruct (Prim2SF x); discriminate.
Qed.

Lemma leb_refl (x : float) : is_nan x = false -> (x <=? x) = true.
Proof.
  intros Hx. unfold is_nan in Hx. rewrite FloatAxioms.eqb_spec in Hx. rewrite leb_spec.
  unfold SFeqb, SFleb in *. destruct (SFcompare (Prim2SF x) (Prim2SF x)) as [[]|]; simpl in *; congruence.
Qed.

Lemma leb_true_ltb_false (x y : float) : (x <=? y) = true -> (y <? x) = false.
Proof.
  intros Hle. destruct (leb_true_not_nan _ _ Hle) as [Hx Hy].
  rewrite ltb_negb_leb by assumption. rewrite Hle. reflexivity.
Qed.

Lemma ltb_true_leb_false (x y : float) : (x <? y) = true -> (y <=? x) = false.
Proof.
  intros Hlt. destruct (ltb_true_not_nan _ _ Hlt) as [Hx Hy].
  rewrite ltb_negb_leb in Hlt by assumption. apply negb_true_iff, Hlt.
Qed.

Lemma ltb_asym (x y : float) : (x <? y) = true -> (y <? x) = false.
Proof.
  rewrite !ltb_spec. unfold SFltb. rewrite (SFcompare_antisym (Prim2SF x) (Prim2SF y)).
  destruct (SFcompare (Prim2SF x) (Prim2SF y)) as [[]|]; simpl; congruence.
Qed.


Lemma SFcompare_trans_lt (x y z : spec_float) (c : comparison) :
  SFcompare x y = Some c -> c <> Gt -> SFcompare y z = Some Lt -> SFcompare x z = Some Lt.
Proof.
  destruct x as [sx|sx| |sx mx ex], y as [sy|sy| |sy my ey], z as [sz|sz| |sz mz ez];
    simpl; intros E1 Hc E2; try discriminate;
    repeat match goal with b : bool |- _ => destruct b end;
    simpl in *; try congruence.
  all: change (Pos.compare_cont Eq ?a ?b) with (Pos.compare a b) in *.
  all: destruct (Z.compare_spec ex ey), (Z.compare_spec ey ez), (Z.compare_spec ex ez);
    try lia; try congruence; subst;
    destruct (Pos.compare_spec mx my), (Pos.compare_spec my mz), (Pos.compare_spec mx mz);
    simpl in *; try lia; try congruence.
Qed.

Lemma SFcompare_trans_lt_l (x y z : spec_float) (c : comparison) :
  SFcompare x y = Some Lt -> SFcompare y z = Some c -> c <> Gt -> SFcompare x z = Some Lt.
Proof.
  destruct x as [sx|sx| |sx mx ex], y as [sy|sy| |sy my ey], z as [sz|sz| |sz mz ez];
    simpl; intros E1 E2 Hc; try discriminate;
    repeat match goal with b : bool |- _ => destruct b end;
    simpl in *; try congruence.
  all: change (Pos.compare_cont Eq ?a ?b) with (Pos.compare a b) in *.
  all: destruct (Z.compare_spec ex ey), (Z.compare_spec ey ez), (Z.compare_spec ex ez);
    try lia; try congruence; subst;
    destruct (Pos.compare_spec mx my), (Pos.compare_spec my mz), (Pos.compare_spec mx mz);
    simpl in *; try lia; try congruence.
Qed.

Lemma ltb_leb_trans (x y z : float) :
  (x <? y) = true -> (y <=? z) = true -> (x <? z) = true.
Proof.
  rewrite !ltb_spec, leb_spec. unfold SFltb, SFleb.
  destruct (SFcompare (Prim2SF x) (Prim2SF y)) as [[]|] eqn:E1; try discriminate.
  destruct (SFcompare (Prim2SF y) (Prim2SF z)) as [c|] eqn:E2; try discriminate.
  intros _ Hc.
  rewrite (SFcompare_trans_lt_l _ _ _ c E1 E2); [reflexivity|].
  intros ->. discriminate.
Qed.

Lemma leb_ltb_trans (x y z : float) :
  (x <=? y) = true -> (y <? z) = true -> (x <? z) = true.
Proof.
  rewrite !ltb_spec, leb_spec. unfold SFltb, SFleb.
  destruct (SFcompare (Prim2SF x) (Prim2SF y)) as [c|] eqn:E1; try discriminate.
  destruct (SFcompare (Prim2SF y) (Prim2SF z)) as [[]|] eqn:E2; try discriminate.
  intros Hc _.
  rewrite (SFcompare_trans_lt _ _ _ c E1); [reflexivity| |exact E2].
  intros ->. discriminate.
Qed.

(** Values that compare equal to a finite non-zero value are that value. *)
Lemma SFcompare_Eq_finite (x : spec_float) (s : bool) (m : positive) (e : Z) :
  SFcompare x (S754_finite s m e) = Some Eq -> x = S754_finite s m e.
Proof.
  destruct x as [sx|sx| |sx mx ex]; simpl; try discriminate;
    try (destruct sx; discriminate); try (destruct s; discriminate).
  change (Pos.compare_cont Eq ?a ?b) with (Pos.compare a b).
  destruct sx, s; try discriminate;
    destruct (Z.compare_spec ex e); try discriminate;
    destruct (Pos.compare_spec mx m); try discriminate; intros _; subst; reflexivity.
Qed.

Lemma not_ltb_eq_finite (x y : float) (s : bool) (m : positive) (e : Z) :
  Prim2SF y = S754_finite s m e ->
  is_nan x = false -> (x <? y) = false -> (y <? x) = false -> x = y.
Proof.
  intros Hy Hx%is_nan_false_SF. rewrite !ltb_spec. unfold SFltb.
  rewrite (SFcompare_antisym (Prim2SF x) (Prim2SF y)).
  destruct (SFcompare (Prim2SF x) (Prim2SF y)) as [[]|] eqn:E; simpl; try discriminate.
  - intros _ _. rewrite Hy in E. apply SFcompare_Eq_finite in E.
    rewrite <- (SF2Prim_Prim2SF x), <- (SF2Prim_Prim2SF y), E, Hy. reflexivity.
  - intros _ _. rewrite Hy in E. destruct (Prim2SF x); simpl in E; congruence.
Qed.

Lemma within_accept (lo hi v : float) :
  within lo hi v = true -> (v <? lo) || (hi <? v) = false.
Proof.
  unfold within. intros [Hlo Hhi]%andb_true_iff.
  rewrite (leb_true_ltb_false _ _ Hlo), (leb_true_ltb_false _ _ Hhi). reflexivity.
Qed.

Lemma within_not_nan (lo hi v : float) : within lo hi v = true -> is_nan v = false.
Proof. unfold within. intros [Hlo _]%andb_true_iff. apply (leb_true_not_nan _ _ Hlo). Qed.

Lemma reject_closed (lo hi v : float) :
  is_nan lo = false -> is_nan hi = false -> is_nan v = false ->
  (v <? lo) || (hi <? v) = negb (within lo hi v).
Proof.
  intros Hlo Hhi Hv. unfold within.
  rewrite (ltb_negb_leb v lo), (ltb_negb_leb hi v) by assumption.
  rewrite negb_andb. reflexivity.
Qed.

Lemma reject_dt (v : float) :
  is_nan v = false -> (v <=? 0.0) || (0.1 <? v) = negb ((0.0 <? v) && (v <=? 0.1)).
Proof.
  intros Hv.
  rewrite (ltb_negb_leb 0.0 v), (ltb_negb_leb 0.1 v) by (assumption || reflexivity).
  rewrite negb_andb, negb_involutive. reflexivity.
Qed.

(** Two floats that a test tells apart are different. *)
Ltac float_neq t :=
  let E := fresh in intros E; apply (f_equal t) in E; vm_compute in E; discriminate E.

(** ** Arithmetic at a zero distance *)







(** ** [clampSpeed] *)

(** C9 (amended): [clampSpeed] returns its argument as it is when the speed
    is exactly zero, and when the speed is neither below [vmin] nor above
    [vmax] (a speed within the bounds, or a NaN); it multiplies both
    components by [vmin / speed] when the non-zero speed is below [vmin],
    and by [vmax / speed] when the non-zero speed is not below [vmin] and
    above [vmax].  A second application changes nothing whenever the speed
    recomputed from the first result is within the bounds. *)
Theorem clampSpeed_fixed_points (vx vy lo hi : float) :
  let speed := calcSpeed vx vy in
  let v := clampSpeed vx vy lo hi in
  ((speed =? 0.0) = true -> v = mkVector vx vy)
  /\ (within lo hi speed = true -> v = mkVector vx vy)
  /\ (v = mkVector vx vy
      \/ v = mkVector (vx * (lo / speed)) (vy * (lo / speed))
      \/ v = mkVector (vx * (hi / speed)) (vy * (hi / speed)))
  /\ (within lo hi (calcSpeed (v_x v) (v_y v)) = true ->
      clampSpeed (v_x v) (v_y v) lo hi = v)
  /\ ((speed =? 0.0) = false -> (speed <? lo) = true ->
      v = mkVector (vx * (lo / speed)) (vy * (lo / speed)))
  /\ ((speed =? 0.0) = false -> (speed <? lo) = false -> (hi <? speed) = true ->
      v = mkVector (vx * (hi / speed)) (vy * (hi / speed)))
  /\ ((speed <? lo) = false -> (hi <? speed) = false -> v = mkVector vx vy)
  /\ (is_nan speed = true -> v = mkVector vx vy).
Proof.
  assert (Hfix : forall a b, within lo hi (calcSpeed a b) = true ->
                             clampSpeed a b lo hi = mkVector a b).
  { intros a b [Hlo Hhi]%andb_true_iff. unfold clampSpeed.
    rewrite (leb_true_ltb_false _ _ Hlo), (leb_true_ltb_false _ _ Hhi).
    destruct (calcSpeed a b =? 0); reflexivity. }
  intros speed v.
  assert (Hout : (speed <? lo) = false -> (hi <? speed) = false -> v = mkVector vx vy).
  { intros H1 H2. unfold v, clampSpeed. fold speed. rewrite H1, H2.
    destruct (speed =? 0); reflexivity. }
  split; [|split; [|split; [|split; [|split; [|split; [|split]]]]]].
  - intros Hz. unfold v, clampSpeed. fold speed. rewrite Hz. reflexivity.
  - apply Hfix.
  - unfold v, clampSpeed. fold speed.
    destruct (speed =? 0); [left; reflexivity|].
    destruct (speed <? lo); [right; left; reflexivity|].
    destruct (hi <? speed); [right; right; reflexivity | left; reflexivity].
  - intros Hin. rewrite (Hfix _ _ Hin). destruct v; reflexivity.
  - intros H0 H1. unfold v, clampSpeed. fold speed. rewrite H0, H1. reflexivity.
  - intros H0 H1 H2. unfold v, clampSpeed. fold speed. rewrite H0, H1, H2. reflexivity.
  - exact Hout.
  - intros Hn. apply Hout.
    + destruct (speed <? lo) eqn:E; [|reflexivity].
      destruct (ltb_true_not_nan _ _ E) as [Hs _]. congruence.
    + destruct (hi <? speed) eqn:E; [|reflexivity].
      destruct (ltb_true_not_nan _ _ E) as [_ Hs]. congruence.
Qed.

(** C9 as stated fails: with bounds 3 <= 5 the vector (1, 1) is scaled to a
    speed that rounds below 3, and a second application scales it again. *)
Lemma clampSpeed_not_idempotent :
  (3 <=? 5) = true
  /\ (let v := clampSpeed 1 1 3 5 in
      clampSpeed (v_x v) (v_y v) 3 5 <> v
      /\ within 3 5 (calcSpeed (v_x v) (v_y v)) = false).
Proof.
  split; [reflexivity|]. split; [|reflexivity].
  float_neq (fun v => v_x v <=? 2.1213203435596425).
Qed.

(** ** A small program logic for [Rand] *)

Lemma post_ret {A} (a : A) (Q : A -> Prop) : Q a -> post (ret a) Q.
Proof. intros HQ n. exact HQ. Qed.

Lemma post_bind {A B} (m : Rand A) (k : A -> Rand B) (P : A -> Prop) (Q : B -> Prop) :
  post m P -> (forall a, P a -> post (k a) Q) -> post (bind m k) Q.
Proof. intros Hm Hk n. unfold bind. apply Hk, Hm. Qed.

Lemma post_True {A} (m : Rand A) : post m (fun _ => True).
Proof. intros n. exact I. Qed.

Lemma post_conj {A} (m : Rand A) (P Q : A -> Prop) :
  post m P -> post m Q -> post m (fun a => P a /\ Q a).
Proof. intros HP HQ n. split; [apply HP | apply HQ]. Qed.

Lemma post_mono {A} (m : Rand A) (P Q : A -> Prop) :
  (forall a, P a -> Q a) -> post m P -> post m Q.
Proof. intros HPQ HP n. apply HPQ, HP. Qed.

Lemma post_forM {A} (I : A -> Prop) (l : list nat) (f : nat -> A -> Rand A) :
  (forall i a, i ∈ l -> I a -> post (f i a) I) ->
  forall a, I a -> post (forM l f a) I.
Proof.
  induction l as [|i l IH]; intros Hf a Ha; simpl.
  - apply post_ret, Ha.
  - apply post_bind with (P := I).
    + apply Hf; [left | exact Ha].
    + intros a' Ha'. apply IH; [|exact Ha'].
      intros j b Hj. apply Hf. right. exact Hj.
Qed.

Lemma fold_left_inv {A} (I : A -> Prop) (l : list nat) (f : A -> nat -> A) :
  (forall i a, i ∈ l -> I a -> I (f a i)) ->
  forall a, I a -> I (fold_left f l a).
Proof.
  induction l as [|i l IH]; intros Hf a Ha; simpl; [exact Ha|].
  apply IH.
  - intros j b Hj. apply Hf. right. exact Hj.
  - apply Hf; [left | exact Ha].
Qed.

Lemma elem_of_upto (i : nat) (n : Z) : i ∈ upto n -> (Z.of_nat i < n)%Z.
Proof. unfold upto. rewrite elem_of_seq. lia. Qed.

Lemma post_run (H : Host) (I : Gravity -> Prop) (ops : list Op) :
  (forall op s, op ∈ ops -> I s -> post (step H op s) I) ->
  forall s, I s -> post (run H ops s) I.
Proof.
  induction ops as [|op ops IH]; intros Hstep s Hs; simpl.
  - apply post_ret, Hs.
  - eapply post_bind.
    + apply Hstep; [left | exact Hs].
    + intros s' Hs'. apply IH; [|exact Hs'].
      intros op' a Hin. apply Hstep. right. exact Hin.
Qed.

(** ** Array updates *)

Lemma bodies_modify_body_eq (i : nat) (f : Body -> Body) (s : Gravity) :
  (i < length (bodies s))%nat -> bodies (modify_body i f s) !!! i = f (bodies s !!! i).
Proof. intros Hi. simpl. apply list_lookup_total_insert_eq, Hi. Qed.

Lemma bodies_modify_body_ne (i j : nat) (f : Body -> Body) (s : Gravity) :
  i <> j -> bodies (modify_body i f s) !!! j = bodies s !!! j.
Proof. intros Hij. simpl. apply list_lookup_total_insert_ne, Hij. Qed.

(** A field that [f] does not change is unchanged in every slot. *)
Lemma bodies_modify_body_proj {A} (p : Body -> A) (i j : nat) (f : Body -> Body) (s : Gravity) :
  (forall b, p (f b) = p b) -> p (bodies (modify_body i f s) !!! j) = p (bodies s !!! j).
Proof.
  intros Hp. simpl. rewrite list_lookup_total_insert.
  case_decide as Hd; [destruct Hd as [-> _]; apply Hp | reflexivity].
Qed.

(** ** What the integration step leaves alone *)

Lemma frame_refl (s : Gravity) : frame s s.
Proof. constructor; reflexivity. Qed.

Lemma frame_trans (s1 s2 s3 : Gravity) : frame s1 s2 -> frame s2 s3 -> frame s1 s3.
Proof.
  intros [? ? ? ? ? ? ? ? ? Hc1 Hi1 ?] [? ? ? ? ? ? ? ? ? Hc2 Hi2 ?].
  constructor; try congruence.
  intros j Hj. rewrite Hi2, Hi1; [reflexivity | exact Hj | lia].
Qed.

Lemma frame_modify_body (i : nat) (f : Body -> Body) (s : Gravity) :
  (Z.of_nat i < body_count s)%Z -> frame s (modify_body i f s).
Proof.
  intros Hi. constructor; try reflexivity; simpl.
  - intros j Hj. apply list_lookup_total_insert_ne. lia.
  - apply length_insert.
Qed.

Lemma frame_set_nudge (m : bool) (k : Z) (s : Gravity) : frame s (set_nudge m k s).
Proof. constructor; reflexivity. Qed.

Lemma frame_drift (d : float) (s : Gravity) (i : nat) :
  (Z.of_nat i < body_count s)%Z -> frame s (drift_body d s i).
Proof. apply frame_modify_body. Qed.

(** A loop over the live indices whose iterations each respect the frame. *)
Lemma frame_forM_live (f : nat -> Gravity -> Rand Gravity) (s0 s : Gravity) :
  (forall i a, (Z.of_nat i < body_count a)%Z -> post (f i a) (frame a)) ->
  frame s0 s -> post (forM (upto (body_count s)) f s) (frame s0).
Proof.
  intros Hf Hs. apply post_forM with (I := frame s0); [|exact Hs].
  intros i a Hi%elem_of_upto Ha n. eapply frame_trans; [exact Ha|].
  apply Hf. rewrite (fr_body_count _ _ Ha), <- (fr_body_count _ _ Hs). exact Hi.
Qed.

Section Frame.
Context (H : Host).

Lemma frame_repel_neighbour (index : nat) (rz rm : float) (j : nat) (s : Gravity) :
  (Z.of_nat index < body_count s)%Z ->
  post (repel_neighbour H index rz rm j s) (frame s).
Proof.
  intros Hi. unfold repel_neighbour.
  repeat (case_match; try (apply post_ret, frame_refl)).
  all: eapply post_bind; [apply post_True|]; intros u _.
  all: apply post_ret, frame_modify_body, Hi.
Qed.

Lemma frame_applyCloseBodyRepulsion (index : nat) (v a rz rm : float) (s : Gravity) :
  post (applyCloseBodyRepulsion H index v a rz rm s) (frame s).
Proof.
  unfold applyCloseBodyRepulsion.
  destruct (body_count s <=? Z.of_nat index)%Z eqn:Hi; [apply post_ret, frame_refl|].
  apply Z.leb_gt in Hi.
  repeat (case_match; try (apply post_ret, frame_refl)).
  eapply post_bind; [apply post_True|]. intros u1 _.
  eapply post_bind; [apply post_True|]. intros u2 _.
  match goal with |- post (forM _ _ ?s1) _ => set (s' := s1) end.
  assert (Hfr : frame s s') by (apply frame_modify_body, Hi).
  apply post_forM with (I := frame s); [|exact Hfr].
  intros j s2 _ Ha. intros n. eapply frame_trans; [exact Ha|].
  apply frame_repel_neighbour. rewrite (fr_body_count _ _ Ha). exact Hi.
Qed.

Lemma frame_accel_body (i : nat) (s : Gravity) :
  (Z.of_nat i < body_count s)%Z -> post (accel_body H i s) (frame s).
Proof.
  intros Hi n. unfold accel_body.
  eapply frame_trans; [apply frame_modify_body, Hi|].
  apply frame_applyCloseBodyRepulsion.
Qed.

Lemma frame_nudge_body (i : nat) (s : Gravity) :
  (Z.of_nat i < body_count s)%Z -> post (nudge_body H i s) (frame s).
Proof.
  intros Hi. unfold nudge_body. destruct (nudge_mode s); [|apply post_ret, frame_refl].
  eapply post_bind; [apply post_True|]. intros v _. apply post_ret.
  eapply frame_trans; [|apply frame_set_nudge].
  destruct (nudge_step s =? 20)%Z.
  - eapply frame_trans; [apply frame_set_nudge|]. apply frame_modify_body. exact Hi.
  - apply frame_modify_body, Hi.
Qed.

Lemma frame_kick_body (d : float) (ox oy : list float) (i : nat) (s : Gravity) :
  (Z.of_nat i < body_count s)%Z -> post (kick_body H d ox oy i s) (frame s).
Proof.
  intros Hi. unfold kick_body.
  match goal with |- post (bind (nudge_body _ _ ?s1) _) _ => set (s' := s1) end.
  assert (Hfr : frame s s') by (apply frame_modify_body, Hi).
  eapply post_bind.
  - apply frame_nudge_body. rewrite (fr_body_count _ _ Hfr). exact Hi.
  - intros s2 H2. apply post_ret.
    eapply frame_trans; [exact Hfr|]. eapply frame_trans; [exact H2|].
    apply frame_modify_body. rewrite (fr_body_count _ _ H2), (fr_body_count _ _ Hfr). exact Hi.
Qed.

Lemma frame_minSpeed_body (i : nat) (s : Gravity) :
  (Z.of_nat i < body_count s)%Z -> post (minSpeed_body H i s) (frame s).
Proof.
  intros Hi. unfold minSpeed_body.
  repeat (case_match; try (apply post_ret, frame_refl)).
  eapply post_bind; [apply post_True|]. intros v _.
  apply post_ret, frame_modify_body, Hi.
Qed.

Lemma frame_simulate (s : Gravity) : post (simulate H s) (frame s).
Proof.
  unfold simulate.
  match goal with |- context [fold_left ?f ?l s] => set (s1 := fold_left f l s) end.
  assert (H1 : frame s s1).
  { apply (fold_left_inv (frame s)); [|apply frame_refl].
    intros i a Hi%elem_of_upto Ha. eapply frame_trans; [exact Ha|].
    apply frame_drift. rewrite (fr_body_count _ _ Ha). exact Hi. }
  eapply post_bind.
  { apply frame_forM_live; [apply frame_accel_body | exact H1]. }
  intros s2 H2.
  eapply post_bind.
  { apply frame_forM_live; [apply frame_kick_body | exact H2]. }
  intros s3 H3.
  unfold applyMinSpeed. apply frame_forM_live; [apply frame_minSpeed_body | exact H3].
Qed.

End Frame.

(** C5: one call of [simulate] leaves every [initBodies] record, every body
    at an index from [body_count] on, the black hole and all scalar
    parameters as they were; it writes the live bodies and the nudge
    bookkeeping only. *)
Theorem simulate_frame (H : Host) (s : Gravity) (n : nat) :
  let s' := fst (simulate H s n) in
  initBodies s' = initBodies s
  /\ (forall j : nat, (body_count s <= Z.of_nat j)%Z -> bodies s' !!! j = bodies s !!! j)
  /\ length (bodies s') = length (bodies s)
  /\ blackHole s' = blackHole s
  /\ G s' = G s /\ dt s' = dt s /\ pos_damping s' = pos_damping s
  /\ vel_damping s' = vel_damping s /\ softening s' = softening s
  /\ vmin s' = vmin s /\ vmax s' = vmax s /\ body_count s' = body_count s.
Proof.
  intros s'. destruct (frame_simulate H s n). unfold s'. repeat split; assumption.
Qed.

(** ** The nudge counter *)

Section Nudge.
Context (H : Host).

Lemma nudge_repel_neighbour (index : nat) (rz rm : float) (j : nat) (s : Gravity) :
  post (repel_neighbour H index rz rm j s) (fun s' => nudge_state s' = nudge_state s).
Proof.
  unfold repel_neighbour.
  repeat (case_match; try (apply post_ret; reflexivity)).
  all: eapply post_bind; [apply post_True|]; intros u _.
  all: apply post_ret; reflexivity.
Qed.

Lemma nudge_applyCloseBodyRepulsion (index : nat) (v a rz rm : float) (s : Gravity) :
  post (applyCloseBodyRepulsion H index v a rz rm s) (fun s' => nudge_state s' = nudge_state s).
Proof.
  unfold applyCloseBodyRepulsion.
  repeat (case_match; try (apply post_ret; reflexivity)).
  eapply post_bind; [apply post_True|]. intros u1 _.
  eapply post_bind; [apply post_True|]. intros u2 _.
  apply post_forM with (I := fun s' => nudge_state s' = nudge_state s); [|reflexivity].
  intros j s2 _ Hs2 n. rewrite <- Hs2. apply nudge_repel_neighbour.
Qed.

Lemma nudge_accel_body (i : nat) (s : Gravity) :
  post (accel_body H i s) (fun s' => nudge_state s' = nudge_state s).
Proof.
  unfold accel_body. eapply post_mono; [|apply nudge_applyCloseBodyRepulsion].
  intros s' ->. reflexivity.
Qed.

Lemma nudge_minSpeed_body (i : nat) (s : Gravity) :
  post (minSpeed_body H i s) (fun s' => nudge_state s' = nudge_state s).
Proof.
  unfold minSpeed_body.
  repeat (case_match; try (apply post_ret; reflexivity)).
  eapply post_bind; [apply post_True|]. intros v _. apply post_ret. reflexivity.
Qed.

Lemma nudge_nudge_body (i : nat) (s : Gravity) :
  post (nudge_body H i s) (fun s' => nudge_state s' = nudge_tick (nudge_state s)).
Proof.
  unfold nudge_body, nudge_tick, nudge_state. simpl.
  destruct (nudge_mode s) eqn:Hm; [|apply post_ret; simpl; rewrite Hm; reflexivity].
  eapply post_bind; [apply post_True|]. intros v _. apply post_ret.
  destruct (nudge_step s =? 20)%Z; simpl; rewrite ?Hm; reflexivity.
Qed.

Lemma nudge_kick_body (d : float) (ox oy : list float) (i : nat) (s : Gravity) :
  post (kick_body H d ox oy i s) (fun s' => nudge_state s' = nudge_tick (nudge_state s)).
Proof.
  unfold kick_body. eapply post_bind; [apply nudge_nudge_body|].
  intros s2 H2. apply post_ret. exact H2.
Qed.

Lemma nudge_forM_same (f : nat -> Gravity -> Rand Gravity) (l : list nat) (s : Gravity) :
  (forall i a, post (f i a) (fun s' => nudge_state s' = nudge_state a)) ->
  post (forM l f s) (fun s' => nudge_state s' = nudge_state s).
Proof.
  intros Hf. apply post_forM with (I := fun s' => nudge_state s' = nudge_state s); [|reflexivity].
  intros i a _ Ha n. rewrite <- Ha. apply Hf.
Qed.

Lemma nudge_forM_kick (d : float) (ox oy : list float) (l : list nat) (s : Gravity) :
  post (forM l (kick_body H d ox oy) s)
       (fun s' => nudge_state s' = Nat.iter (length l) nudge_tick (nudge_state s)).
Proof.
  revert s. induction l as [|i l IH]; intros s; simpl.
  - apply post_ret. reflexivity.
  - eapply post_bind; [apply nudge_kick_body|].
    intros s1 H1. eapply post_mono; [|apply IH].
    intros s2 H2. simpl in H2. rewrite H2, H1.
    rewrite <- Nat.iter_succ_r. reflexivity.
Qed.

Lemma nudge_fold_drift (d : float) (l : list nat) (s : Gravity) :
  nudge_state (fold_left (drift_body d) l s) = nudge_state s.
Proof.
  apply (fold_left_inv (fun s' => nudge_state s' = nudge_state s)); [|reflexivity].
  intros i a _ Ha. rewrite <- Ha. reflexivity.
Qed.

(** [simulate] passes through the nudge block once per live body. *)
Lemma simulate_nudge_state (s : Gravity) :
  post (simulate H s)
       (fun s' => nudge_state s' = Nat.iter (Z.to_nat (body_count s)) nudge_tick (nudge_state s)).
Proof.
  unfold simulate.
  match goal with |- context [fold_left ?f ?l s] => set (s1 := fold_left f l s) end.
  assert (F1 : frame s s1).
  { apply (fold_left_inv (frame s)); [|apply frame_refl].
    intros i a Hi%elem_of_upto Ha. eapply frame_trans; [exact Ha|].
    apply frame_drift. rewrite (fr_body_count _ _ Ha). exact Hi. }
  assert (N1 : nudge_state s1 = nudge_state s) by apply nudge_fold_drift.
  eapply post_bind.
  { apply post_conj.
    - apply frame_forM_live; [apply frame_accel_body | exact F1].
    - apply nudge_forM_same, nudge_accel_body. }
  intros s2 [F2 N2]. simpl in N2.
  eapply post_bind.
  { apply nudge_forM_kick. }
  intros s3 N3. simpl in N3.
  eapply post_mono; [|apply nudge_forM_same, nudge_minSpeed_body].
  intros s4 N4. simpl in N4. rewrite N4, N3, N2, N1.
  unfold upto. rewrite length_seq, (fr_body_count _ _ F2). reflexivity.
Qed.

End Nudge.

Lemma simulate_nudge_count (H : Host) (s : Gravity) (n : nat) :
  let s' := fst (simulate H s n) in
  body_count s' = body_count s
  /\ nudge_state s' = Nat.iter (Z.to_nat (body_count s)) nudge_tick (nudge_state s).
Proof.
  split; [apply (fr_body_count _ _ (frame_simulate H s n)) | apply simulate_nudge_state].
Qed.

Lemma nudge_tick_range (ms : bool * Z) :
  (0 <= snd ms <= 20)%Z -> (0 <= snd (nudge_tick ms) <= 20)%Z.
Proof.
  destruct ms as [[] k]; unfold nudge_tick; simpl; [|auto].
  destruct (Z.eqb_spec k 20); simpl; lia.
Qed.

Lemma nudge_iter_range (k : nat) (ms : bool * Z) :
  (0 <= snd ms <= 20)%Z -> (0 <= snd (Nat.iter k nudge_tick ms) <= 20)%Z.
Proof. intros Hms. induction k as [|k IH]; simpl; [exact Hms | apply nudge_tick_range, IH]. Qed.

(** ** What the configuration calls leave alone *)

Lemma keeps_refl (s : Gravity) : keeps s s.
Proof. constructor; try reflexivity. intros Hc; exact Hc. Qed.

Lemma keeps_trans (s1 s2 s3 : Gravity) : keeps s1 s2 -> keeps s2 s3 -> keeps s1 s3.
Proof. intros [] []. constructor; try congruence. auto. Qed.

Lemma keeps_modify_body (i : nat) (f : Body -> Body) (s : Gravity) : keeps s (modify_body i f s).
Proof.
  constructor; try reflexivity; try (intros Hc; exact Hc). simpl. apply length_insert.
Qed.

Lemma keeps_initBody (i : nat) (s : Gravity) : keeps s (initBody i s).
Proof. apply keeps_modify_body. Qed.

Lemma keeps_setBody (index : Z) (x y vx vy m : float) (s : Gravity) :
  keeps s (setBody index x y vx vy m s).
Proof.
  unfold setBody. case_match; [apply keeps_refl|].
  constructor; try reflexivity; try (intros Hc; exact Hc);
    simpl; rewrite !length_insert; reflexivity.
Qed.

Lemma keeps_reset_body (s : Gravity) (i : nat) : keeps s (reset_body s i).
Proof.
  unfold reset_body. eapply keeps_trans; [apply keeps_modify_body | apply keeps_initBody].
Qed.

Lemma keeps_reset_prefix (i : nat) (s : Gravity) : keeps s (reset_prefix i s).
Proof.
  unfold reset_prefix. apply (fold_left_inv (keeps s)); [|apply keeps_refl].
  intros j a _ Ha. eapply keeps_trans; [exact Ha | apply keeps_reset_body].
Qed.

Lemma keeps_reset (s : Gravity) : keeps s (reset s).
Proof. apply (keeps_reset_prefix 10). Qed.

Lemma keeps_setG g s : keeps s (setG g s).
Proof. unfold setG. case_match; constructor; try reflexivity; intros Hc; exact Hc. Qed.

Lemma keeps_setDt d s : keeps s (setDt d s).
Proof. unfold setDt. case_match; constructor; try reflexivity; intros Hc; exact Hc. Qed.

Lemma keeps_setPosDamping d s : keeps s (setPosDamping d s).
Proof. unfold setPosDamping. case_match; constructor; try reflexivity; intros Hc; exact Hc. Qed.

Lemma keeps_setVelDamping d s : keeps s (setVelDamping d s).
Proof. unfold setVelDamping. case_match; constructor; try reflexivity; intros Hc; exact Hc. Qed.

Lemma keeps_setSoftening v s : keeps s (setSoftening v s).
Proof. unfold setSoftening. case_match; constructor; try reflexivity; intros Hc; exact Hc. Qed.

Lemma keeps_setBodyCount c s : keeps s (setBodyCount c s).
Proof.
  unfold setBodyCount, BodyCount.
  destruct ((c <? 2)%Z || (c >? 10)%Z) eqn:Hc; constructor; try reflexivity;
    try (intros Hok; exact Hok).
  intros _. unfold count_ok. simpl. apply orb_false_iff in Hc. lia.
Qed.

Lemma keeps_resetBodies s : keeps s (resetBodies s).
Proof.
  unfold resetBodies. apply (fold_left_inv (keeps s)); [|apply keeps_refl].
  intros i a _ Ha. eapply keeps_trans; [exact Ha|].
  constructor; try reflexivity; try (intros Hc; exact Hc); simpl; apply length_insert.
Qed.

Lemma keeps_block (fs : list (Gravity -> Gravity)) (s : Gravity) :
  Forall (fun f => forall a, keeps a (f a)) fs -> keeps s (run_block fs s).
Proof.
  unfold run_block. intros Hfs. revert s.
  induction Hfs as [|f fs Hf _ IH]; intros s; simpl; [apply keeps_refl|].
  eapply keeps_trans; [apply Hf | apply IH].
Qed.

Lemma keeps_for_int (lo hi : Z) (body : Z -> Gravity -> Gravity) (s : Gravity) :
  (forall i a, keeps a (body i a)) -> keeps s (for_int lo hi body s).
Proof.
  intros Hb. unfold for_int. apply (fold_left_inv (keeps s)); [|apply keeps_refl].
  intros i a _ Ha. eapply keeps_trans; [exact Ha | apply Hb].
Qed.

Create HintDb keeps.

#[local] Hint Resolve keeps_setG keeps_setDt keeps_setPosDamping keeps_setVelDamping
  keeps_setSoftening keeps_setBodyCount keeps_setBody keeps_refl : keeps.

Ltac keeps_tac :=
  cbv beta zeta;
  lazymatch goal with
  | |- keeps _ (run_block _ _) =>
      apply keeps_block; repeat (constructor; [intros ?; keeps_tac|]); constructor
  | |- keeps _ (for_int _ _ _ _) => apply keeps_for_int; intros ? ?; keeps_tac
  | |- _ => auto with keeps
  end.

Section KeepsPreset.
Context (H : Host).

Lemma keeps_preset_random (s : Gravity) : post (preset_random H s) (keeps s).
Proof.
  unfold preset_random.
  match goal with |- post (forM _ _ ?s1) _ => assert (Hs1 : keeps s s1) by keeps_tac end.
  apply post_forM with (I := keeps s); [|exact Hs1].
  intros i a _ Ha n. eapply keeps_trans; [exact Ha|]. simpl. apply keeps_setBody.
Qed.

Lemma keeps_apply_preset (p : Z) (s : Gravity) : post (apply_preset H p s) (keeps s).
Proof.
  unfold apply_preset.
  repeat (case_match;
    lazymatch goal with
    | |- post (ret s) _ => apply post_ret, keeps_refl
    | |- post (preset_random _ _) _ => apply keeps_preset_random
    | |- post (ret _) _ => apply post_ret
    | |- _ => idtac
    end).
  all: unfold preset_ring, preset_cluster, preset_spiral, preset_cross, preset_orbit,
         preset_binaries, preset_figure_eight, preset_line, preset_burst, preset_chaos_fast,
         preset_chaos_drift, preset_chaos_extreme, preset_chaos_triangle; keeps_tac.
Qed.

Lemma keeps_loadPreset (i : Z) (s : Gravity) : post (loadPreset H i s) (keeps s).
Proof.
  intros n. unfold loadPreset.
  eapply keeps_trans; [apply keeps_resetBodies | apply keeps_apply_preset].
Qed.

End KeepsPreset.

(** ** Engines the host can produce *)

Lemma wf_keeps (s s' : Gravity) : keeps s s' -> wf s -> wf s'.
Proof. intros [] []. split; congruence. Qed.

Lemma wf_frame (s s' : Gravity) : frame s s' -> wf s -> wf s'.
Proof. intros [] []. split; congruence. Qed.

Lemma wf_apply_setter (c : Setter) (s : Gravity) : wf s -> wf (apply_setter c s).
Proof.
  intros Hwf. destruct c; simpl;
    unfold setG, setDt, setPosDamping, setVelDamping, setSoftening, setVmin, setVmax,
      setBodyCount, setBodyMass, setBlackHole;
    repeat case_match; try exact Hwf.
  destruct Hwf as [Hb Hi]. split; simpl; [rewrite length_insert|]; assumption.
Qed.

Lemma wf_step (H : Host) (op : Op) (s : Gravity) : wf s -> post (step H op s) wf.
Proof.
  intros Hwf n. destruct op; cbn [step]; unfold ret; cbn [fst].
  - apply wf_apply_setter, Hwf.
  - eapply wf_keeps; [apply keeps_setBody | exact Hwf].
  - eapply wf_keeps; [apply keeps_loadPreset | exact Hwf].
  - eapply wf_keeps; [apply keeps_reset | exact Hwf].
  - exact Hwf.
  - eapply wf_frame; [apply frame_simulate | exact Hwf].
Qed.

Lemma wf_run (H : Host) (ops : list Op) (s : Gravity) : wf s -> post (run H ops s) wf.
Proof. apply post_run. intros op a _. apply wf_step. Qed.

Lemma wf_Gravity_new (H : Host) (bh : Body) : post (Gravity_new H bh) wf.
Proof.
  intros n. unfold Gravity_new. eapply wf_keeps; [apply keeps_loadPreset|].
  split; reflexivity.
Qed.

Lemma body_count_new (H : Host) (bh : Body) (n : nat) :
  body_count (fst (Gravity_new H bh n)) = 10%Z.
Proof. reflexivity. Qed.

Lemma nudge_state_new (H : Host) (bh : Body) (n : nat) :
  nudge_state (fst (Gravity_new H bh n)) = (false, 0%Z).
Proof.
  unfold Gravity_new.
  match goal with |- context [loadPreset H 0 ?s n] =>
    rewrite (kp_nudge _ _ (keeps_loadPreset H 0 s n)) end.
  reflexivity.
Qed.

Lemma count_nudge_apply_setter (c : Setter) (s : Gravity) :
  (count_ok s -> count_ok (apply_setter c s))
  /\ nudge_state (apply_setter c s) = nudge_state s.
Proof.
  destruct c; simpl;
    try (split; [apply (kp_count _ _ (keeps_setBodyCount count s))
                | apply (kp_nudge _ _ (keeps_setBodyCount count s))]);
    unfold setG, setDt, setPosDamping, setVelDamping, setSoftening, setVmin, setVmax,
      setBodyMass, setBlackHole;
    repeat case_match; split; try reflexivity; intros Hc; exact Hc.
Qed.

Lemma engine_ok_step (H : Host) (op : Op) (s : Gravity) :
  engine_ok s -> post (step H op s) engine_ok.
Proof.
  intros (Hwf & Hc & Hn) n. split; [apply wf_step, Hwf|].
  assert (Hkeeps : forall s', keeps s s' -> count_ok s' /\ (0 <= nudge_step s' <= 20)%Z).
  { intros s' Hk. split; [apply (kp_count _ _ Hk), Hc|].
    pose proof (f_equal snd (kp_nudge _ _ Hk)) as E. unfold nudge_state in E. cbn [snd] in E. rewrite E. exact Hn. }
  destruct op as [c| | | | |]; cbn [step]; unfold ret; cbn [fst].
  - destruct (count_nudge_apply_setter c s) as [Hc' Hn'].
    split; [apply Hc', Hc|].
    pose proof (f_equal snd Hn') as E. unfold nudge_state in E. cbn [snd] in E. rewrite E. exact Hn.
  - apply Hkeeps, keeps_setBody.
  - apply Hkeeps, keeps_loadPreset.
  - apply Hkeeps, keeps_reset.
  - split; [exact Hc | exact Hn].
  - split.
    + unfold count_ok. rewrite (fr_body_count _ _ (frame_simulate H s n)). exact Hc.
    + pose proof (f_equal snd (simulate_nudge_state H s n)) as E. unfold nudge_state in E. cbn [snd] in E.
      rewrite E. apply nudge_iter_range. exact Hn.
Qed.

Lemma engine_ok_new (H : Host) (bh : Body) : post (Gravity_new H bh) engine_ok.
Proof.
  intros n. split; [apply wf_Gravity_new|]. split.
  - unfold count_ok. rewrite body_count_new. lia.
  - pose proof (f_equal snd (nudge_state_new H bh n)) as E. unfold nudge_state in E. cbn [snd] in E. rewrite E. lia.
Qed.

(** Every engine the host can produce has its arrays at ten records, between
    2 and 10 live bodies and a nudge counter between 0 and 20. *)
Lemma engine_ok_run (H : Host) (bh : Body) (ops : list Op) :
  post (let* s := Gravity_new H bh in run H ops s) engine_ok.
Proof.
  eapply post_bind; [apply engine_ok_new|].
  intros s Hs. apply post_run; [|exact Hs].
  intros op a _ Ha. apply engine_ok_step, Ha.
Qed.

(** ** The setters' validation *)

Lemma setG_store (g : float) :
  is_nan g = false -> (0.1 <? g) && (g <? f32_0_1) = false ->
  (if g <? f32_0_1 then 0.1 else g) = fmax g 0.1.
Proof.
  intros Hg Hgap. unfold fmax.
  destruct (g <? f32_0_1) eqn:H32.
  - rewrite andb_true_r in Hgap.
    destruct (g <? 0.1) eqn:H01; [reflexivity|].
    symmetry. eapply (not_ltb_eq_finite g 0.1); [vm_compute; reflexivity | assumption..].
  - assert (Hle : (f32_0_1 <=? g) = true).
    { rewrite (ltb_negb_leb g f32_0_1) in H32 by (assumption || reflexivity).
      apply negb_false_iff, H32. }
    assert (Hlt : (0.1 <? g) = true) by (eapply ltb_leb_trans; [|exact Hle]; reflexivity).
    rewrite (ltb_asym _ _ Hlt). reflexivity.
Qed.

(** C2 (amended): for arguments that are numbers, a setter whose argument
    is outside the documented range returns the engine unchanged, and one
    whose argument is inside stores the documented value; for [setG] this
    is stated for the arguments outside the gap between [0.1] and [0.1f]. *)
Theorem setters_validate (c : Setter) (s : Gravity) :
  wf s -> numeric c -> in_G_gap c = false ->
  (documented_range c = false -> apply_setter c s = s)
  /\ (documented_range c = true -> documented_store c (apply_setter c s)).
Proof.
  intros [Hl _] Hnum Hgap.
  destruct c; simpl in *.
  - unfold setG. rewrite reject_closed by (assumption || reflexivity).
    destruct (within 0 10 g); simpl; split; intros; try discriminate; try reflexivity.
    unfold getG. simpl. apply setG_store; assumption.
  - unfold setDt. rewrite reject_dt by assumption.
    destruct ((0 <? d) && (d <=? 0.1)); simpl; split; intros; try discriminate; reflexivity.
  - unfold setPosDamping. rewrite reject_closed by (assumption || reflexivity).
    destruct (within 0 0.1 damp); simpl; split; intros; try discriminate; reflexivity.
  - unfold setVelDamping. rewrite reject_closed by (assumption || reflexivity).
    destruct (within 0 0.5 damp); simpl; split; intros; try discriminate; reflexivity.
  - unfold setSoftening. rewrite reject_closed by (assumption || reflexivity).
    destruct (within 0 5 v); simpl; split; intros; try discriminate; reflexivity.
  - unfold setVmin. rewrite reject_closed by (assumption || reflexivity).
    destruct (within 0.1 1000 v); simpl; split; intros; try discriminate; try reflexivity.
    destruct (vmax s <? v); reflexivity.
  - unfold setVmax. rewrite reject_closed by (assumption || reflexivity).
    destruct (within 1 10000 v); simpl; split; intros; try discriminate; try reflexivity.
    destruct (v <? vmin s); reflexivity.
  - unfold setBodyCount, BodyCount.
    replace ((count <? 2)%Z || (count >? 10)%Z) with (negb ((2 <=? count)%Z && (count <=? 10)%Z))
      by (rewrite negb_andb; f_equal; lia).
    destruct ((2 <=? count)%Z && (count <=? 10)%Z); simpl; split; intros;
      try discriminate; reflexivity.
  - unfold setBodyMass, getBody, BodyCount.
    replace ((index <? 0)%Z || (index >? 10 - 1)%Z)
      with (negb ((0 <=? index)%Z && (index <=? 9)%Z))
      by (rewrite negb_andb; f_equal; lia).
    destruct ((0 <=? index)%Z && (index <=? 9)%Z) eqn:Hidx; simpl.
    + rewrite reject_closed by (assumption || reflexivity).
      destruct (within 0.1 30 mass); simpl; split; intros; try discriminate; try reflexivity.
      rewrite list_lookup_total_insert_eq by lia. reflexivity.
    + split; intros; try discriminate; reflexivity.
  - destruct Hnum as (Hx & Hy & Hm). unfold setBlackHole.
    rewrite !reject_closed by (assumption || reflexivity).
    destruct (within (-500) 500 x), (within (-500) 500 y), (within 0 10000 mass); simpl;
      split; intros; try discriminate; reflexivity.
Qed.

Lemma setters_validate_witness :
  documented_store (SetPosDamping 0.02) (apply_setter (SetPosDamping 0.02) example_engine)
  /\ apply_setter (SetBodyCount 1) example_engine = example_engine.
Proof.
  split.
  - apply (setters_validate (SetPosDamping 0.02) example_engine);
      [split; vm_compute; reflexivity | reflexivity ..].
  - apply (setters_validate (SetBodyCount 1) example_engine);
      [split; vm_compute; reflexivity | exact I | reflexivity ..].
Defined.

(** C2 as stated fails.  NaN is outside every documented range, yet no test
    of [setDt] rejects it and it is stored; and [setG] maps an in-range
    argument between [0.1] and [0.1f] to [0.1], not to [max (g, 0.1)]. *)
Lemma setters_nan_and_gap :
  documented_range (SetDt nan) = false
  /\ apply_setter (SetDt nan) example_engine <> example_engine
  /\ documented_range (SetG 0.1000000005) = true
  /\ ~ documented_store (SetG 0.1000000005) (apply_setter (SetG 0.1000000005) example_engine).
Proof.
  split; [reflexivity|]. split; [|split; [reflexivity|]].
  - intros E. apply (f_equal (fun s => is_nan (dt s))) in E. vm_compute in E. discriminate E.
  - simpl. float_neq (fun a => 0.1 <? a).
Qed.

(** ** The speed bounds *)

Lemma vbounds_apply_setter (c : Setter) (s : Gravity) :
  match c with SetVmin _ | SetVmax _ => False | _ => True end ->
  vmin (apply_setter c s) = vmin s /\ vmax (apply_setter c s) = vmax s.
Proof.
  destruct c; simpl; intros Hc; try contradiction;
    unfold setG, setDt, setPosDamping, setVelDamping, setSoftening,
      setBodyCount, setBodyMass, setBlackHole;
    repeat case_match; split; reflexivity.
Qed.

Lemma vbounds_setVmin (v : float) (s : Gravity) :
  vbounds_ok s -> is_nan v = false -> vbounds_ok (setVmin v s).
Proof.
  unfold vbounds_ok, setVmin. intros Hok Hv.
  destruct (leb_true_not_nan _ _ Hok) as [_ Hmax].
  destruct ((v <? 0.1) || (1000 <? v)); [exact Hok|]. simpl.
  destruct (vmax s <? v) eqn:Hlt; simpl.
  - apply leb_refl, Hv.
  - rewrite (ltb_negb_leb (vmax s) v) in Hlt by assumption.
    apply negb_false_iff, Hlt.
Qed.

Lemma vbounds_setVmax (v : float) (s : Gravity) :
  vbounds_ok s -> is_nan v = false -> vbounds_ok (setVmax v s).
Proof.
  unfold vbounds_ok, setVmax. intros Hok Hv.
  destruct (leb_true_not_nan _ _ Hok) as [Hmin _].
  destruct ((v <? 1) || (10000 <? v)); [exact Hok|]. simpl.
  destruct (v <? vmin s) eqn:Hlt; simpl.
  - apply leb_refl, Hv.
  - rewrite (ltb_negb_leb v (vmin s)) in Hlt by assumption.
    apply negb_false_iff, Hlt.
Qed.

Lemma vbounds_step (H : Host) (op : Op) (s : Gravity) :
  match op with OSet (SetVmin _) | OSet (SetVmax _) => False | _ => True end ->
  post (step H op s) (fun s' => vmin s' = vmin s /\ vmax s' = vmax s).
Proof.
  intros Hop n. destruct op as [c| | | | |]; cbn [step]; unfold ret; cbn [fst].
  - apply vbounds_apply_setter. destruct c; (exact I || contradiction).
  - pose proof (keeps_setBody index x y vx vy mass s) as []. auto.
  - pose proof (keeps_loadPreset H presetIndex s n) as []. auto.
  - pose proof (keeps_reset s) as []. auto.
  - split; reflexivity.
  - pose proof (frame_simulate H s n) as []. auto.
Qed.

(** The constructor leaves the bounds at 1 and 5. *)
Lemma vbounds_ok_new (H : Host) (bh : Body) : post (Gravity_new H bh) vbounds_ok.
Proof.
  intros n. unfold Gravity_new, vbounds_ok.
  pose proof (keeps_loadPreset H 0
    (initParams (mkGravity (replicate 10 zeroBody) (replicate 10 zeroBody) bh
                   0 0 0 0 0 0 0 3 false 0)) n) as [_ E1 E2 _ _ _ _].
  rewrite E1, E2. reflexivity.
Qed.

Lemma vbounds_ok_step (H : Host) (op : Op) (s : Gravity) :
  vbounds_ok s -> numeric_op op -> post (step H op s) vbounds_ok.
Proof.
  intros Hok Hnum n.
  assert (Hother : match op with OSet (SetVmin _) | OSet (SetVmax _) => False | _ => True end ->
                   vbounds_ok (fst (step H op s n))).
  { intros Hop. destruct (vbounds_step H op s Hop n) as [E1 E2].
    unfold vbounds_ok. rewrite E1, E2. exact Hok. }
  destruct op as [c| | | | |]; try (apply Hother; exact I).
  destruct c; try (apply Hother; exact I); cbn [step apply_setter]; unfold ret; cbn [fst].
  - apply vbounds_setVmin; assumption.
  - apply vbounds_setVmax; assumption.
Qed.







(** ** [reset] *)

(** [reset] writes the live array only. *)
Lemma reset_body_same (s : Gravity) (i : nat) :
  set_bodies (bodies s) (reset_body s i) = s.
Proof. destruct s; reflexivity. Qed.

Lemma reset_body_initBodies (s : Gravity) (i : nat) : initBodies (reset_body s i) = initBodies s.
Proof. reflexivity. Qed.

Lemma reset_prefix_initBodies (i : nat) (s : Gravity) :
  initBodies (reset_prefix i s) = initBodies s.
Proof.
  unfold reset_prefix. apply (fold_left_inv (fun a => initBodies a = initBodies s)); [|reflexivity].
  intros j a _ Ha. rewrite <- Ha. reflexivity.
Qed.

Lemma reset_body_ne (s : Gravity) (i j : nat) :
  i <> j -> bodies (reset_body s i) !!! j = bodies s !!! j.
Proof.
  intros Hij. unfold reset_body, initBody.
  rewrite !bodies_modify_body_ne by exact Hij. reflexivity.
Qed.

Lemma reset_body_mass (s : Gravity) (i j : nat) :
  b_mass (bodies (reset_body s i) !!! j) = b_mass (bodies s !!! j).
Proof.
  unfold reset_body, initBody.
  rewrite (bodies_modify_body_proj b_mass) by reflexivity.
  rewrite (bodies_modify_body_proj b_mass) by reflexivity. reflexivity.
Qed.

Lemma fold_reset_body_ne (l : list nat) (s : Gravity) (j : nat) :
  j ∉ l -> bodies (fold_left reset_body l s) !!! j = bodies s !!! j.
Proof.
  revert s. induction l as [|i l IH]; intros s Hj; simpl; [reflexivity|].
  rewrite IH by (intros Hin; apply Hj; right; exact Hin).
  apply reset_body_ne. intros ->. apply Hj. left.
Qed.

Lemma reset_mass (s : Gravity) (j : nat) :
  b_mass (bodies (reset s) !!! j) = b_mass (bodies s !!! j).
Proof.
  unfold reset.
  apply (fold_left_inv (fun a => b_mass (bodies a !!! j) = b_mass (bodies s !!! j))); [|reflexivity].
  intros i a _ Ha. rewrite <- Ha. apply reset_body_mass.
Qed.

Lemma reset_prefix_mass (i j : nat) (s : Gravity) :
  b_mass (bodies (reset_prefix i s) !!! j) = b_mass (bodies s !!! j).
Proof.
  unfold reset_prefix.
  apply (fold_left_inv (fun a => b_mass (bodies a !!! j) = b_mass (bodies s !!! j))); [|reflexivity].
  intros k a _ Ha. rewrite <- Ha. apply reset_body_mass.
Qed.

(** The value [reset] leaves in slot [i] is the one its [i]-th iteration wrote. *)
Lemma reset_slot (s : Gravity) (i : nat) :
  (i < 10)%nat -> bodies (reset s) !!! i = bodies (reset_body (reset_prefix i s) i) !!! i.
Proof.
  intros Hi. unfold reset, reset_prefix, upto.
  replace (Z.to_nat 10) with (i + S (10 - S i))%nat by lia.
  rewrite seq_app, fold_left_app. simpl.
  apply fold_reset_body_ne. rewrite elem_of_seq. lia.
Qed.

Lemma reset_body_slot (s : Gravity) (i : nat) :
  (i < length (bodies s))%nat ->
  bodies (reset_body s i) !!! i =
  damped_acceleration (modify_body i (restore_from (initBodies s !!! i)) s) i
    (restore_from (initBodies s !!! i) (bodies s !!! i)).
Proof.
  intros Hi. unfold reset_body, initBody.
  rewrite bodies_modify_body_eq by (simpl; rewrite length_insert; exact Hi).
  rewrite bodies_modify_body_eq by exact Hi. reflexivity.
Qed.

(** What [reset] leaves in slot [i]: position, velocity and a zero
    acceleration copied from [initBodies], the live mass, and then the
    acceleration of [initBody] on the engine as the loop finds it. *)
Lemma reset_from_initBodies (s : Gravity) (i : nat) :
  wf s -> (i < 10)%nat ->
  bodies (reset s) !!! i =
  damped_acceleration (modify_body i (restore_from (initBodies s !!! i)) (reset_prefix i s)) i
    (restore_from (initBodies s !!! i) (bodies s !!! i)).
Proof.
  intros [Hl _] Hi. rewrite reset_slot by exact Hi.
  rewrite reset_body_slot
    by (rewrite (kp_len_bodies _ _ (keeps_reset_prefix i s)), Hl; exact Hi).
  rewrite reset_prefix_initBodies. f_equal. f_equal.
  unfold reset_prefix. apply fold_reset_body_ne. rewrite elem_of_seq. lia.
Qed.

(** ** Who writes [initBodies] *)

Lemma initBodies_apply_setter (c : Setter) (s : Gravity) :
  initBodies (apply_setter c s) = initBodies s.
Proof.
  destruct c; simpl;
    unfold setG, setDt, setPosDamping, setVelDamping, setSoftening, setVmin, setVmax,
      setBodyCount, setBodyMass, setBlackHole;
    repeat case_match; reflexivity.
Qed.

Lemma initBodies_reset (s : Gravity) : initBodies (reset s) = initBodies s.
Proof. apply (reset_prefix_initBodies 10). Qed.

Lemma initBodies_setBody_ne (index : Z) (x y vx vy m : float) (s : Gravity) (i : nat) :
  configures i (OSetBody index x y vx vy m) = false ->
  initBodies (setBody index x y vx vy m s) !!! i = initBodies s !!! i.
Proof.
  unfold configures, setBody. destruct ((index <? 0)%Z || (index >? BodyCount - 1)%Z); simpl.
  - reflexivity.
  - intros Hne%Nat.eqb_neq. apply list_lookup_total_insert_ne, Hne.
Qed.

Lemma initBodies_step (H : Host) (op : Op) (s : Gravity) (i : nat) :
  configures i op = false ->
  post (step H op s) (fun s' => initBodies s' !!! i = initBodies s !!! i).
Proof.
  intros Hc n. destruct op; cbn [step]; unfold ret; cbn [fst].
  - rewrite initBodies_apply_setter. reflexivity.
  - apply initBodies_setBody_ne, Hc.
  - discriminate.
  - rewrite initBodies_reset. reflexivity.
  - reflexivity.
  - rewrite (fr_initBodies _ _ (frame_simulate H s n)). reflexivity.
Qed.

Lemma initBodies_run (H : Host) (ops : list Op) (s : Gravity) (i : nat) :
  Forall (fun op => configures i op = false) ops ->
  post (run H ops s) (fun s' => initBodies s' !!! i = initBodies s !!! i).
Proof.
  intros Hops.
  apply (post_run H (fun s' => initBodies s' !!! i = initBodies s !!! i)); [|reflexivity].
  intros op a Hin Ha n. rewrite <- Ha. apply initBodies_step.
  rewrite Forall_forall in Hops. apply Hops, Hin.
Qed.

Lemma setBody_initBodies (index : Z) (x y vx vy m : float) (s : Gravity) :
  wf s -> (0 <= index <= 9)%Z ->
  initBodies (setBody index x y vx vy m s) !!! Z.to_nat index = mkBody x y vx vy 0 0 m.
Proof.
  intros [_ Hl] Hi. unfold setBody.
  replace ((index <? 0)%Z || (index >? BodyCount - 1)%Z) with false
    by (unfold BodyCount; symmetry; apply orb_false_intro; lia).
  simpl. apply list_lookup_total_insert_eq. lia.
Qed.

(** The acceleration [setBody] stores. *)
Lemma setBody_bodies (index : Z) (x y vx vy m : float) (s : Gravity) :
  wf s -> (0 <= index <= 9)%Z ->
  let i := Z.to_nat index in
  let s1 := modify_body i (fun b => mkBody x y vx vy (b_ax b) (b_ay b) m) s in
  let s2 := set_initBodies (<[i := mkBody x y vx vy 0 0 m]> (initBodies s1)) s1 in
  bodies (setBody index x y vx vy m s) !!! i =
  damped_acceleration s2 i (mkBody x y vx vy (b_ax (bodies s !!! i)) (b_ay (bodies s !!! i)) m).
Proof.
  intros [Hl _] Hi. unfold setBody.
  replace ((index <? 0)%Z || (index >? BodyCount - 1)%Z) with false
    by (unfold BodyCount; symmetry; apply orb_false_intro; lia).
  cbv zeta. unfold initBody.
  rewrite bodies_modify_body_eq by (simpl; rewrite length_insert; lia).
  simpl. rewrite list_lookup_total_insert_eq by lia. reflexivity.
Qed.

(** C1 (amended): [reset] gives slot [index] the position and velocity that
    the last [setBody] on that slot wrote, whatever calls other than
    [loadPreset] and [setBody] on the same slot came in between; the mass is
    the live one; the acceleration is the one [initBody] computes on the
    engine as it is when the loop of [reset] reaches the slot (current
    parameters and masses, lower slots restored, higher slots not yet). *)
Theorem reset_restores_configuration (H : Host) (s : Gravity) (index : Z)
    (x y vx vy m : float) (ops : list Op) (n : nat) :
  wf s -> (0 <= index <= 9)%Z ->
  Forall (fun op => configures (Z.to_nat index) op = false) ops ->
  let i := Z.to_nat index in
  let s2 := fst (run H ops (setBody index x y vx vy m s) n) in
  let at_reset := modify_body i (restore_from (initBodies s2 !!! i)) (reset_prefix i s2) in
  let b := bodies (reset s2) !!! i in
  b_x b = x /\ b_y b = y /\ b_vx b = vx /\ b_vy b = vy
  /\ b_mass b = b_mass (bodies s2 !!! i)
  /\ b = damped_acceleration at_reset i (mkBody x y vx vy 0 0 (b_mass (bodies s2 !!! i)))
  /\ initBodies (reset s2) = initBodies s2.
Proof.
  intros Hwf Hi Hops i s2 at_reset b.
  assert (Hwf1 : wf (setBody index x y vx vy m s))
    by (eapply wf_keeps; [apply keeps_setBody | exact Hwf]).
  assert (Hwf2 : wf s2) by (apply wf_run, Hwf1).
  assert (Hinit : initBodies s2 !!! i = mkBody x y vx vy 0 0 m).
  { unfold s2. rewrite (initBodies_run H ops _ i Hops n).
    apply setBody_initBodies; assumption. }
  assert (Hb : b = damped_acceleration at_reset i
                     (mkBody x y vx vy 0 0 (b_mass (bodies s2 !!! i)))).
  { unfold b. rewrite (reset_from_initBodies s2 i Hwf2) by lia.
    fold at_reset. rewrite Hinit. reflexivity. }
  rewrite Hb. split; [reflexivity|]. split; [reflexivity|]. split; [reflexivity|].
  split; [reflexivity|]. split; [reflexivity|]. split; [reflexivity|].
  apply initBodies_reset.
Qed.

Lemma reset_restores_configuration_witness :
  let s2 := fst (run example_host [OSet (SetG 2); OSetBody 2 3 3 0 0 1]
                   (setBody 1 1 0 0 0.5 1 example_engine) 0%nat) in
  b_x (bodies (reset s2) !!! 1%nat) = 1 /\ b_vy (bodies (reset s2) !!! 1%nat) = 0.5.
Proof.
  pose proof (reset_restores_configuration example_host example_engine 1 1 0 0 0.5 1
                [OSet (SetG 2); OSetBody 2 3 3 0 0 1] 0%nat) as Hthm.
  destruct Hthm as (Hx & _ & _ & Hvy & _).
  - split; vm_compute; reflexivity.
  - lia.
  - repeat constructor.
  - split; [exact Hx | exact Hvy].
Defined.

(** C1 as stated fails: after [setBody (1, ...)] and [setG (2)], [reset]
    recomputes the acceleration of body 1 with the new constant; it is not
    the acceleration [setBody] computed. *)
Lemma reset_acceleration_differs :
  let s1 := setBody 1 1 0 0 0.5 1 example_engine in
  let s2 := setG 2 s1 in
  b_x (bodies (reset s2) !!! 1%nat) = b_x (bodies s1 !!! 1%nat)
  /\ b_ax (bodies (reset s2) !!! 1%nat) <> b_ax (bodies s1 !!! 1%nat).
Proof.
  split; [vm_compute; reflexivity|].
  float_neq (fun a => a <? -1).
Qed.

(** ** [setBodyMass] *)

(** C10 (amended): an accepted [setBodyMass] writes the mass of the live
    body in that slot and nothing else; [reset] never writes a mass, so the
    new mass is still there after [reset]. *)
Theorem setBodyMass_only_mass (s : Gravity) (index : Z) (mass : float) :
  wf s -> (0 <= index <= 9)%Z -> (0.1 <=? mass) && (mass <=? 30) = true ->
  let i := Z.to_nat index in
  let s' := setBodyMass index mass s in
  bodies s' !!! i = set_mass mass (bodies s !!! i)
  /\ (forall j : nat, j <> i -> bodies s' !!! j = bodies s !!! j)
  /\ initBodies s' = initBodies s
  /\ set_bodies (bodies s) s' = s
  /\ b_mass (bodies (reset s') !!! i) = mass.
Proof.
  intros [Hl _] Hi [Hlo Hhi]%andb_true_iff i s'.
  assert (Hs' : s' = modify_body i (set_mass mass) s).
  { unfold s', setBodyMass.
    replace ((index <? 0)%Z || (index >? BodyCount - 1)%Z) with false
      by (unfold BodyCount; symmetry; apply orb_false_intro; lia).
    rewrite (leb_true_ltb_false _ _ Hlo), (leb_true_ltb_false _ _ Hhi). reflexivity. }
  rewrite Hs'. split; [|split; [|split; [|split]]].
  - apply bodies_modify_body_eq. lia.
  - intros j Hj. apply bodies_modify_body_ne. congruence.
  - reflexivity.
  - destruct s; reflexivity.
  - rewrite reset_mass, bodies_modify_body_eq by lia. reflexivity.
Qed.

Lemma setBodyMass_only_mass_witness :
  b_mass (bodies (reset (setBodyMass 0 2 example_engine)) !!! 0%nat) = 2.
Proof.
  apply (setBodyMass_only_mass example_engine 0 2).
  - split; vm_compute; reflexivity.
  - lia.
  - reflexivity.
Defined.

(** C10 as stated fails: [setBody] writes mass 1, [setBodyMass] changes it to
    2, and after [reset] the live mass is 2, not the configured 1. *)
Lemma reset_keeps_setBodyMass :
  let s := setBodyMass 0 2 (setBody 0 50 0 0 0.4 1 example_engine) in
  b_mass (getInitBody 0 s) = 1
  /\ b_mass (getBody 0 (reset s)) <> b_mass (getInitBody 0 s).
Proof.
  split; [vm_compute; reflexivity|].
  float_neq (fun a => a <? 1.5).
Qed.

(** ** The guard of [computeAcceleration] *)







(** ** The nudge counter counts bodies *)

Lemma nudge_early_disarm (H : Host) (s : Gravity) (n : nat) :
  body_count s = 10%Z -> nudge_step s = 0%Z ->
  nudge_state (fst (run H [ONudge; OSimulate; OSimulate] s n)) = (true, 20%Z)
  /\ nudge_state (fst (run H [ONudge; OSimulate; OSimulate; OSimulate] s n)) = (false, 1%Z).
Proof.
  intros Hc Hn. cbn [run step]. unfold bind, ret. cbn [fst snd].
  set (s0 := nudge s).
  assert (C0 : body_count s0 = 10%Z) by exact Hc.
  assert (N0 : nudge_state s0 = (true, 0%Z)) by (unfold nudge_state; simpl; rewrite Hn; reflexivity).
  destruct (simulate_nudge_count H s0 n) as [C1 N1].
  set (r1 := simulate H s0 n) in *. rewrite C0, N0 in N1. rewrite C0 in C1.
  destruct (simulate_nudge_count H (fst r1) (snd r1)) as [C2 N2].
  set (r2 := simulate H (fst r1) (snd r1)) in *. rewrite C1, N1 in N2. rewrite C1 in C2.
  destruct (simulate_nudge_count H (fst r2) (snd r2)) as [C3 N3].
  set (r3 := simulate H (fst r2) (snd r2)) in *. rewrite C2, N2 in N3.
  split; [exact N2 | exact N3].
Qed.

(** C4: on the freshly constructed engine (ten live bodies), two steps after
    [nudge ()] the counter is at 20 with the mode still armed, and the third
    step disarms it at its first body: the counter advances once per body
    and not once per step. *)
Theorem nudge_counts_bodies (H : Host) (bh : Body) (n0 n : nat) :
  let s0 := fst (Gravity_new H bh n0) in
  nudge_state (fst (run H [ONudge; OSimulate; OSimulate] s0 n)) = (true, 20%Z)
  /\ nudge_state (fst (run H [ONudge; OSimulate; OSimulate; OSimulate] s0 n)) = (false, 1%Z).
Proof.
  intros s0. apply nudge_early_disarm.
  - apply body_count_new.
  - exact (f_equal snd (nudge_state_new H bh n0)).
Qed.

(** ** Presets *)

Lemma resetBodies_zeroed (s : Gravity) : wf s -> resetBodies s = zeroed s.
Proof.
  destruct s as [ib b bh g d pd vd so vmi vma bc nm ns]. intros [Hb Hi]. simpl in Hb, Hi.
  do 10 (destruct b as [|? b]; [discriminate Hb|]).
  destruct b; [|discriminate Hb].
  do 10 (destruct ib as [|? ib]; [discriminate Hi|]).
  destruct ib; [|discriminate Hi].
  reflexivity.
Qed.

Lemma loadPreset_index (i : Z) :
  ((if i <? 1 then 1 else if i >? 14 then 14 else i) = clamp_index i)%Z.
Proof.
  unfold clamp_index. destruct (i <? 1)%Z eqn:E1; [lia|].
  destruct (i >? 14)%Z eqn:E2; lia.
Qed.

Lemma clamp_index_range (i : Z) : (1 <= clamp_index i <= 14)%Z.
Proof. unfold clamp_index. lia. Qed.

Lemma clamp_index_idem (i : Z) : clamp_index (clamp_index i) = clamp_index i.
Proof. unfold clamp_index. lia. Qed.

(** C7: [loadPreset] acts on the index clamped into [[1, 14]], and applies
    the selected configuration to the engine with both arrays zeroed. *)
Theorem loadPreset_clamps_and_zeroes (H : Host) (i : Z) (s : Gravity) (n : nat) :
  wf s ->
  loadPreset H i s n = loadPreset H (clamp_index i) s n
  /\ (1 <= clamp_index i <= 14)%Z
  /\ loadPreset H i s n = apply_preset H (clamp_index i - 1) (zeroed s) n.
Proof.
  intros Hwf. unfold loadPreset. cbv zeta.
  rewrite !loadPreset_index, clamp_index_idem, (resetBodies_zeroed s Hwf).
  split; [reflexivity|]. split; [apply clamp_index_range | reflexivity].
Qed.

Lemma loadPreset_clamps_and_zeroes_witness :
  loadPreset example_host 99 example_engine 0%nat
  = loadPreset example_host (clamp_index 99) example_engine 0%nat.
Proof.
  assert (Hwf : wf example_engine) by (split; vm_compute; reflexivity).
  pose proof (loadPreset_clamps_and_zeroes example_host 99 example_engine 0%nat Hwf)
    as [E _].
  exact E.
Defined.

(** The outcome does not depend on what the arrays held before. *)
Lemma loadPreset_forgets_bodies (H : Host) (i : Z) (s : Gravity) (bs ibs : list Body) (n : nat) :
  wf s -> length bs = 10%nat -> length ibs = 10%nat ->
  loadPreset H i (set_initBodies ibs (set_bodies bs s)) n = loadPreset H i s n.
Proof.
  intros Hwf Hb Hi. unfold loadPreset. cbv zeta.
  rewrite !resetBodies_zeroed by (assumption || (split; assumption)).
  reflexivity.
Qed.

(** C8: after [loadPreset (8)] the body count is 3, G is 1.0, dt is 0.005
    and the initial record of body 0 has position (0, 0) and velocity
    (0.347111, 0.532728). *)
Theorem figure_eight_preset (H : Host) (s : Gravity) (n : nat) :
  wf s ->
  let s' := fst (loadPreset H 8 s n) in
  getBodyCount s' = 3%Z /\ getG s' = 1.0 /\ getDt s' = 0.005
  /\ b_x (getInitBody 0 s') = 0 /\ b_y (getInitBody 0 s') = 0
  /\ b_vx (getInitBody 0 s') = 0.347111 /\ b_vy (getInitBody 0 s') = 0.532728.
Proof.
  intros Hwf s'. unfold s', loadPreset. cbv zeta.
  rewrite (resetBodies_zeroed s Hwf).
  repeat split; reflexivity.
Qed.

Lemma figure_eight_preset_witness :
  getBodyCount (fst (loadPreset example_host 8 example_engine 0%nat)) = 3%Z.
Proof.
  assert (Hwf : wf example_engine) by (split; vm_compute; reflexivity).
  pose proof (figure_eight_preset example_host example_engine 0%nat Hwf) as [E _].
  exact E.
Defined.

(* ====================================================================== *)
(** * Further properties *)

(** ** What [computeAcceleration] reads *)

Lemma accel_pair_ext (s s' : Gravity) (t : nat) (acc : Vector) (i : nat) :
  same_field t s s' -> accel_pair s' t acc i = accel_pair s t acc i.
Proof.
  intros [HG Hso Hc Hbx Hby Hbm Hx Hy Hm]. unfold accel_pair.
  destruct (Nat.eqb_spec i t) as [|Hit]; [reflexivity|].
  rewrite Hc, Hbm, HG, Hso, !Hx, !Hy.
  destruct (Z.of_nat i <? body_count s)%Z.
  - rewrite Hx, Hy, (Hm i Hit). reflexivity.
  - rewrite Hbx, Hby, Hbm. reflexivity.
Qed.

Lemma computeAcceleration_ext (s s' : Gravity) (t : nat) :
  same_field t s s' -> computeAcceleration s' t = computeAcceleration s t.
Proof.
  intros Hsf. unfold computeAcceleration. rewrite (sf_body_count _ _ _ Hsf).
  generalize (mkVector 0 0). induction (upto (body_count s + 1)) as [|i l IH]; intros acc; simpl.
  - reflexivity.
  - rewrite (accel_pair_ext s s' t acc i Hsf). apply IH.
Qed.

Lemma same_field_modify_body (t i : nat) (f : Body -> Body) (s : Gravity) :
  (forall b, b_x (f b) = b_x b) -> (forall b, b_y (f b) = b_y b) ->
  (i = t \/ forall b, b_mass (f b) = b_mass b) ->
  same_field t s (modify_body i f s).
Proof.
  intros Hx Hy Hm. constructor; try reflexivity.
  - intros j. apply (bodies_modify_body_proj b_x), Hx.
  - intros j. apply (bodies_modify_body_proj b_y), Hy.
  - intros j Hj. destruct Hm as [->|Hm].
    + rewrite bodies_modify_body_ne by congruence. reflexivity.
    + apply (bodies_modify_body_proj b_mass), Hm.
Qed.

Lemma fold_left_ext_in {A} (f g : A -> nat -> A) (l : list nat) (a : A) :
  (forall b i, i ∈ l -> f b i = g b i) -> fold_left f l a = fold_left g l a.
Proof.
  revert a. induction l as [|i l IH]; intros a Hfg; simpl; [reflexivity|].
  rewrite Hfg by left. apply IH. intros b j Hj. apply Hfg. right. exact Hj.
Qed.

(** X1: the acceleration [computeAcceleration] returns for a target depends
    on no velocity and no stored acceleration of any body, not on the
    target's own mass, and not on the time step, the damping factors, the
    speed bounds or the initial records. *)
Theorem computeAcceleration_ignores (s : Gravity) (t j : nat) (a b : float) (l : list Body) :
  computeAcceleration (modify_body j (set_vel a b) s) t = computeAcceleration s t
  /\ computeAcceleration (modify_body j (set_acc a b) s) t = computeAcceleration s t
  /\ computeAcceleration (modify_body t (set_mass a) s) t = computeAcceleration s t
  /\ computeAcceleration (set_dt a s) t = computeAcceleration s t
  /\ computeAcceleration (set_pos_damping a s) t = computeAcceleration s t
  /\ computeAcceleration (set_vel_damping a s) t = computeAcceleration s t
  /\ computeAcceleration (set_vmin a s) t = computeAcceleration s t
  /\ computeAcceleration (set_vmax a s) t = computeAcceleration s t
  /\ computeAcceleration (set_initBodies l s) t = computeAcceleration s t.
Proof.
  split; [|split; [|split]].
  - apply computeAcceleration_ext, same_field_modify_body; auto.
  - apply computeAcceleration_ext, same_field_modify_body; auto.
  - apply computeAcceleration_ext, same_field_modify_body; auto.
  - repeat split; apply computeAcceleration_ext; constructor; reflexivity.
Qed.

(** X2: a black hole of mass zero is left out of every force sum, wherever it
    is; and the body in slot [body_count], the first slot that is not live,
    never feels the black hole, since index [body_count] stands for the black
    hole in the loop and is skipped as the target itself. *)
Theorem blackHole_left_out (s : Gravity) (t : nat) (bh bh' : Body) :
  ((b_mass bh =? 0) = true -> (b_mass bh' =? 0) = true ->
   computeAcceleration (set_blackHole bh s) t = computeAcceleration (set_blackHole bh' s) t)
  /\ (Z.of_nat t = body_count s ->
      computeAcceleration (set_blackHole bh s) t = computeAcceleration (set_blackHole bh' s) t).
Proof.
  split.
  - intros Hz Hz'. unfold computeAcceleration. apply fold_left_ext_in.
    intros acc i Hi%elem_of_upto. unfold accel_pair. cbn [set_blackHole body_count blackHole
      bodies G softening] in *.
    destruct (i =? t)%nat; [reflexivity|].
    destruct (Z.ltb_spec (Z.of_nat i) (body_count s)) as [Hlt|Hge].
    + replace (Z.of_nat i =? body_count s)%Z with false by (symmetry; apply Z.eqb_neq; lia).
      reflexivity.
    + replace (Z.of_nat i =? body_count s)%Z with true by (symmetry; apply Z.eqb_eq; lia).
      rewrite Hz, Hz'. reflexivity.
  - intros Ht. unfold computeAcceleration. apply fold_left_ext_in.
    intros acc i Hi%elem_of_upto. unfold accel_pair. cbn [set_blackHole body_count blackHole
      bodies G softening] in *.
    destruct (Nat.eqb_spec i t) as [|Hit]; [reflexivity|].
    assert (Hlt : (Z.of_nat i < body_count s)%Z) by lia.
    replace (Z.of_nat i <? body_count s)%Z with true by (symmetry; apply Z.ltb_lt; lia).
    replace (Z.of_nat i =? body_count s)%Z with false by (symmetry; apply Z.eqb_neq; lia).
    reflexivity.
Qed.

(** ** Indexed access *)

Lemma valid_index (index : Z) :
  (0 <= index <= 9)%Z -> ((index <? 0) || (index >? BodyCount - 1))%Z = false.
Proof. intros Hi. unfold BodyCount. apply orb_false_intro; lia. Qed.

Lemma invalid_index (index : Z) :
  (index < 0 \/ 9 < index)%Z -> ((index <? 0) || (index >? BodyCount - 1))%Z = true.
Proof. intros Hi. unfold BodyCount. apply orb_true_iff. lia. Qed.

Lemma set_arrays_same (s : Gravity) : set_initBodies (initBodies s) (set_bodies (bodies s) s) = s.
Proof. destruct s; reflexivity. Qed.

(** X3: with an index outside [[0, 9]], [getBody] and [getInitBody] return
    the record of slot 0, and [setBody] and [setBodyMass] change nothing. *)
Theorem index_out_of_range (index : Z) (x y vx vy m : float) (s : Gravity) :
  (index < 0 \/ 9 < index)%Z ->
  getBody index s = getBody 0 s
  /\ getInitBody index s = getInitBody 0 s
  /\ setBody index x y vx vy m s = s
  /\ setBodyMass index m s = s.
Proof.
  intros Hi. unfold getBody, getInitBody, setBody, setBodyMass.
  rewrite (invalid_index index Hi). repeat split; reflexivity.
Qed.

Lemma index_out_of_range_witness :
  getBody 10 example_engine = getBody 0 example_engine
  /\ setBody (-1) 1 2 3 4 5 example_engine = example_engine.
Proof.
  pose proof (index_out_of_range 10 0 0 0 0 0 example_engine) as [E _]; [lia|].
  pose proof (index_out_of_range (-1) 1 2 3 4 5 example_engine) as (_ & _ & E' & _); [lia|].
  split; [exact E | exact E'].
Defined.

(** X4: a [setBody] with a valid index is read back by [getBody] and
    [getInitBody]: both records hold the given position, velocity and mass;
    the initial record has acceleration zero and the live record the
    acceleration of [initBody], gravity on the resulting engine minus the
    pull of the position damping.  The records of the other slots, and every
    member outside the two arrays, are as before; [getBodies] shows the same
    ten live records. *)
Theorem setBody_read_back (index : Z) (x y vx vy m : float) (s : Gravity) :
  wf s -> (0 <= index <= 9)%Z ->
  let s' := setBody index x y vx vy m s in
  let a := computeAcceleration s' (Z.to_nat index) in
  let pdamp := calcPositionDamping x y (pos_damping s') in
  getInitBody index s' = mkBody x y vx vy 0 0 m
  /\ getBody index s' = mkBody x y vx vy (v_x a - x * pdamp) (v_y a - y * pdamp) m
  /\ (forall j : Z, (0 <= j <= 9)%Z -> j <> index ->
      getBody j s' = getBody j s /\ getInitBody j s' = getInitBody j s)
  /\ set_initBodies (initBodies s) (set_bodies (bodies s) s') = s
  /\ getBodies s' = bodies s'.
Proof.
  intros Hwf Hi s' a pdamp.
  assert (Hs' : s' = initBody (Z.to_nat index)
            (set_initBodies (<[Z.to_nat index := mkBody x y vx vy 0 0 m]> (initBodies s))
               (modify_body (Z.to_nat index)
                  (fun b => mkBody x y vx vy (b_ax b) (b_ay b) m) s))).
  { unfold s', setBody. rewrite (valid_index index Hi). reflexivity. }
  destruct Hwf as [Hl Hli].
  split; [|split; [|split; [|split]]].
  - unfold getInitBody. rewrite (valid_index index Hi).
    apply setBody_initBodies; [split; assumption | exact Hi].
  - unfold getBody. rewrite (valid_index index Hi).
    unfold s'. rewrite setBody_bodies by ((split; assumption) || exact Hi).
    cbv zeta. unfold damped_acceleration. cbn [b_x b_y b_vx b_vy b_mass set_acc].
    match goal with |- context [computeAcceleration ?s2 _] =>
      assert (Ha : a = computeAcceleration s2 (Z.to_nat index)) end.
    { unfold a. rewrite Hs'. unfold initBody.
      apply computeAcceleration_ext, same_field_modify_body; auto. }
    rewrite <- Ha. unfold pdamp.
    replace (pos_damping s') with (pos_damping s) by (rewrite Hs'; reflexivity).
    reflexivity.
  - intros j Hj Hne. unfold getBody, getInitBody. rewrite (valid_index j Hj).
    assert (Hk : Z.to_nat j <> Z.to_nat index) by lia.
    rewrite Hs'. unfold initBody.
    rewrite bodies_modify_body_ne by congruence. cbn [bodies set_initBodies initBodies].
    rewrite bodies_modify_body_ne by congruence.
    split; [reflexivity|]. cbn [modify_body set_bodies initBodies].
    apply list_lookup_total_insert_ne. congruence.
  - rewrite Hs'. destruct s; reflexivity.
  - unfold getBodies. apply firstn_all2. rewrite Hs'. cbn. rewrite !length_insert. unfold BodyCount. lia.
Qed.

Lemma setBody_read_back_witness :
  getInitBody 3 (setBody 3 1 2 0.5 0.25 4 example_engine) = mkBody 1 2 0.5 0.25 0 0 4.
Proof.
  assert (Hwf : wf example_engine) by (split; vm_compute; reflexivity).
  pose proof (setBody_read_back 3 1 2 0.5 0.25 4 example_engine Hwf) as [E _]; [lia|].
  exact E.
Defined.

(** ** The constructor and the engines reached from it *)

(** X5: the constructor leaves the engine with the parameters and the ten
    live bodies of the ring preset: G is 0.1 and the position damping
    0.02 / 10000, not the 1.0 and 0.003 of [initParams], and the body count
    is 10, not the 3 assigned first.  The speed bounds are the 1 and 5 of
    [initParams], the nudge is off with its counter at 0, no random number
    is drawn, and the black hole is never assigned: it is whatever the
    allocation held. *)
Theorem constructor_state (H : Host) (bh : Body) (n : nat) :
  let s := fst (Gravity_new H bh n) in
  getG s = 0.1 /\ getDt s = 0.01 /\ getPosDamping s = 0.02 / 10000
  /\ getVelDamping s = 0.005 /\ getSoftening s = 0
  /\ getVmin s = 1 /\ getVmax s = 5 /\ getBodyCount s = 10%Z
  /\ nudge_mode s = false /\ nudge_step s = 0%Z
  /\ getBlackHole s = bh
  /\ snd (Gravity_new H bh n) = n.
Proof.
  intros s.
  pose proof (keeps_loadPreset H 0
    (initParams (mkGravity (replicate 10 zeroBody) (replicate 10 zeroBody) bh
                   0 0 0 0 0 0 0 3 false 0)) n) as [Ebh E1 E2 En _ _ _].
  fold (Gravity_new H bh n) in Ebh, E1, E2, En. fold s in Ebh, E1, E2, En.
  pose proof (f_equal fst En) as Em. pose proof (f_equal snd En) as Es.
  unfold nudge_state in Em, Es. cbn [fst snd] in Em, Es.
  unfold getVmin, getVmax, getBlackHole.
  repeat split; try assumption; reflexivity.
Qed.

(** X6: in every engine that the constructor and any sequence of calls
    produce, both arrays have ten records, between 2 and 10 bodies are live
    and the nudge counter is between 0 and 20; [getBodies] returns the ten
    live records. *)
Theorem reachable_engine_ok (H : Host) (bh : Body) (ops : list Op) (n : nat) :
  let s := fst ((let* s0 := Gravity_new H bh in run H ops s0) n) in
  length (bodies s) = 10%nat /\ length (initBodies s) = 10%nat
  /\ (2 <= body_count s <= 10)%Z /\ (0 <= nudge_step s <= 20)%Z
  /\ getBodies s = bodies s.
Proof.
  intros s.
  assert (Hpost : post (let* s0 := Gravity_new H bh in run H ops s0) engine_ok).
  { eapply post_bind; [apply engine_ok_new|].
    intros s0 Hs0. apply post_run; [|exact Hs0].
    intros op a _ Ha. apply engine_ok_step, Ha. }
  destruct (Hpost n) as ([Hb Hi] & Hc & Hn). fold s in Hb, Hi, Hc, Hn.
  split; [exact Hb|]. split; [exact Hi|]. split; [exact Hc|]. split; [exact Hn|].
  unfold getBodies. apply take_ge. rewrite Hb. unfold BodyCount. lia.
Qed.

(** X7: in every engine that the constructor and any sequence of calls whose
    setter arguments are not NaN produce, [vmin <= vmax]. *)
Theorem reachable_bounds_ordered (H : Host) (bh : Body) (ops : list Op) (n : nat) :
  Forall numeric_op ops ->
  let s := fst ((let* s0 := Gravity_new H bh in run H ops s0) n) in
  (getVmin s <=? getVmax s) = true.
Proof.
  intros Hops s.
  assert (Hpost : post (let* s0 := Gravity_new H bh in run H ops s0) vbounds_ok).
  { eapply post_bind; [apply vbounds_ok_new|].
    intros s0 Hs0. apply post_run; [|exact Hs0].
    intros op a Hin Ha. apply vbounds_ok_step; [exact Ha|].
    rewrite Forall_forall in Hops. apply Hops, Hin. }
  exact (Hpost n).
Qed.

Lemma reachable_bounds_ordered_witness :
  let ops := [OSet (SetVmax 2); OSet (SetVmin 40); OSimulate; OLoadPreset 3; OSet (SetVmax 1)] in
  let s := fst ((let* s0 := Gravity_new example_host zeroBody in run example_host ops s0) 0%nat) in
  (getVmin s <=? getVmax s) = true.
Proof.
  intros ops.
  apply (reachable_bounds_ordered example_host zeroBody ops 0%nat).
  repeat constructor.
Defined.

(** ** The adaptive time step *)

Lemma ltb_trans (x y z : float) : (x <? y) = true -> (y <? z) = true -> (x <? z) = true.
Proof.
  rewrite !ltb_spec. unfold SFltb.
  destruct (SFcompare (Prim2SF x) (Prim2SF y)) as [[]|] eqn:E1; try discriminate.
  destruct (SFcompare (Prim2SF y) (Prim2SF z)) as [[]|] eqn:E2; try discriminate.
  intros _ _. rewrite (SFcompare_trans_lt _ _ _ Lt E1); [reflexivity | discriminate | exact E2].
Qed.

Lemma ltb_irrefl (x : float) : (x <? x) = false.
Proof. destruct (x <? x) eqn:E; [|reflexivity]. rewrite <- E. apply ltb_asym, E. Qed.

(** [if (d < m) m = d]: what was not below [m] is not below the new [m]. *)
Lemma min_step_keeps (c d m : float) :
  (c <? m) = false -> (c <? (if d <? m then d else m)) = false.
Proof.
  intros Hc. destruct (d <? m) eqn:Hd; [|exact Hc].
  destruct (c <? d) eqn:Hcd; [|reflexivity].
  rewrite (ltb_trans _ _ _ Hcd Hd) in Hc. discriminate.
Qed.

Lemma min_step_self (d m : float) : (d <? (if d <? m then d else m)) = false.
Proof. destruct (d <? m) eqn:Hd; [apply ltb_irrefl | exact Hd]. Qed.

(** A loop [for (x : l) if (g (x) < m) m = g (x)]. *)
Lemma min_loop (g : nat -> float) (l : list nat) (m0 : float) :
  let m := fold_left (fun m x => if g x <? m then g x else m) l m0 in
  (forall c, (c <? m0) = false -> (c <? m) = false)
  /\ (forall x, x ∈ l -> (g x <? m) = false)
  /\ (m = m0 \/ exists x, x ∈ l /\ m = g x).
Proof.
  revert m0. induction l as [|x l IH]; intros m0; simpl.
  - split; [auto|]. split; [|left; reflexivity]. intros x Hx. inversion Hx.
  - destruct (IH (if g x <? m0 then g x else m0)) as (Hk & Hin & Hex).
    split; [|split].
    + intros c Hc. apply Hk, min_step_keeps, Hc.
    + intros y Hy. apply elem_of_cons in Hy as [->|Hy]; [|apply Hin, Hy].
      apply Hk, min_step_self.
    + destruct Hex as [->|(y & Hy & ->)].
      * destruct (g x <? m0); [right; exists x; split; [left | reflexivity] | left; reflexivity].
      * right. exists y. split; [right; exact Hy | reflexivity].
Qed.

Lemma min_pair_distance_spec (s : Gravity) (n : nat) (l : list nat) (m0 : float) :
  let m := fold_left (fun m i =>
      fold_left (fun m j => if pair_distance s i j <? m then pair_distance s i j else m)
        (seq (i + 1) (n - (i + 1))) m) l m0 in
  (forall c, (c <? m0) = false -> (c <? m) = false)
  /\ (forall i j : nat, i ∈ l -> (i < j < n)%nat -> (pair_distance s i j <? m) = false)
  /\ (m = m0 \/ exists i j : nat, i ∈ l /\ (i < j < n)%nat /\ m = pair_distance s i j).
Proof.
  revert m0. induction l as [|i l IH]; intros m0; simpl.
  - split; [auto|]. split; [|left; reflexivity]. intros i j Hi. inversion Hi.
  - pose proof (min_loop (pair_distance s i) (seq (i + 1) (n - (i + 1))) m0) as (Hk1 & Hin1 & Hex1).
    cbv zeta in Hk1, Hin1, Hex1.
    set (m1 := fold_left _ (seq (i + 1) (n - (i + 1))) m0) in *.
    destruct (IH m1) as (Hk & Hin & Hex). split; [|split].
    + intros c Hc. apply Hk, Hk1, Hc.
    + intros i' j Hi' Hj. apply elem_of_cons in Hi' as [->|Hi']; [|apply Hin; assumption].
      apply Hk, Hin1. rewrite elem_of_seq. lia.
    + destruct Hex as [->|(i' & j & Hi' & Hj & ->)].
      * destruct Hex1 as [->|(j & Hj & ->)]; [left; reflexivity|].
        right. exists i, j. rewrite elem_of_seq in Hj.
        split; [left|]. split; [lia | reflexivity].
      * right. exists i', j. split; [right; exact Hi'|]. split; [exact Hj | reflexivity].
Qed.

(** X8: the time step [computeAdaptiveDt] returns is [dt] times a factor
    computed from the smallest distance found, raised to the floor 0.001: it
    is never below 0.001, and it is at least 0.001 unless it is NaN, which is
    what it is when [dt] times the factor is NaN (the floor does not catch a
    NaN). *)
Theorem computeAdaptiveDt_floor (H : Host) (s : Gravity) :
  let scale := f32_0_8 + f32_0_8 * h_tanh H (min_pair_distance s * 0.8) in
  let h := computeAdaptiveDt H s in
  h = fmax (dt s * scale) 0.001
  /\ (h <? 0.001) = false
  /\ (is_nan h = false -> (0.001 <=? h) = true)
  /\ (is_nan (dt s * scale) = true -> is_nan h = true).
Proof.
  intros scale h.
  assert (Hh : h = fmax (dt s * scale) 0.001) by reflexivity.
  split; [exact Hh|]. rewrite Hh. unfold fmax.
  destruct (dt s * scale <? 0.001) eqn:E.
  - split; [reflexivity|]. split; [reflexivity|].
    intros Hn. destruct (ltb_true_not_nan _ _ E) as [Hn' _]. congruence.
  - split; [exact E|]. split; [|auto].
    intros Hn. rewrite (ltb_negb_leb _ 0.001) in E by (assumption || reflexivity).
    apply negb_false_iff, E.
Qed.

(** X9: the distance that scales the time step is the largest double when no
    pair of live bodies gave a smaller one, and otherwise the distance of a
    pair of live bodies; no pair of live bodies is closer. *)
Theorem min_pair_distance_least (s : Gravity) :
  let n := Z.to_nat (body_count s) in
  (forall i j : nat, (i < j < n)%nat -> (pair_distance s i j <? min_pair_distance s) = false)
  /\ (min_pair_distance s = DBL_MAX
      \/ exists i j : nat, (i < j < n)%nat /\ min_pair_distance s = pair_distance s i j).
Proof.
  intros n.
  destruct (min_pair_distance_spec s n (seq 0 n) DBL_MAX) as (_ & Hin & Hex).
  split.
  - intros i j Hij. apply Hin; [|exact Hij]. rewrite elem_of_seq. lia.
  - destruct Hex as [E|(i & j & _ & Hij & E)]; [left; exact E|].
    right. exists i, j. split; [exact Hij | exact E].
Qed.

(** ** The position update of [simulate] *)

Lemma fold_modify_body_notin (f : nat -> Body -> Body) (l : list nat) (s : Gravity) (j : nat) :
  j ∉ l -> bodies (fold_left (fun a i => modify_body i (f i) a) l s) !!! j = bodies s !!! j.
Proof.
  revert s. induction l as [|i l IH]; intros s Hj; simpl; [reflexivity|].
  rewrite IH by (intros Hin; apply Hj; right; exact Hin).
  apply bodies_modify_body_ne. intros ->. apply Hj. left.
Qed.

Lemma fold_modify_body_in (f : nat -> Body -> Body) (l : list nat) (s : Gravity) (j : nat) :
  NoDup l -> j ∈ l -> (j < length (bodies s))%nat ->
  bodies (fold_left (fun a i => modify_body i (f i) a) l s) !!! j = f j (bodies s !!! j).
Proof.
  revert s. induction l as [|i l IH]; intros s Hnd Hj Hlen; simpl; [inversion Hj|].
  apply NoDup_cons in Hnd as [Hi Hnd].
  apply elem_of_cons in Hj as [->|Hj].
  - rewrite fold_modify_body_notin by exact Hi. apply bodies_modify_body_eq, Hlen.
  - rewrite IH; [|exact Hnd|exact Hj|simpl; rewrite length_insert; exact Hlen].
    rewrite bodies_modify_body_ne; [reflexivity|]. intros ->. contradiction.
Qed.

(** The first loop moves every live body once, from its own old record. *)
Lemma drifted_slot (H : Host) (s : Gravity) (i : nat) :
  (Z.of_nat i < body_count s)%Z -> (i < length (bodies s))%nat ->
  let h := computeAdaptiveDt H s in
  let b := bodies s !!! i in
  bodies (drifted H s) !!! i =
  set_pos (b_x b + (b_vx b * h + 0.5 * b_ax b * h * h))
          (b_y b + (b_vy b * h + 0.5 * b_ay b * h * h)) b.
Proof.
  intros Hi Hlen h b. unfold drifted, drift_body. fold h.
  rewrite (fold_modify_body_in (fun _ b =>
    set_pos (b_x b + (b_vx b * h + 0.5 * b_ax b * h * h))
            (b_y b + (b_vy b * h + 0.5 * b_ay b * h * h)) b)).
  - reflexivity.
  - apply NoDup_seq.
  - unfold upto. rewrite elem_of_seq. lia.
  - exact Hlen.
Qed.

Lemma frame_drifted (H : Host) (s : Gravity) : frame s (drifted H s).
Proof.
  unfold drifted. apply (fold_left_inv (frame s)); [|apply frame_refl].
  intros i a Hi%elem_of_upto Ha. eapply frame_trans; [exact Ha|].
  apply frame_drift. rewrite (fr_body_count _ _ Ha). exact Hi.
Qed.

(** A field of [Body] that the assignments to velocity and acceleration
    leave alone is the same, in every slot, after the loops of [simulate]
    that follow the position update. *)
Section Field.
Context (H : Host) {A : Type} (p : Body -> A).
Context (p_vel : forall vx vy b, p (set_vel vx vy b) = p b).
Context (p_acc : forall ax ay b, p (set_acc ax ay b) = p b).

Lemma same_p_refl (s : Gravity) : same_p p s s.
Proof. intros j. reflexivity. Qed.

Lemma same_p_trans (s1 s2 s3 : Gravity) : same_p p s1 s2 -> same_p p s2 s3 -> same_p p s1 s3.
Proof. intros H12 H23 j. rewrite H23. apply H12. Qed.

Lemma same_p_modify_body (i : nat) (f : Body -> Body) (s : Gravity) :
  (forall b, p (f b) = p b) -> same_p p s (modify_body i f s).
Proof. intros Hf j. apply bodies_modify_body_proj, Hf. Qed.

Lemma same_p_forM (f : nat -> Gravity -> Rand Gravity) (l : list nat) (s : Gravity) :
  (forall i a, post (f i a) (same_p p a)) -> post (forM l f s) (same_p p s).
Proof.
  intros Hf. apply post_forM with (I := same_p p s); [|apply same_p_refl].
  intros i a _ Ha n. eapply same_p_trans; [exact Ha | apply Hf].
Qed.

Lemma same_p_repel_neighbour (index : nat) (rz rm : float) (j : nat) (s : Gravity) :
  post (repel_neighbour H index rz rm j s) (same_p p s).
Proof.
  unfold repel_neighbour.
  repeat (case_match; try (apply post_ret, same_p_refl)).
  all: eapply post_bind; [apply post_True|]; intros u _.
  all: apply post_ret, same_p_modify_body; intros b; apply p_acc.
Qed.

Lemma same_p_applyCloseBodyRepulsion (index : nat) (v a rz rm : float) (s : Gravity) :
  post (applyCloseBodyRepulsion H index v a rz rm s) (same_p p s).
Proof.
  unfold applyCloseBodyRepulsion.
  repeat (case_match; try (apply post_ret, same_p_refl)).
  eapply post_bind; [apply post_True|]. intros u1 _.
  eapply post_bind; [apply post_True|]. intros u2 _.
  eapply post_mono; [|apply same_p_forM; intros; apply same_p_repel_neighbour].
  intros s' Hs'. eapply same_p_trans; [|exact Hs'].
  apply same_p_modify_body. intros b. apply p_vel.
Qed.

Lemma same_p_accel_body (i : nat) (s : Gravity) : post (accel_body H i s) (same_p p s).
Proof.
  unfold accel_body. eapply post_mono; [|apply same_p_applyCloseBodyRepulsion].
  intros s' Hs'. eapply same_p_trans; [|exact Hs'].
  apply same_p_modify_body. intros b. apply p_acc.
Qed.

Lemma same_p_nudge_body (i : nat) (s : Gravity) : post (nudge_body H i s) (same_p p s).
Proof.
  unfold nudge_body. destruct (nudge_mode s); [|apply post_ret, same_p_refl].
  eapply post_bind; [apply post_True|]. intros v _. apply post_ret.
  intros j. cbn [bodies set_nudge].
  rewrite (bodies_modify_body_proj p) by (intros b; apply p_vel).
  destruct (nudge_step s =? 20)%Z; reflexivity.
Qed.

Lemma same_p_kick_body (d : float) (ox oy : list float) (i : nat) (s : Gravity) :
  post (kick_body H d ox oy i s) (same_p p s).
Proof.
  unfold kick_body. eapply post_bind; [apply same_p_nudge_body|].
  intros s2 H2. apply post_ret.
  eapply same_p_trans; [|apply same_p_modify_body; intros b; apply p_vel].
  eapply same_p_trans; [|exact H2].
  apply same_p_modify_body. intros b. apply p_vel.
Qed.

Lemma same_p_minSpeed_body (i : nat) (s : Gravity) : post (minSpeed_body H i s) (same_p p s).
Proof.
  unfold minSpeed_body.
  repeat (case_match; try (apply post_ret, same_p_refl)).
  eapply post_bind; [apply post_True|]. intros v _.
  apply post_ret, same_p_modify_body. intros b. apply p_vel.
Qed.

Lemma same_p_simulate (s : Gravity) : post (simulate H s) (same_p p (drifted H s)).
Proof.
  unfold simulate. fold (drifted H s).
  eapply post_bind; [apply same_p_forM, same_p_accel_body|].
  intros s2 H2.
  eapply post_bind; [apply same_p_forM, same_p_kick_body|].
  intros s3 H3.
  eapply post_mono; [|apply same_p_forM, same_p_minSpeed_body].
  intros s4 H4. eapply same_p_trans; [|exact H4]. eapply same_p_trans; [exact H2 | exact H3].
Qed.

End Field.

(** X10: [simulate] moves a live body by
    [v * h + 0.5 * a * h * h] in each coordinate, with the velocity and
    acceleration the body had before the call and [h] the adaptive time
    step; none of the later loops of the step writes a position.  No mass,
    of any slot, is changed. *)
Theorem simulate_positions (H : Host) (s : Gravity) (i : nat) (n : nat) :
  (Z.of_nat i < body_count s)%Z -> (i < length (bodies s))%nat ->
  let h := computeAdaptiveDt H s in
  let b := bodies s !!! i in
  let s' := fst (simulate H s n) in
  b_x (bodies s' !!! i) = b_x b + (b_vx b * h + 0.5 * b_ax b * h * h)
  /\ b_y (bodies s' !!! i) = b_y b + (b_vy b * h + 0.5 * b_ay b * h * h)
  /\ (forall j : nat, b_mass (bodies s' !!! j) = b_mass (bodies s !!! j)).
Proof.
  intros Hi Hlen h b s'.
  pose proof (same_p_simulate H b_x (fun _ _ _ => eq_refl) (fun _ _ _ => eq_refl) s n i) as Hx.
  pose proof (same_p_simulate H b_y (fun _ _ _ => eq_refl) (fun _ _ _ => eq_refl) s n i) as Hy.
  fold s' in Hx, Hy. rewrite Hx, Hy, (drifted_slot H s i Hi Hlen).
  split; [reflexivity|]. split; [reflexivity|].
  intros j. unfold s'.
  rewrite (same_p_simulate H b_mass (fun _ _ _ => eq_refl) (fun _ _ _ => eq_refl) s n j).
  unfold drifted.
  apply (fold_left_inv (fun a => b_mass (bodies a !!! j) = b_mass (bodies s !!! j))); [|reflexivity].
  intros k a _ Ha. rewrite <- Ha. unfold drift_body.
  apply (bodies_modify_body_proj b_mass). reflexivity.
Qed.

Lemma simulate_positions_witness :
  let h := computeAdaptiveDt example_host example_engine in
  let b := bodies example_engine !!! 0%nat in
  let s' := fst (simulate example_host example_engine 0%nat) in
  b_x (bodies s' !!! 0%nat) = b_x b + (b_vx b * h + 0.5 * b_ax b * h * h).
Proof.
  intros h b s'.
  pose proof (simulate_positions example_host example_engine 0 0) as Hthm.
  destruct Hthm as (Hx & _ & _); [vm_compute; reflexivity | vm_compute; lia |].
  exact Hx.
Defined.

(** ** Steps that draw no random number *)

Lemma quiet_ret {A} (a : A) (Q : A -> Prop) : Q a -> quiet (ret a) Q.
Proof. intros HQ. exists a. split; [exact HQ | reflexivity]. Qed.

Lemma quiet_bind {A B} (m : Rand A) (k : A -> Rand B) (P : A -> Prop) (Q : B -> Prop) :
  quiet m P -> (forall a, P a -> quiet (k a) Q) -> quiet (bind m k) Q.
Proof.
  intros (a & Ha & Hm) Hk. destruct (Hk a Ha) as (b & Hb & Hkb).
  exists b. split; [exact Hb|]. intros n. unfold bind. rewrite Hm. apply Hkb.
Qed.

Lemma quiet_forM {A} (I : A -> Prop) (l : list nat) (f : nat -> A -> Rand A) :
  (forall i a, i ∈ l -> I a -> quiet (f i a) I) ->
  forall a, I a -> quiet (forM l f a) I.
Proof.
  induction l as [|i l IH]; intros Hf a Ha; simpl.
  - apply quiet_ret, Ha.
  - apply quiet_bind with (P := I).
    + apply Hf; [left | exact Ha].
    + intros a' Ha'. apply IH; [|exact Ha'].
      intros j b Hj. apply Hf. right. exact Hj.
Qed.

Lemma calm_modify_body (s0 a : Gravity) (i : nat) (f : Body -> Body) :
  (forall b, b_x (f b) = b_x b) -> (forall b, b_y (f b) = b_y b) ->
  calm s0 a -> calm s0 (modify_body i f a).
Proof.
  intros Hx Hy (Hm & Hc & Hax & Hay). split; [exact Hm|]. split; [exact Hc|].
  split; intros j.
  - rewrite (bodies_modify_body_proj b_x) by exact Hx. apply Hax.
  - rewrite (bodies_modify_body_proj b_y) by exact Hy. apply Hay.
Qed.

Lemma calm_near_centre (s0 a : Gravity) (i : nat) :
  calm s0 a -> near_centre (bodies a !!! i) = near_centre (bodies s0 !!! i).
Proof. intros (_ & _ & Hx & Hy). unfold near_centre. rewrite (Hx i), (Hy i). reflexivity. Qed.

Section Quiet.
Context (H : Host) (s0 : Gravity).
Context (Hnear : forall i : nat, (Z.of_nat i < body_count s0)%Z ->
                   near_centre (bodies s0 !!! i) = true).

Lemma quiet_accel_body (i : nat) (a : Gravity) :
  (Z.of_nat i < body_count s0)%Z -> calm s0 a -> quiet (accel_body H i a) (calm s0).
Proof.
  intros Hi Ha. unfold accel_body.
  match goal with |- quiet (applyCloseBodyRepulsion _ _ _ _ _ _ ?x) _ => set (a' := x) end.
  assert (Ha' : calm s0 a') by (apply calm_modify_body; [reflexivity | reflexivity | exact Ha]).
  unfold applyCloseBodyRepulsion.
  destruct (body_count a' <=? Z.of_nat i)%Z; [apply quiet_ret, Ha'|].
  fold (near_centre (bodies a' !!! i)).
  rewrite (calm_near_centre s0 a' i Ha'), (Hnear i Hi). apply quiet_ret, Ha'.
Qed.

Lemma quiet_kick_body (d : float) (ox oy : list float) (i : nat) (a : Gravity) :
  calm s0 a -> quiet (kick_body H d ox oy i a) (calm s0).
Proof.
  intros Ha. unfold kick_body.
  match goal with |- quiet (bind (nudge_body _ _ ?x) _) _ => set (a' := x) end.
  assert (Ha' : calm s0 a') by (apply calm_modify_body; [reflexivity | reflexivity | exact Ha]).
  apply quiet_bind with (P := calm s0).
  - unfold nudge_body. destruct Ha' as (Hm & Hrest).
    replace (nudge_mode a') with false. apply quiet_ret. split; [exact Hm | exact Hrest].
  - intros a2 Ha2. apply quiet_ret, calm_modify_body; [reflexivity | reflexivity | exact Ha2].
Qed.

Lemma quiet_minSpeed_body (i : nat) (a : Gravity) :
  (Z.of_nat i < body_count s0)%Z -> calm s0 a -> quiet (minSpeed_body H i a) (calm s0).
Proof.
  intros Hi Ha. unfold minSpeed_body.
  fold (near_centre (bodies a !!! i)).
  rewrite (calm_near_centre s0 a i Ha), (Hnear i Hi). apply quiet_ret, Ha.
Qed.

Lemma quiet_loops (d : float) (ox oy : list float) :
  nudge_mode s0 = false ->
  quiet (let* s2 := forM (upto (body_count s0)) (accel_body H) s0 in
         let* s3 := forM (upto (body_count s2)) (kick_body H d ox oy) s2 in
         applyMinSpeed H s3) (calm s0).
Proof.
  intros Hm.
  assert (H0 : calm s0 s0) by (repeat split; (exact Hm || reflexivity)).
  apply quiet_bind with (P := calm s0).
  { apply quiet_forM; [|exact H0]. intros i a Hi%elem_of_upto. apply quiet_accel_body, Hi. }
  intros s2 H2. apply quiet_bind with (P := calm s0).
  { apply quiet_forM; [|exact H2]. intros i a _. apply quiet_kick_body. }
  intros s3 H3. unfold applyMinSpeed.
  apply quiet_forM; [|exact H3]. intros i a Hi%elem_of_upto.
  apply quiet_minSpeed_body. destruct H3 as (_ & Hc & _). rewrite <- Hc. exact Hi.
Qed.

End Quiet.

(** X11: when the nudge is off and the position update leaves every live
    body within 100 of the centre, [simulate] draws no random number: it
    returns one and the same engine whatever the state of the random source,
    and leaves the source where it was. *)
Theorem simulate_without_rand (H : Host) (s : Gravity) :
  nudge_mode s = false ->
  (forall i : nat, (Z.of_nat i < body_count s)%Z ->
     near_centre (bodies (drifted H s) !!! i) = true) ->
  exists s', forall n, simulate H s n = (s', n).
Proof.
  intros Hm Hnear.
  pose proof (frame_drifted H s) as Hfr.
  assert (Hm0 : nudge_mode (drifted H s) = false).
  { pose proof (f_equal fst (nudge_fold_drift (computeAdaptiveDt H s) (upto (body_count s)) s)) as E.
    unfold nudge_state in E. cbn [fst] in E. unfold drifted. rewrite E. exact Hm. }
  destruct (quiet_loops H (drifted H s)) with
    (d := computeAdaptiveDt H s)
    (ox := map (fun i => b_ax (bodies (drifted H s) !!! i)) (upto (body_count (drifted H s))))
    (oy := map (fun i => b_ay (bodies (drifted H s) !!! i)) (upto (body_count (drifted H s))))
    as (s' & _ & Hs').
  - intros i Hi. apply Hnear. rewrite <- (fr_body_count _ _ Hfr). exact Hi.
  - exact Hm0.
  - exists s'. exact Hs'.
Qed.

Lemma simulate_without_rand_witness :
  exists s', forall n, simulate example_host example_engine n = (s', n).
Proof.
  apply (simulate_without_rand example_host example_engine).
  - vm_compute. reflexivity.
  - intros i Hi.
    do 10 (destruct i as [|i]; [vm_compute; reflexivity|]).
    exfalso. change (body_count example_engine) with 10%Z in Hi. lia.
Defined.

(** ** The nudge, step by step *)

Lemma nudge_iter_armed (k : nat) (c : Z) :
  (c + Z.of_nat k <= 20)%Z -> Nat.iter k nudge_tick (true, c) = (true, (c + Z.of_nat k)%Z).
Proof.
  induction k as [|k IH]; intros Hk.
  - simpl. f_equal. lia.
  - simpl. rewrite IH by lia. unfold nudge_tick. cbn [fst snd].
    replace (c + Z.of_nat k =? 20)%Z with false by (symmetry; apply Z.eqb_neq; lia).
    f_equal. lia.
Qed.

Lemma nudge_iter_off (k : nat) (c : Z) : Nat.iter k nudge_tick (false, c) = (false, c).
Proof. induction k as [|k IH]; simpl; [reflexivity|]. rewrite IH. reflexivity. Qed.

(** X12: [nudge ()] sets the flag and leaves the counter where it is, so that
    a second call changes nothing.  [simulate] passes through the nudge block
    once per live body: with the flag off the bookkeeping stays as it is;
    with the flag on and a counter that the live bodies do not take beyond
    20, the flag stays on and the counter has advanced by the number of live
    bodies. *)
Theorem simulate_nudge_law (H : Host) (s : Gravity) (n : nat) :
  let s' := fst (simulate H s n) in
  nudge_state (nudge s) = (true, nudge_step s)
  /\ nudge (nudge s) = nudge s
  /\ (nudge_mode s = false -> nudge_state s' = nudge_state s)
  /\ (nudge_mode s = true -> (0 <= body_count s)%Z -> (nudge_step s + body_count s <= 20)%Z ->
      nudge_state s' = (true, (nudge_step s + body_count s)%Z)).
Proof.
  intros s'. split; [reflexivity|]. split; [reflexivity|].
  pose proof (simulate_nudge_state H s n) as E. fold s' in E. cbv beta in E.
  unfold nudge_state at 2 in E. split.
  - intros Hm. rewrite E, Hm, nudge_iter_off. unfold nudge_state. rewrite Hm. reflexivity.
  - intros Hm Hc Hk. rewrite E, Hm, nudge_iter_armed by lia. f_equal. lia.
Qed.

(** ** The impulses on stagnating bodies *)

Lemma stagnating_false (vmin_ amin : float) (b : Body) :
  stagnating vmin_ amin b = false ->
  near_centre b = true
  \/ (calcSpeed (b_vx b) (b_vy b) <? vmin_) && (calcAcceleration (b_ax b) (b_ay b) <? amin) = false.
Proof.
  unfold stagnating. destruct (near_centre b); [left; reflexivity|]. simpl. right. assumption.
Qed.

(** A loop over distinct indices whose iterations each write their own
    slot. *)
Lemma post_forM_slots (P : Gravity -> Prop) (R : nat -> Body -> Body -> Prop)
    (f : nat -> Gravity -> Rand Gravity) (l : list nat) :
  NoDup l ->
  (forall k a, k ∈ l -> P a -> post (f k a) (fun a' => P a' /\ relates_slot k (R k) a a')) ->
  forall a, P a ->
  post (forM l f a) (fun a' =>
    P a'
    /\ (forall j : nat, j ∉ l -> bodies a' !!! j = bodies a !!! j)
    /\ (forall j : nat, j ∈ l -> (j < length (bodies a))%nat ->
          R j (bodies a !!! j) (bodies a' !!! j))
    /\ length (bodies a') = length (bodies a)).
Proof.
  intros Hnd. induction Hnd as [|k l Hk Hnd IH]; intros Hf a Ha; simpl.
  - apply post_ret. split; [exact Ha|]. split; [reflexivity|].
    split; [intros j Hj; inversion Hj | reflexivity].
  - apply post_bind with (P := fun a' => P a' /\ relates_slot k (R k) a a').
    { apply Hf; [left | exact Ha]. }
    intros a1 (Ha1 & Hne & Heq & Hlen).
    eapply post_mono;
      [|apply (IH (fun j b Hj => Hf j b (proj2 (elem_of_cons l j k) (or_intror Hj))) a1 Ha1)].
    intros a2 (Ha2 & Hout & Hin & Hlen2).
    split; [exact Ha2|]. split; [|split].
    + intros j Hj. rewrite Hout by (intros Hjl; apply Hj; right; exact Hjl).
      apply Hne. intros ->. apply Hj. left.
    + intros j Hj Hjlen. apply elem_of_cons in Hj as [->|Hj].
      * rewrite Hout by exact Hk. apply Heq, Hjlen.
      * rewrite <- (Hne j) by (intros ->; contradiction).
        apply Hin; [exact Hj | rewrite Hlen; exact Hjlen].
    + rewrite Hlen2. exact Hlen.
Qed.

(** X13: [applyMinSpeed] writes the live records only.  To the velocity of
    a live body that is not within 100 of the centre, slower than [vmin] and
    with an acceleration below [0.01f] it adds one random impulse of
    [randomImpulse (0.02, 0.07)]; every other live body it leaves as it is. *)
Theorem applyMinSpeed_scope (H : Host) (s : Gravity) (n : nat) :
  let s' := fst (applyMinSpeed H s n) in
  set_bodies (bodies s) s' = s
  /\ (forall j : nat, (body_count s <= Z.of_nat j)%Z -> bodies s' !!! j = bodies s !!! j)
  /\ (forall j : nat, (Z.of_nat j < body_count s)%Z -> (j < length (bodies s))%nat ->
        minSpeed_rel H (vmin s) (bodies s !!! j) (bodies s' !!! j)).
Proof.
  intros s'. unfold s', applyMinSpeed.
  pose proof (post_forM_slots (fun a => set_bodies (bodies s) a = s)
                (fun _ => minSpeed_rel H (vmin s)) (minSpeed_body H) (upto (body_count s))
                (NoDup_seq _ _)) as Hloop.
  destruct (Hloop) with (a := s) (n := n) as (Hs & Hout & Hin & _).
  - intros k a _ Ha.
    assert (Hvmin : vmin a = vmin s) by (rewrite <- Ha; reflexivity).
    assert (Hstay : relates_slot k (minSpeed_rel H (vmin s)) a a ->
                    post (ret a) (fun a' => set_bodies (bodies s) a' = s
                                            /\ relates_slot k (minSpeed_rel H (vmin s)) a a'))
      by (intros Hr; apply post_ret; split; [exact Ha | exact Hr]).
    unfold minSpeed_body. fold (near_centre (bodies a !!! k)). rewrite Hvmin.
    destruct (near_centre (bodies a !!! k)) eqn:Hn.
    { apply Hstay. split; [reflexivity|]. split; [|reflexivity].
      intros _. unfold minSpeed_rel, stagnating. rewrite Hn. reflexivity. }
    match goal with |- context [if ?c then _ else _] => destruct c eqn:Hc end.
    + intros m. unfold bind, ret. cbn [fst].
      split; [rewrite <- Ha at 2; destruct a; reflexivity|].
      split; [intros j Hj; apply bodies_modify_body_ne; congruence|].
      split; [|simpl; apply length_insert].
      intros Hlt. rewrite bodies_modify_body_eq by exact Hlt.
      unfold minSpeed_rel, stagnating. rewrite Hn, Hc. simpl. exists m. reflexivity.
    + apply Hstay. split; [reflexivity|]. split; [|reflexivity].
      intros _. unfold minSpeed_rel, stagnating. rewrite Hn, Hc. reflexivity.
  - destruct s; reflexivity.
  - split; [exact Hs|]. split.
    + intros j Hj. apply Hout. unfold upto. rewrite elem_of_seq. lia.
    + intros j Hj Hlen. apply Hin; [|exact Hlen]. unfold upto. rewrite elem_of_seq. lia.
Qed.

(** X14: [applyCloseBodyRepulsion] writes the velocity and the acceleration
    of the body it is called for and nothing else.  It changes nothing and
    draws no random number when that index is not live, or when the body is
    within 100 of the centre, or not slower than the given speed, or its
    acceleration is not below the given bound. *)
Theorem applyCloseBodyRepulsion_scope (H : Host) (index : nat) (v a rz rm : float)
    (s : Gravity) (n : nat) :
  let s' := fst (applyCloseBodyRepulsion H index v a rz rm s n) in
  set_bodies (bodies s) s' = s
  /\ (forall j : nat, j <> index -> bodies s' !!! j = bodies s !!! j)
  /\ set_acc (b_ax (bodies s !!! index)) (b_ay (bodies s !!! index))
       (set_vel (b_vx (bodies s !!! index)) (b_vy (bodies s !!! index)) (bodies s' !!! index))
     = bodies s !!! index
  /\ ((body_count s <= Z.of_nat index)%Z \/ stagnating v a (bodies s !!! index) = false ->
      applyCloseBodyRepulsion H index v a rz rm s n = (s, n)).
Proof.
  intros s'.
  set (I := fun a0 : Gravity =>
    set_bodies (bodies s) a0 = s
    /\ (forall j : nat, j <> index -> bodies a0 !!! j = bodies s !!! j)
    /\ set_acc (b_ax (bodies s !!! index)) (b_ay (bodies s !!! index))
         (set_vel (b_vx (bodies s !!! index)) (b_vy (bodies s !!! index)) (bodies a0 !!! index))
       = bodies s !!! index).
  assert (I0 : I s).
  { split; [destruct s; reflexivity|]. split; [reflexivity|].
    destruct (bodies s !!! index); reflexivity. }
  assert (Istep : forall (f : Body -> Body) a0,
            (forall b, set_acc (b_ax (bodies s !!! index)) (b_ay (bodies s !!! index))
                         (set_vel (b_vx (bodies s !!! index)) (b_vy (bodies s !!! index)) (f b))
                       = set_acc (b_ax (bodies s !!! index)) (b_ay (bodies s !!! index))
                         (set_vel (b_vx (bodies s !!! index)) (b_vy (bodies s !!! index)) b)) ->
            I a0 -> I (modify_body index f a0)).
  { intros f a0 Hf (Hs & Hne & Hix). split; [rewrite <- Hs at 2; destruct a0; reflexivity|].
    split.
    - intros j Hj. rewrite bodies_modify_body_ne by congruence. apply Hne, Hj.
    - cbn [modify_body bodies set_bodies].
      rewrite list_lookup_total_insert. case_decide; [rewrite Hf|]; exact Hix. }
  assert (HI : post (applyCloseBodyRepulsion H index v a rz rm s) I).
  { unfold applyCloseBodyRepulsion.
    repeat (case_match; try (apply post_ret, I0)).
    eapply post_bind; [apply post_True|]. intros u1 _.
    eapply post_bind; [apply post_True|]. intros u2 _.
    apply post_forM.
    - intros j a0 _ Ha0. unfold repel_neighbour.
      repeat (case_match; try (apply post_ret, Ha0)).
      all: eapply post_bind; [apply post_True|]; intros u _.
      all: apply post_ret, Istep; [intros b; reflexivity | exact Ha0].
    - apply Istep; [intros b; reflexivity | exact I0]. }
  destruct (HI n) as (Hs & Hne & Hix). fold s' in Hs, Hne, Hix.
  split; [exact Hs|]. split; [exact Hne|]. split; [exact Hix|].
  intros Hno. unfold applyCloseBodyRepulsion.
  destruct (Z.leb_spec (body_count s) (Z.of_nat index)) as [Hle|Hgt]; [reflexivity|].
  destruct Hno as [Hno|Hno]; [lia|].
  fold (near_centre (bodies s !!! index)).
  destruct (stagnating_false _ _ _ Hno) as [-> | ->]; [reflexivity|].
  destruct (near_centre (bodies s !!! index)); reflexivity.
Qed.

(** ** [reset], repeated *)

Lemma reset_prefix_same (i : nat) (s : Gravity) :
  set_bodies (bodies s) (reset_prefix i s) = s.
Proof.
  unfold reset_prefix.
  apply (fold_left_inv (fun a => set_bodies (bodies s) a = s)); [|destruct s; reflexivity].
  intros k a _ Ha. rewrite <- Ha at 2. reflexivity.
Qed.

Lemma same_scalars (l : list Body) (a s : Gravity) :
  set_bodies l a = s ->
  G a = G s /\ softening a = softening s /\ body_count a = body_count s
  /\ blackHole a = blackHole s /\ pos_damping a = pos_damping s.
Proof. intros <-. repeat split; reflexivity. Qed.

Lemma reset_same (s : Gravity) : set_bodies (bodies s) (reset s) = s.
Proof. apply (reset_prefix_same 10). Qed.

Lemma wf_reset (s : Gravity) : wf s -> wf (reset s).
Proof. apply wf_keeps, keeps_reset. Qed.

Lemma settled_reset (s : Gravity) : wf s -> settled (reset s).
Proof.
  intros Hwf i Hi. rewrite initBodies_reset, (reset_from_initBodies s i Hwf Hi).
  split; reflexivity.
Qed.

Lemma reset_prefix_positions (i : nat) (s : Gravity) :
  settled s -> (i <= 10)%nat ->
  same_p b_x s (reset_prefix i s) /\ same_p b_y s (reset_prefix i s).
Proof.
  intros Hst Hi. unfold reset_prefix.
  apply (fold_left_inv (fun a => initBodies a = initBodies s
                                 /\ same_p b_x s a /\ same_p b_y s a)).
  2:{ split; [reflexivity|]. split; intros j; reflexivity. }
  intros k a Hk (Hinit & Hx & Hy). rewrite elem_of_seq in Hk.
  split; [rewrite reset_body_initBodies; exact Hinit|].
  destruct (Hst k) as [Ex Ey]; [lia|].
  unfold reset_body, initBody. split; intros j.
  - rewrite (bodies_modify_body_proj b_x) by reflexivity.
    cbn [modify_body bodies set_bodies]. rewrite list_lookup_total_insert.
    case_decide as Hd; [|apply Hx]. destruct Hd as [-> _]. cbn [restore_from b_x].
    rewrite Hinit. symmetry. exact Ex.
  - rewrite (bodies_modify_body_proj b_y) by reflexivity.
    cbn [modify_body bodies set_bodies]. rewrite list_lookup_total_insert.
    case_decide as Hd; [|apply Hy]. destruct Hd as [-> _]. cbn [restore_from b_y].
    rewrite Hinit. symmetry. exact Ey.
Qed.

(** Once the positions are those of the initial records, the loop of
    [reset] computes every acceleration on positions that it no longer
    changes: as if on the engine it started from. *)
Lemma reset_settled_slot (s : Gravity) (i : nat) :
  wf s -> settled s -> (i < 10)%nat ->
  bodies (reset s) !!! i =
  damped_acceleration s i (restore_from (initBodies s !!! i) (bodies s !!! i)).
Proof.
  intros Hwf Hst Hi. rewrite (reset_from_initBodies s i Hwf Hi).
  set (X := modify_body i (restore_from (initBodies s !!! i)) (reset_prefix i s)).
  pose proof (reset_prefix_same i s) as Hsame.
  destruct (reset_prefix_positions i s Hst) as [Hx Hy]; [lia|].
  destruct (Hst i Hi) as [Ex Ey].
  destruct (same_scalars _ _ _ Hsame) as (HG & Hso & Hc & Hbh & Hpd).
  assert (Hsf : same_field i s X).
  { constructor; try (unfold X; cbn [modify_body set_bodies G softening body_count blackHole];
                      congruence).
    - intros j. unfold X. cbn [modify_body bodies set_bodies].
      rewrite list_lookup_total_insert. case_decide as Hd; [|apply Hx].
      destruct Hd as [-> _]. symmetry. exact Ex.
    - intros j. unfold X. cbn [modify_body bodies set_bodies].
      rewrite list_lookup_total_insert. case_decide as Hd; [|apply Hy].
      destruct Hd as [-> _]. symmetry. exact Ey.
    - intros j Hj. unfold X. rewrite bodies_modify_body_ne by congruence.
      apply reset_prefix_mass. }
  unfold damped_acceleration. rewrite (computeAcceleration_ext s X i Hsf).
  replace (pos_damping X) with (pos_damping s) by (symmetry; exact Hpd).
  reflexivity.
Qed.

Lemma list_eq_total (l1 l2 : list Body) (n : nat) :
  length l1 = n -> length l2 = n ->
  (forall i : nat, (i < n)%nat -> l1 !!! i = l2 !!! i) -> l1 = l2.
Proof.
  intros H1 H2 Hall. apply (list_eq_same_length l1 l2 n); [exact H2 | exact H1|].
  intros i x y Hi Hx Hy.
  rewrite <- (list_lookup_total_correct _ _ _ Hx), <- (list_lookup_total_correct _ _ _ Hy).
  apply Hall, Hi.
Qed.

Lemma restore_from_settled_slot (s : Gravity) (i : nat) :
  wf s -> settled s -> (i < 10)%nat ->
  let b := bodies (reset s) !!! i in
  b_x b = b_x (initBodies s !!! i) /\ b_y b = b_y (initBodies s !!! i)
  /\ b_vx b = b_vx (initBodies s !!! i) /\ b_vy b = b_vy (initBodies s !!! i)
  /\ b_mass b = b_mass (bodies s !!! i).
Proof.
  intros Hwf Hst Hi b. unfold b. rewrite (reset_settled_slot s i Hwf Hst Hi).
  repeat split; reflexivity.
Qed.

(** On an engine whose positions are those of the initial records, [reset]
    gives an engine that a further [reset] does not change. *)
Lemma reset_settled_fixed (s1 : Gravity) :
  wf s1 -> settled s1 -> reset (reset s1) = reset s1.
Proof.
  intros Hwf1 Hst1.
  remember (reset s1) as s2 eqn:E2.
  assert (Hwf2 : wf s2) by (rewrite E2; apply wf_reset, Hwf1).
  assert (Hst2 : settled s2) by (rewrite E2; apply settled_reset, Hwf1).
  assert (Hinit : initBodies s2 = initBodies s1) by (rewrite E2; apply initBodies_reset).
  assert (Hsame : set_bodies (bodies s1) s2 = s1) by (rewrite E2; apply reset_same).
  assert (Hmass : forall i : nat, b_mass (bodies s2 !!! i) = b_mass (bodies s1 !!! i))
    by (intros i; rewrite E2; apply reset_mass).
  assert (Hhigh : forall i : nat, (10 <= i)%nat -> bodies s2 !!! i = bodies s1 !!! i).
  { intros i Hi. rewrite E2. unfold reset. apply fold_reset_body_ne.
    unfold upto. rewrite elem_of_seq. lia. }
  destruct (same_scalars _ _ _ Hsame) as (HG & Hso & Hc & Hbh & Hpd).
  assert (Hslot2 : forall i : nat, (i < 10)%nat ->
            bodies s2 !!! i =
            damped_acceleration s1 i (restore_from (initBodies s1 !!! i) (bodies s1 !!! i))).
  { intros i Hi. rewrite E2. apply reset_settled_slot; assumption. }
  assert (Hsf : forall i : nat, same_field i s1 s2).
  { intros i. constructor; try congruence; try (intros j _; apply Hmass).
    - intros j. destruct (Nat.lt_ge_cases j 10) as [Hj|Hj]; [|rewrite (Hhigh j Hj); reflexivity].
      destruct (Hst1 j Hj) as [-> _]. destruct (Hst2 j Hj) as [-> _].
      rewrite Hinit. reflexivity.
    - intros j. destruct (Nat.lt_ge_cases j 10) as [Hj|Hj]; [|rewrite (Hhigh j Hj); reflexivity].
      destruct (Hst1 j Hj) as [_ ->]. destruct (Hst2 j Hj) as [_ ->].
      rewrite Hinit. reflexivity. }
  assert (Hb : bodies (reset s2) = bodies s2).
  { pose proof Hwf2 as [Hl2 _]. pose proof (wf_reset s2 Hwf2) as [Hl3 _].
    apply (list_eq_total _ _ 10 Hl3 Hl2). intros i Hi.
    rewrite (reset_settled_slot s2 i Hwf2 Hst2 Hi).
    replace (restore_from (initBodies s2 !!! i) (bodies s2 !!! i))
      with (restore_from (initBodies s1 !!! i) (bodies s1 !!! i))
      by (unfold restore_from; rewrite Hinit, (Hmass i); reflexivity).
    rewrite (Hslot2 i Hi).
    unfold damped_acceleration. rewrite (computeAcceleration_ext s1 s2 i (Hsf i)).
    rewrite Hpd. reflexivity. }
  pose proof (reset_same s2) as Hsame2.
  generalize dependent (reset s2). intros s3 Hb Hsame2.
  rewrite <- Hsame2, <- Hb. destruct s3; reflexivity.
Qed.

(** X15: a second [reset] changes accelerations only, and a third changes
    nothing: the first one computes each acceleration while the slots after
    it still hold the positions the simulation left, the second one on the
    initial positions throughout. *)
Theorem reset_twice_stable (s : Gravity) :
  wf s ->
  reset (reset (reset s)) = reset (reset s)
  /\ (forall i : nat,
        set_acc (b_ax (bodies (reset s) !!! i)) (b_ay (bodies (reset s) !!! i))
          (bodies (reset (reset s)) !!! i) = bodies (reset s) !!! i).
Proof.
  intros Hwf.
  assert (Hwf1 : wf (reset s)) by apply wf_reset, Hwf.
  assert (Hst1 : settled (reset s)) by apply settled_reset, Hwf.
  split; [apply reset_settled_fixed; assumption|].
  intros i. destruct (Nat.lt_ge_cases i 10) as [Hi|Hi].
  - destruct (restore_from_settled_slot (reset s) i Hwf1 Hst1 Hi) as (Hx & Hy & Hvx & Hvy & Hm).
    cbv zeta in Hx, Hy, Hvx, Hvy, Hm.
    destruct (Hst1 i Hi) as [Hx1 Hy1].
    assert (Hv1 : b_vx (bodies (reset s) !!! i) = b_vx (initBodies (reset s) !!! i)
                  /\ b_vy (bodies (reset s) !!! i) = b_vy (initBodies (reset s) !!! i)).
    { rewrite initBodies_reset, (reset_from_initBodies s i Hwf Hi). split; reflexivity. }
    destruct Hv1 as [Hvx1 Hvy1].
    revert Hx Hy Hvx Hvy Hm Hx1 Hy1 Hvx1 Hvy1.
    generalize (bodies (reset (reset s)) !!! i) (bodies (reset s) !!! i)
               (initBodies (reset s) !!! i).
    intros b2 b1 b0.
    destruct b1 as [x1 y1 vx1 vy1 ax1 ay1 m1], b2 as [x2 y2 vx2 vy2 ax2 ay2 m2].
    cbn [b_x b_y b_vx b_vy b_ax b_ay b_mass]. intros. subst. reflexivity.
  - unfold reset at 3. rewrite fold_reset_body_ne by (unfold upto; rewrite elem_of_seq; lia).
    destruct (bodies (reset s) !!! i); reflexivity.
Qed.

Lemma reset_twice_stable_witness :
  let s := fst (run example_host [OSimulate; OSimulate] example_engine 0%nat) in
  reset (reset (reset s)) = reset (reset s).
Proof.
  intros s. assert (Hwf : wf s) by (split; vm_compute; reflexivity).
  pose proof (reset_twice_stable s Hwf) as [E _]. exact E.
Defined.

(** One [reset] is not enough: after two steps of the constructed engine the
    second [reset] changes the acceleration of body 0. *)
Lemma reset_once_not_stable :
  let s := fst (run example_host [OSimulate; OSimulate] example_engine 0%nat) in
  reset (reset s) <> reset s.
Proof.
  intros s. float_neq (fun a : Gravity => b_ax (bodies a !!! 0%nat) <? -0.005781).
Qed.

(** ** What [loadPreset] keeps, and what it forgets *)

Lemma run_block_cons (f : Gravity -> Gravity) (fs : list (Gravity -> Gravity)) (s : Gravity) :
  run_block (f :: fs) s = run_block fs (f s).
Proof. reflexivity. Qed.

(** The six parameter setters that open every preset, with arguments they
    accept, leave nothing of the parameters and the body count there were. *)
Ltac forget_params z z0 :=
  rewrite !run_block_cons;
  lazymatch goal with
  | |- context [setBodyCount ?c (setVelDamping ?vd (setPosDamping ?pd
                  (setSoftening ?so (setDt ?d (setG ?g z)))))] =>
      replace (setBodyCount c (setVelDamping vd (setPosDamping pd
                 (setSoftening so (setDt d (setG g z))))))
        with (setBodyCount c (setVelDamping vd (setPosDamping pd
                 (setSoftening so (setDt d (setG g z0))))))
        by (vm_compute; reflexivity)
  end;
  reflexivity.

Lemma apply_preset_forgets (H : Host) (p : Z) (ibs bs : list Body) (bh : Body)
    (g d pd vd so g0 d0 pd0 vd0 so0 vmi vma : float) (c c0 : Z) (nm : bool) (ns : Z) :
  (0 <= p <= 13)%Z ->
  apply_preset H p (mkGravity ibs bs bh g0 d0 pd0 vd0 so0 vmi vma c0 nm ns)
  = apply_preset H p (mkGravity ibs bs bh g d pd vd so vmi vma c nm ns).
Proof.
  intros Hp.
  set (z0 := mkGravity ibs bs bh g0 d0 pd0 vd0 so0 vmi vma c0 nm ns).
  set (z := mkGravity ibs bs bh g d pd vd so vmi vma c nm ns).
  assert (Hcases : (p = 0 \/ p = 1 \/ p = 2 \/ p = 3 \/ p = 4 \/ p = 5 \/ p = 6 \/ p = 7
                    \/ p = 8 \/ p = 9 \/ p = 10 \/ p = 11 \/ p = 12 \/ p = 13)%Z) by lia.
  repeat (destruct Hcases as [->|Hcases]); [idtac..|subst p]; cbn [apply_preset]; try f_equal.
  all: unfold preset_ring, preset_cluster, preset_spiral, preset_cross, preset_orbit,
         preset_random, preset_binaries, preset_figure_eight, preset_line, preset_burst,
         preset_chaos_fast, preset_chaos_drift, preset_chaos_extreme, preset_chaos_triangle.
  all: unfold z, z0; forget_params (mkGravity ibs bs bh g0 d0 pd0 vd0 so0 vmi vma c0 nm ns)
                                   (mkGravity ibs bs bh g d pd vd so vmi vma c nm ns).
Qed.

(** X16: of the engine it is called on, [loadPreset] keeps the speed bounds,
    the black hole and the nudge bookkeeping, and nothing else: two engines
    that agree on these give the same engine, whatever their bodies, initial
    records, parameters and body counts were.  So a preset loaded before
    leaves no trace once another is loaded. *)
Theorem loadPreset_erases (H : Host) (i : Z) (s s0 : Gravity) (n : nat) :
  wf s -> wf s0 ->
  vmin s0 = vmin s -> vmax s0 = vmax s -> blackHole s0 = blackHole s ->
  nudge_mode s0 = nudge_mode s -> nudge_step s0 = nudge_step s ->
  loadPreset H i s0 n = loadPreset H i s n
  /\ (let s' := fst (loadPreset H i s n) in
      vmin s' = vmin s /\ vmax s' = vmax s /\ blackHole s' = blackHole s
      /\ nudge_mode s' = nudge_mode s /\ nudge_step s' = nudge_step s)
  /\ (forall (j : Z) (m : nat),
        loadPreset H i (fst (loadPreset H j s m)) n = loadPreset H i s n).
Proof.
  intros Hwf Hwf0 Hvmin Hvmax Hbh Hnm Hns.
  assert (Hgen : forall a : Gravity, wf a ->
            vmin a = vmin s -> vmax a = vmax s -> blackHole a = blackHole s ->
            nudge_mode a = nudge_mode s -> nudge_step a = nudge_step s ->
            loadPreset H i a n = loadPreset H i s n).
  { clear dependent s0. intros s0 Hwf0 Hvmin Hvmax Hbh Hnm Hns.
    unfold loadPreset. cbv zeta.
    rewrite !loadPreset_index, (resetBodies_zeroed s Hwf), (resetBodies_zeroed s0 Hwf0).
    pose proof (clamp_index_range i) as Hr.
    destruct s as [ib b bh g d pd vd so vmi vma c nm ns],
             s0 as [ib0 b0 bh0 g0 d0 pd0 vd0 so0 vmi0 vma0 c0 nm0 ns0].
    cbn in Hvmin, Hvmax, Hbh, Hnm, Hns. subst.
    cbv [zeroed set_initBodies set_bodies initBodies bodies blackHole G dt pos_damping
      vel_damping softening vmin vmax body_count nudge_mode nudge_step].
    rewrite (apply_preset_forgets H (clamp_index i - 1) _ _ _ g d pd vd so g0 d0 pd0 vd0 so0
               _ _ c c0) by lia.
    reflexivity. }
  assert (Hkeeps : forall (j : Z) (m : nat),
            let s' := fst (loadPreset H j s m) in
            vmin s' = vmin s /\ vmax s' = vmax s /\ blackHole s' = blackHole s
            /\ nudge_mode s' = nudge_mode s /\ nudge_step s' = nudge_step s).
  { intros j m. pose proof (keeps_loadPreset H j s m) as [Ebh E1 E2 En _ _ _].
    pose proof (f_equal fst En) as Em. pose proof (f_equal snd En) as Es.
    unfold nudge_state in Em, Es. cbn [fst snd] in Em, Es.
    cbv zeta. repeat split; assumption. }
  split; [apply Hgen; assumption|]. split; [apply Hkeeps|].
  intros j m. destruct (Hkeeps j m) as (K1 & K2 & K3 & K4 & K5).
  apply Hgen; try assumption.
  eapply wf_keeps; [apply keeps_loadPreset | exact Hwf].
Qed.

Lemma loadPreset_erases_witness :
  loadPreset example_host 3 (setG 5 (setBodyCount 4 (setBody 2 7 7 1 1 9 example_engine))) 0%nat
  = loadPreset example_host 3 example_engine 0%nat.
Proof.
  set (s0 := setG 5 (setBodyCount 4 (setBody 2 7 7 1 1 9 example_engine))).
  assert (Hwf : wf example_engine) by (split; vm_compute; reflexivity).
  assert (Hwf0 : wf s0) by (split; vm_compute; reflexivity).
  assert (E1 : vmin s0 = vmin example_engine) by (vm_compute; reflexivity).
  assert (E2 : vmax s0 = vmax example_engine) by (vm_compute; reflexivity).
  assert (E3 : blackHole s0 = blackHole example_engine) by (vm_compute; reflexivity).
  assert (E4 : nudge_mode s0 = nudge_mode example_engine) by (vm_compute; reflexivity).
  assert (E5 : nudge_step s0 = nudge_step example_engine) by (vm_compute; reflexivity).
  pose proof (loadPreset_erases example_host 3 example_engine s0 0%nat Hwf Hwf0 E1 E2 E3 E4 E5)
    as (E & _ & _).
  exact E.
Defined.

(** ** The random numbers a preset takes *)

Lemma forM_draws {A} (k : nat) (l : list nat) (f : nat -> A -> Rand A) (a : A) (n : nat) :
  (forall i b m, snd (f i b m) = (m + k)%nat) ->
  snd (forM l f a n) = (n + k * length l)%nat.
Proof.
  intros Hf. revert a n. induction l as [|i l IH]; intros a n; simpl.
  - unfold ret. simpl. lia.
  - unfold bind. rewrite IH, Hf. lia.
Qed.

(** X17: [loadPreset] calls [rand ()] fifty times for preset 6, the random
    cluster (five numbers for each of the ten bodies), and not once for any
    other preset. *)
Theorem loadPreset_draws (H : Host) (i : Z) (s : Gravity) (n : nat) :
  snd (loadPreset H i s n) = if (clamp_index i =? 6)%Z then (n + 50)%nat else n.
Proof.
  unfold loadPreset. cbv zeta. rewrite loadPreset_index.
  pose proof (clamp_index_range i) as Hr.
  generalize dependent (clamp_index i). intros p Hp.
  generalize (resetBodies s). intros z.
  assert (Hcases : (p = 1 \/ p = 2 \/ p = 3 \/ p = 4 \/ p = 5 \/ p = 6 \/ p = 7 \/ p = 8
                    \/ p = 9 \/ p = 10 \/ p = 11 \/ p = 12 \/ p = 13 \/ p = 14)%Z) by lia.
  repeat (destruct Hcases as [->|Hcases]); [idtac..|subst p];
    cbn [Z.sub Z.add Z.opp Z.pos_sub Pos.pred_double Z.succ_double Z.pred_double Z.double
         Z.eqb Pos.eqb apply_preset]; try reflexivity.
  change (6 - 1)%Z with 5%Z. cbn [apply_preset].
  unfold preset_random. rewrite (forM_draws 5); [reflexivity|].
  intros k b m. unfold preset_random_body, bind, rand, ret. cbn [fst snd]. lia.
Qed.

(** ** Initial and live records after a preset *)

Lemma setBody_other_slots (index : Z) (x y vx vy m : float) (s : Gravity) (k : nat) :
  k <> Z.to_nat index ->
  bodies (setBody index x y vx vy m s) !!! k = bodies s !!! k
  /\ initBodies (setBody index x y vx vy m s) !!! k = initBodies s !!! k.
Proof.
  intros Hk. unfold setBody. case_match; [split; reflexivity|].
  unfold initBody. rewrite bodies_modify_body_ne by congruence.
  cbn [bodies set_initBodies initBodies]. rewrite bodies_modify_body_ne by congruence.
  split; [reflexivity|]. cbn [modify_body set_bodies initBodies].
  apply list_lookup_total_insert_ne. congruence.
Qed.

Lemma synced_zeroed (s : Gravity) : wf s -> synced (zeroed s).
Proof.
  intros _. split; [split; reflexivity|]. intros j Hj.
  do 10 (destruct j as [|j]; [reflexivity|]). lia.
Qed.

Lemma synced_setBody (index : Z) (x y vx vy m : float) (s : Gravity) :
  synced s -> synced (setBody index x y vx vy m s).
Proof.
  intros [Hwf Hs]. split; [eapply wf_keeps; [apply keeps_setBody | exact Hwf]|].
  intros j Hj.
  destruct (Z.lt_ge_cases index 0) as [Hlo|Hlo];
    [unfold setBody; rewrite invalid_index by lia; apply Hs, Hj|].
  destruct (Z.lt_ge_cases 9 index) as [Hhi|Hhi];
    [unfold setBody; rewrite invalid_index by lia; apply Hs, Hj|].
  destruct (Nat.eq_dec j (Z.to_nat index)) as [->|Hne].
  - rewrite setBody_initBodies, setBody_bodies by (assumption || lia). reflexivity.
  - destruct (setBody_other_slots index x y vx vy m s j Hne) as [-> ->]. apply Hs, Hj.
Qed.

Lemma synced_setG g s : synced s -> synced (setG g s).
Proof. intros Hs. unfold setG. case_match; exact Hs. Qed.

Lemma synced_setDt d s : synced s -> synced (setDt d s).
Proof. intros Hs. unfold setDt. case_match; exact Hs. Qed.

Lemma synced_setPosDamping d s : synced s -> synced (setPosDamping d s).
Proof. intros Hs. unfold setPosDamping. case_match; exact Hs. Qed.

Lemma synced_setVelDamping d s : synced s -> synced (setVelDamping d s).
Proof. intros Hs. unfold setVelDamping. case_match; exact Hs. Qed.

Lemma synced_setSoftening v s : synced s -> synced (setSoftening v s).
Proof. intros Hs. unfold setSoftening. case_match; exact Hs. Qed.

Lemma synced_setBodyCount c s : synced s -> synced (setBodyCount c s).
Proof. intros Hs. unfold setBodyCount. case_match; exact Hs. Qed.

Lemma synced_block (fs : list (Gravity -> Gravity)) (s : Gravity) :
  Forall (fun f => forall a, synced a -> synced (f a)) fs -> synced s -> synced (run_block fs s).
Proof.
  unfold run_block. intros Hfs. revert s.
  induction Hfs as [|f fs Hf _ IH]; intros s Hs; simpl; [exact Hs|].
  apply IH, Hf, Hs.
Qed.

Lemma synced_for_int (lo hi : Z) (body : Z -> Gravity -> Gravity) (s : Gravity) :
  (forall i a, synced a -> synced (body i a)) -> synced s -> synced (for_int lo hi body s).
Proof.
  intros Hb Hs. unfold for_int. apply (fold_left_inv synced); [|exact Hs].
  intros i a _ Ha. apply Hb, Ha.
Qed.

Create HintDb synced.

#[local] Hint Resolve synced_setG synced_setDt synced_setPosDamping synced_setVelDamping
  synced_setSoftening synced_setBodyCount synced_setBody : synced.

Ltac synced_tac :=
  cbv beta zeta;
  lazymatch goal with
  | |- synced (run_block _ _) =>
      apply synced_block;
      [repeat (constructor; [intros ? ?; synced_tac|]); constructor | try assumption]
  | |- synced (for_int _ _ _ _) =>
      apply synced_for_int; [intros ? ? ?; synced_tac | try assumption]
  | |- _ => auto with synced
  end.

Lemma synced_apply_preset (H : Host) (p : Z) (s : Gravity) :
  synced s -> post (apply_preset H p s) synced.
Proof.
  intros Hs. unfold apply_preset.
  repeat (case_match;
    lazymatch goal with
    | |- post (ret s) _ => apply post_ret, Hs
    | |- post (preset_random _ _) _ => idtac
    | |- post (ret _) _ => apply post_ret
    | |- _ => idtac
    end).
  all: unfold preset_ring, preset_cluster, preset_spiral, preset_cross, preset_orbit,
         preset_random, preset_binaries, preset_figure_eight, preset_line, preset_burst,
         preset_chaos_fast, preset_chaos_drift, preset_chaos_extreme, preset_chaos_triangle.
  all: lazymatch goal with
       | |- post (forM _ _ _) _ =>
           apply post_forM;
           [intros i a _ Ha n; cbn; apply synced_setBody, Ha | synced_tac]
       | |- _ => synced_tac
       end.
Qed.

(** X18: after [loadPreset], and so after the constructor, every initial
    record holds the position, velocity and mass of the live record of its
    slot, with an acceleration of zero: the accessors [getInitBody] and
    [getBody] differ in the acceleration only, at every index.  A [reset]
    that follows moves nothing: it changes accelerations only. *)
Theorem loadPreset_initial_records (H : Host) (i : Z) (s : Gravity) (n : nat) :
  wf s ->
  let s' := fst (loadPreset H i s n) in
  (forall index : Z, getInitBody index s' = set_acc 0 0 (getBody index s'))
  /\ (forall j : nat,
        set_acc (b_ax (bodies s' !!! j)) (b_ay (bodies s' !!! j)) (bodies (reset s') !!! j)
        = bodies s' !!! j).
Proof.
  intros Hwf s'.
  assert (Hs' : synced s').
  { unfold s', loadPreset. cbv zeta. rewrite (resetBodies_zeroed s Hwf).
    apply synced_apply_preset, synced_zeroed, Hwf. }
  destruct Hs' as [Hwf' Hs']. split.
  - intros index. unfold getInitBody, getBody.
    case_match; [apply Hs'; lia|].
    apply Hs'.
    match goal with E : _ = false |- _ => apply orb_false_iff in E; unfold BodyCount in E end.
    lia.
  - intros j. destruct (Nat.lt_ge_cases j 10) as [Hj|Hj].
    + rewrite (reset_from_initBodies s' j Hwf' Hj), (Hs' j Hj).
      generalize (modify_body j (restore_from (set_acc 0 0 (bodies s' !!! j)))
                    (reset_prefix j s')).
      intros X. destruct (bodies s' !!! j); reflexivity.
    + unfold reset. rewrite fold_reset_body_ne by (unfold upto; rewrite elem_of_seq; lia).
      destruct (bodies s' !!! j); reflexivity.
Qed.

Lemma loadPreset_initial_records_witness :
  let s' := fst (loadPreset example_host 6 example_engine 0%nat) in
  getInitBody 4 s' = set_acc 0 0 (getBody 4 s').
Proof.
  intros s'.
  assert (Hwf : wf example_engine) by (split; vm_compute; reflexivity).
  pose proof (loadPreset_initial_records example_host 6 example_engine 0%nat Hwf) as [E _].
  exact (E 4%Z).
Defined.

(** ** Signs *)

Lemma binary_round_aux_sign (prec emax : Z) (s : bool) (m e : Z) (l : location) :
  match binary_round_aux prec emax s m e l with
  | S754_zero s' | S754_infinity s' | S754_finite s' _ _ => s' = s
  | S754_nan => True
  end.
Proof.
  unfold binary_round_aux.
  destruct (shr_fexp prec emax m e l) as [mrs' e'].
  destruct (shr_fexp prec emax _ e' loc_Exact) as [mrs'' e''].
  destruct (shr_m mrs''); [reflexivity | | exact I].
  destruct (e'' <=? emax - prec)%Z; reflexivity.
Qed.

Lemma binary_round_aux_nonneg (prec emax m e : Z) (l : location) :
  SF_nonneg (binary_round_aux prec emax false m e l).
Proof.
  pose proof (binary_round_aux_sign prec emax false m e l) as Hs.
  destruct (binary_round_aux prec emax false m e l); try exact I; subst; exact I.
Qed.

Lemma binary_round_aux_nonpos (prec emax m e : Z) (l : location) :
  SF_nonpos (binary_round_aux prec emax true m e l).
Proof.
  pose proof (binary_round_aux_sign prec emax true m e l) as Hs.
  destruct (binary_round_aux prec emax true m e l); try exact I; subst; exact I.
Qed.

Lemma nonneg_ltb (x : float) : (x <? 0) = false <-> SF_nonneg (Prim2SF x).
Proof.
  rewrite ltb_spec. change (Prim2SF 0) with (S754_zero false). unfold SFltb.
  destruct (Prim2SF x) as [s|[]| |[] m e]; simpl; intuition discriminate.
Qed.

Lemma nonpos_ltb (x : float) : (0 <? x) = false <-> SF_nonpos (Prim2SF x).
Proof.
  rewrite ltb_spec. change (Prim2SF 0) with (S754_zero false). unfold SFltb.
  destruct (Prim2SF x) as [s|[]| |[] m e]; simpl; intuition discriminate.
Qed.

Lemma SFmul_nonneg (x y : spec_float) :
  SF_nonneg x -> SF_nonneg y -> SF_nonneg (SFmul prec emax x y).
Proof.
  destruct x as [sx|[]| |[] mx ex], y as [sy|[]| |[] my ey]; simpl; try tauto.
  intros _ _. apply binary_round_aux_nonneg.
Qed.

Lemma SFmul_nonpos (x y : spec_float) :
  SF_nonpos x -> SF_nonneg y -> SF_nonpos (SFmul prec emax x y).
Proof.
  destruct x as [sx|[]| |[] mx ex], y as [sy|[]| |[] my ey]; simpl; try tauto.
  intros _ _. apply binary_round_aux_nonpos.
Qed.

Lemma SFmul_square (x : spec_float) : SF_nonneg (SFmul prec emax x x).
Proof.
  destruct x as [s|[]| |[] m e]; simpl; try exact I; apply binary_round_aux_nonneg.
Qed.

Lemma SFadd_nonneg (x y : spec_float) :
  SF_nonneg x -> SF_nonneg y -> SF_nonneg (SFadd prec emax x y).
Proof.
  destruct x as [[]|[]| |[] mx ex], y as [[]|[]| |[] my ey]; simpl; try tauto.
  intros _ _. unfold binary_round.
  destruct (shl_align _ _ _) as [mz ez]. apply binary_round_aux_nonneg.
Qed.

Lemma SFdiv_nonneg (x y : spec_float) :
  SF_nonneg x -> SF_pos y -> SF_nonneg (SFdiv prec emax x y).
Proof.
  destruct x as [sx|[]| |[] mx ex], y as [sy|[]| |[] my ey]; simpl; try tauto.
  intros _ _. destruct (SFdiv_core_binary _ _ _ _ _ _) as [[mz ez] lz].
  apply binary_round_aux_nonneg.
Qed.

Lemma SFsqrt_nonneg (x : spec_float) : SF_nonneg (SFsqrt prec emax x).
Proof.
  destruct x as [s|[]| |[] m e]; simpl; try exact I.
  destruct (SFsqrt_core_binary _ _ _ _) as [[mz ez] lz]. apply binary_round_aux_nonneg.
Qed.

Lemma sqrt_not_negative (x : float) : (sqrt x <? 0) = false.
Proof. apply nonneg_ltb. rewrite sqrt_spec. apply SFsqrt_nonneg. Qed.

Lemma square_sum_nonneg (x y : float) : SF_nonneg (Prim2SF (x * x + y * y)).
Proof. rewrite add_spec, !mul_spec. apply SFadd_nonneg; apply SFmul_square. Qed.

(** X19: the squared radius, the distances, the speed and the magnitude of
    an acceleration that [GravityMath] computes are never below zero, for any
    arguments (a NaN is not below zero); nor is the position damping factor,
    when the base damping is not. *)
Theorem magnitudes_not_negative (a b c d base : float) :
  (calcRadiusFromCenter a b <? 0) = false
  /\ (calcEuclideanDistance a b <? 0) = false
  /\ (calcEuclideanDistance4 a b c d <? 0) = false
  /\ (calcSpeed a b <? 0) = false
  /\ (calcAcceleration a b <? 0) = false
  /\ ((base <? 0) = false -> (calcPositionDamping a b base <? 0) = false).
Proof.
  split; [apply nonneg_ltb, square_sum_nonneg|].
  split; [apply sqrt_not_negative|]. split; [apply sqrt_not_negative|].
  split; [apply sqrt_not_negative|]. split; [apply sqrt_not_negative|].
  intros Hbase%nonneg_ltb. apply nonneg_ltb. unfold calcPositionDamping.
  rewrite mul_spec, add_spec. apply SFmul_nonneg; [exact Hbase|].
  apply SFadd_nonneg; [exact I|]. rewrite sqrt_spec. apply SFsqrt_nonneg.
Qed.

Lemma sqrt_pos (z : float) :
  (sqrt z =? 0) = false -> is_nan (sqrt z) = false -> SF_pos (Prim2SF (sqrt z)).
Proof.
  intros Hz Hn%is_nan_false_SF. rewrite FloatAxioms.eqb_spec in Hz.
  change (Prim2SF 0) with (S754_zero false) in Hz.
  pose proof (SFsqrt_nonneg (Prim2SF z)) as Hs. rewrite <- sqrt_spec in Hs.
  destruct (Prim2SF (sqrt z)) as [s|[]| |[] m e]; simpl in *;
    try exact I; try contradiction; try discriminate.
Qed.

Lemma SF_pos_lt (x y : spec_float) : SF_pos x -> SFltb x y = true -> SF_pos y.
Proof.
  unfold SFltb.
  destruct x as [sx|[]| |[] mx ex], y as [sy|[]| |[] my ey]; simpl; try tauto;
    try discriminate; try (destruct sy; discriminate).
Qed.

Lemma SF_pos_nonneg (x : spec_float) : SF_pos x -> SF_nonneg x.
Proof. destruct x as [s|[]| |[] m e]; simpl; tauto. Qed.

(** X20: [clampSpeed] never reverses a velocity: with an upper bound that is
    not below zero, a component that is not below zero is not below zero
    afterwards, and a component that is not above zero is not above zero
    afterwards.  (Nothing is asked of the lower bound: it is used only when
    it is above the speed, and the speed is not below zero.) *)
Theorem clampSpeed_keeps_direction (vx vy lo hi : float) :
  (hi <? 0) = false ->
  let v := clampSpeed vx vy lo hi in
  ((vx <? 0) = false -> (v_x v <? 0) = false)
  /\ ((0 <? vx) = false -> (0 <? v_x v) = false)
  /\ ((vy <? 0) = false -> (v_y v <? 0) = false)
  /\ ((0 <? vy) = false -> (0 <? v_y v) = false).
Proof.
  intros Hhi%nonneg_ltb v.
  assert (Hscale : forall k : float, SF_nonneg (Prim2SF k) ->
            forall c : float,
              ((c <? 0) = false -> (c * k <? 0) = false)
              /\ ((0 <? c) = false -> (0 <? c * k) = false)).
  { intros k Hk c. split.
    - intros Hc%nonneg_ltb. apply nonneg_ltb. rewrite mul_spec. apply SFmul_nonneg; assumption.
    - intros Hc%nonpos_ltb. apply nonpos_ltb. rewrite mul_spec. apply SFmul_nonpos; assumption. }
  unfold v, clampSpeed, calcSpeed.
  set (speed := sqrt (vx * vx + vy * vy)).
  destruct (speed =? 0) eqn:E0; [cbn [v_x v_y]; tauto|].
  destruct (speed <? lo) eqn:E1.
  - assert (Hk : SF_nonneg (Prim2SF (lo / speed))).
    { destruct (ltb_true_not_nan _ _ E1) as [Hn _].
      pose proof (sqrt_pos _ E0 Hn) as Hpos. fold speed in Hpos.
      rewrite div_spec. apply SFdiv_nonneg; [|exact Hpos].
      apply SF_pos_nonneg, (SF_pos_lt (Prim2SF speed)); [exact Hpos|].
      rewrite <- ltb_spec. exact E1. }
    cbn [v_x v_y]. destruct (Hscale _ Hk vx), (Hscale _ Hk vy). tauto.
  - destruct (hi <? speed) eqn:E2; [|cbn [v_x v_y]; tauto].
    assert (Hk : SF_nonneg (Prim2SF (hi / speed))).
    { destruct (ltb_true_not_nan _ _ E2) as [_ Hn].
      pose proof (sqrt_pos _ E0 Hn) as Hpos. fold speed in Hpos.
      rewrite div_spec. apply SFdiv_nonneg; assumption. }
    cbn [v_x v_y]. destruct (Hscale _ Hk vx), (Hscale _ Hk vy). tauto.
Qed.

Lemma clampSpeed_keeps_direction_witness :
  (v_x (clampSpeed 3 (-4) 1 2) <? 0) = false /\ (0 <? v_y (clampSpeed 3 (-4) 1 2)) = false.
Proof.
  pose proof (clampSpeed_keeps_direction 3 (-4) 1 2) as Hthm.
  destruct Hthm as (Hx & _ & _ & Hy); [reflexivity|].
  split; [apply Hx | apply Hy]; reflexivity.
Defined.

(** ** The step without random impulses *)

Lemma map_seq_lookup_total (f : nat -> float) (a n i : nat) :
  (i < n)%nat -> map f (seq a n) !!! i = f (a + i)%nat.
Proof.
  revert a i. induction n as [|n IH]; intros a i Hi; [lia|].
  destruct i as [|i]; simpl.
  - f_equal. lia.
  - change ((f a :: map f (seq (S a) n)) !!! S i) with (map f (seq (S a) n) !!! i).
    rewrite IH by lia. f_equal. lia.
Qed.

Lemma writes_slot_modify_body (k : nat) (g : Body -> Body) (a : Gravity) :
  writes_slot k g a (modify_body k g a).
Proof.
  split; [|split].
  - intros j Hj. apply bodies_modify_body_ne. congruence.
  - apply bodies_modify_body_eq.
  - simpl. apply length_insert.
Qed.

Lemma steady_refl (d : Gravity) : steady d d.
Proof. split; [destruct d; reflexivity|]. repeat split; intros j; reflexivity. Qed.

Lemma steady_modify_body (d a : Gravity) (k : nat) (f : Body -> Body) :
  (forall b, b_x (f b) = b_x b) -> (forall b, b_y (f b) = b_y b) ->
  (forall b, b_mass (f b) = b_mass b) ->
  steady d a -> steady d (modify_body k f a).
Proof.
  intros Hx Hy Hm (Hs & Hax & Hay & Ham). split; [rewrite <- Hs at 2; destruct a; reflexivity|].
  split; [|split]; intros j.
  - rewrite (bodies_modify_body_proj b_x) by exact Hx. apply Hax.
  - rewrite (bodies_modify_body_proj b_y) by exact Hy. apply Hay.
  - rewrite (bodies_modify_body_proj b_mass) by exact Hm. apply Ham.
Qed.

Lemma steady_scalars (d a : Gravity) :
  steady d a ->
  G a = G d /\ softening a = softening d /\ body_count a = body_count d
  /\ blackHole a = blackHole d /\ pos_damping a = pos_damping d
  /\ vel_damping a = vel_damping d /\ vmin a = vmin d /\ vmax a = vmax d
  /\ nudge_mode a = nudge_mode d.
Proof. intros [<- _]. repeat split; reflexivity. Qed.

Lemma steady_calm (d a : Gravity) : nudge_mode d = false -> steady d a -> calm d a.
Proof.
  intros Hm Hs. destruct (steady_scalars d a Hs) as (_ & _ & Hc & _ & _ & _ & _ & _ & Hn).
  destruct Hs as (_ & Hx & Hy & _).
  split; [congruence|]. split; [exact Hc|]. split; assumption.
Qed.

Lemma steady_damped_acceleration (d a : Gravity) (k : nat) (b : Body) :
  steady d a -> damped_acceleration a k b = damped_acceleration d k b.
Proof.
  intros Hs. destruct (steady_scalars d a Hs) as (HG & Hso & Hc & Hbh & Hpd & _).
  destruct Hs as (_ & Hx & Hy & Hm).
  unfold damped_acceleration. rewrite Hpd.
  rewrite (computeAcceleration_ext d a k); [reflexivity|].
  constructor; try congruence; try (intros j _; apply Hm).
Qed.

(** A loop over distinct indices whose iterations draw nothing and each
    write their own slot. *)
Lemma quiet_forM_slots (P : Gravity -> Prop) (g : nat -> Body -> Body)
    (f : nat -> Gravity -> Rand Gravity) (l : list nat) :
  NoDup l ->
  (forall k a, k ∈ l -> P a -> quiet (f k a) (fun a' => P a' /\ writes_slot k (g k) a a')) ->
  forall a, P a ->
  quiet (forM l f a) (fun a' =>
    P a'
    /\ (forall j : nat, j ∉ l -> bodies a' !!! j = bodies a !!! j)
    /\ (forall j : nat, j ∈ l -> (j < length (bodies a))%nat ->
          bodies a' !!! j = g j (bodies a !!! j))
    /\ length (bodies a') = length (bodies a)).
Proof.
  intros Hnd. induction Hnd as [|k l Hk Hnd IH]; intros Hf a Ha; simpl.
  - apply quiet_ret. split; [exact Ha|]. split; [reflexivity|].
    split; [intros j Hj; inversion Hj | reflexivity].
  - apply quiet_bind with (P := fun a' => P a' /\ writes_slot k (g k) a a').
    { apply Hf; [left | exact Ha]. }
    intros a1 (Ha1 & Hne & Heq & Hlen).
    destruct (IH (fun j b Hj => Hf j b (proj2 (elem_of_cons l j k) (or_intror Hj))) a1 Ha1)
      as (a2 & (Ha2 & Hout & Hin & Hlen2) & Hrun).
    exists a2. split; [|exact Hrun].
    split; [exact Ha2|]. split; [|split].
    + intros j Hj. rewrite Hout by (intros Hjl; apply Hj; right; exact Hjl).
      apply Hne. intros ->. apply Hj. left.
    + intros j Hj Hjlen. apply elem_of_cons in Hj as [->|Hj].
      * rewrite Hout by exact Hk. apply Heq, Hjlen.
      * rewrite Hin by (exact Hj || (rewrite Hlen; exact Hjlen)).
        rewrite Hne; [reflexivity|]. intros ->. contradiction.
    + rewrite Hlen2. exact Hlen.
Qed.

Section QuietStep.
Context (H : Host) (d : Gravity).
Context (Hoff : nudge_mode d = false).
Context (Hnear : forall k : nat, (Z.of_nat k < body_count d)%Z ->
                   near_centre (bodies d !!! k) = true).

Lemma quiet_accel_slot (k : nat) (a : Gravity) :
  (Z.of_nat k < body_count d)%Z -> steady d a ->
  quiet (accel_body H k a)
        (fun a' => steady d a' /\ writes_slot k (damped_acceleration d k) a a').
Proof.
  intros Hk Ha. unfold accel_body.
  match goal with |- quiet (applyCloseBodyRepulsion _ _ _ _ _ _ ?x) _ => set (a' := x) end.
  assert (Ha' : steady d a')
    by (apply steady_modify_body; [reflexivity | reflexivity | reflexivity | exact Ha]).
  assert (Hw : writes_slot k (damped_acceleration d k) a a').
  { pose proof (writes_slot_modify_body k (damped_acceleration a k) a) as (Hne & Heq & Hlen).
    split; [exact Hne|]. split; [|exact Hlen].
    intros Hlt. fold a' in Heq. rewrite (Heq Hlt). apply steady_damped_acceleration, Ha. }
  unfold applyCloseBodyRepulsion.
  destruct (body_count a' <=? Z.of_nat k)%Z; [apply quiet_ret; split; assumption|].
  fold (near_centre (bodies a' !!! k)).
  rewrite (calm_near_centre d a' k (steady_calm d a' Hoff Ha')), (Hnear k Hk).
  apply quiet_ret. split; assumption.
Qed.

Lemma quiet_kick_slot (h : float) (ox oy : list float) (k : nat) (a : Gravity) :
  steady d a ->
  quiet (kick_body H h ox oy k a)
        (fun a' => steady d a'
           /\ writes_slot k (kicked h (ox !!! k) (oy !!! k) (vel_damping d) (vmin d) (vmax d)) a a').
Proof.
  intros Ha. unfold kick_body.
  match goal with |- quiet (bind (nudge_body _ _ ?x) _) _ => set (a1 := x) end.
  assert (Ha1 : steady d a1)
    by (apply steady_modify_body; [reflexivity | reflexivity | reflexivity | exact Ha]).
  destruct (steady_scalars d a1 Ha1) as (_ & _ & _ & _ & _ & Hvd & Hvmin & Hvmax & Hnm).
  apply quiet_bind with (P := fun a2 => a2 = a1).
  { unfold nudge_body. rewrite Hnm, Hoff. apply quiet_ret. reflexivity. }
  intros a2 ->. apply quiet_ret.
  split; [apply steady_modify_body; [reflexivity | reflexivity | reflexivity | exact Ha1]|].
  rewrite Hvd, Hvmin, Hvmax.
  split; [|split].
  - intros j Hj. rewrite bodies_modify_body_ne by congruence.
    unfold a1. rewrite bodies_modify_body_ne by congruence. reflexivity.
  - intros Hlt. rewrite bodies_modify_body_eq by (unfold a1; simpl; rewrite length_insert; exact Hlt).
    unfold a1. rewrite bodies_modify_body_eq by exact Hlt. reflexivity.
  - unfold a1. simpl. rewrite !length_insert. reflexivity.
Qed.

Lemma quiet_minSpeed_steady (k : nat) (a : Gravity) :
  (Z.of_nat k < body_count d)%Z -> steady d a ->
  quiet (minSpeed_body H k a) (fun a' => a' = a).
Proof.
  intros Hk Ha. unfold minSpeed_body. fold (near_centre (bodies a !!! k)).
  rewrite (calm_near_centre d a k (steady_calm d a Hoff Ha)), (Hnear k Hk).
  apply quiet_ret. reflexivity.
Qed.

Lemma quiet_step_slot (h : float) (ox oy : list float) (i : nat) :
  (Z.of_nat i < body_count d)%Z -> (i < length (bodies d))%nat ->
  quiet (let* s2 := forM (upto (body_count d)) (accel_body H) d in
         let* s3 := forM (upto (body_count s2)) (kick_body H h ox oy) s2 in
         applyMinSpeed H s3)
        (fun s' => bodies s' !!! i =
           kicked h (ox !!! i) (oy !!! i) (vel_damping d) (vmin d) (vmax d)
             (damped_acceleration d i (bodies d !!! i))).
Proof.
  intros Hi Hlen.
  assert (Hin : i ∈ upto (body_count d)) by (unfold upto; rewrite elem_of_seq; lia).
  eapply quiet_bind.
  { apply (quiet_forM_slots (steady d) (damped_acceleration d)); [apply NoDup_seq| |apply steady_refl].
    intros k a Hk%elem_of_upto Ha. apply quiet_accel_slot; assumption. }
  cbv beta. intros s2 (Hs2 & _ & Hin2 & Hlen2).
  destruct (steady_scalars d s2 Hs2) as (_ & _ & Hc2 & _).
  rewrite Hc2. eapply quiet_bind.
  { apply (quiet_forM_slots (steady d)
             (fun k => kicked h (ox !!! k) (oy !!! k) (vel_damping d) (vmin d) (vmax d)));
      [apply NoDup_seq| |exact Hs2].
    intros k a _ Ha. apply quiet_kick_slot, Ha. }
  cbv beta. intros s3 (Hs3 & _ & Hin3 & Hlen3).
  destruct (steady_scalars d s3 Hs3) as (_ & _ & Hc3 & _).
  unfold applyMinSpeed. rewrite Hc3.
  assert (Hloop : quiet (forM (upto (body_count d)) (minSpeed_body H) s3) (fun a' => a' = s3)).
  { apply (quiet_forM (fun a' => a' = s3)); [|reflexivity].
    intros k a Hk%elem_of_upto ->. apply quiet_minSpeed_steady; assumption. }
  destruct Hloop as (s4 & -> & Hrun). exists s3. split; [|exact Hrun].
  rewrite (Hin3 i Hin) by (rewrite Hlen2; exact Hlen).
  rewrite (Hin2 i Hin Hlen). reflexivity.
Qed.

End QuietStep.

(** X21: when the nudge is off and the position update leaves every live
    body within 100 of the centre, [simulate] is one step of the
    velocity-Verlet scheme: a live body is moved by [v h + a h^2 / 2], its new
    acceleration is gravity on the moved bodies minus the pull of the
    position damping, and its new velocity is [v + (a + a') h / 2], damped
    by [1 - vel_damping (1 + speed)] and then clamped by [clampSpeed]. *)
Theorem simulate_quiet_step (H : Host) (s : Gravity) (i : nat) (n : nat) :
  nudge_mode s = false ->
  (forall k : nat, (Z.of_nat k < body_count s)%Z ->
     near_centre (bodies (drifted H s) !!! k) = true) ->
  (Z.of_nat i < body_count s)%Z -> (i < length (bodies s))%nat ->
  let h := computeAdaptiveDt H s in
  let b := bodies s !!! i in
  let x := b_x b + (b_vx b * h + 0.5 * b_ax b * h * h) in
  let y := b_y b + (b_vy b * h + 0.5 * b_ay b * h * h) in
  let a := computeAcceleration (drifted H s) i in
  let pdamp := calcPositionDamping x y (pos_damping s) in
  let ax := v_x a - x * pdamp in
  let ay := v_y a - y * pdamp in
  let vx := b_vx b + 0.5 * (b_ax b + ax) * h in
  let vy := b_vy b + 0.5 * (b_ay b + ay) * h in
  let vdamp := vel_damping s * (1.0 + calcSpeed vx vy) in
  let v := clampSpeed (vx * (1.0 - vdamp)) (vy * (1.0 - vdamp)) (vmin s) (vmax s) in
  bodies (fst (simulate H s n)) !!! i = mkBody x y (v_x v) (v_y v) ax ay (b_mass b).
Proof.
  intros Hoff Hnear Hi Hlen h b x y a pdamp ax ay vx vy vdamp v.
  pose proof (frame_drifted H s) as Hfr.
  assert (Hoff' : nudge_mode (drifted H s) = false).
  { pose proof (f_equal fst (nudge_fold_drift (computeAdaptiveDt H s) (upto (body_count s)) s)) as E.
    unfold nudge_state in E. cbn [fst] in E. unfold drifted. rewrite E. exact Hoff. }
  assert (Hnear' : forall k : nat, (Z.of_nat k < body_count (drifted H s))%Z ->
                     near_centre (bodies (drifted H s) !!! k) = true).
  { intros k Hk. apply Hnear. rewrite <- (fr_body_count _ _ Hfr). exact Hk. }
  assert (Hi' : (Z.of_nat i < body_count (drifted H s))%Z)
    by (rewrite (fr_body_count _ _ Hfr); exact Hi).
  assert (Hlen' : (i < length (bodies (drifted H s)))%nat)
    by (rewrite (fr_length _ _ Hfr); exact Hlen).
  destruct (quiet_step_slot H (drifted H s) Hoff' Hnear' h
              (map (fun k => b_ax (bodies (drifted H s) !!! k)) (upto (body_count (drifted H s))))
              (map (fun k => b_ay (bodies (drifted H s) !!! k)) (upto (body_count (drifted H s))))
              i Hi' Hlen') as (s' & Hslot & Hrun).
  assert (Hsim : simulate H s n = (s', n)) by apply Hrun.
  rewrite Hsim. cbn [fst]. rewrite Hslot.
  unfold upto. rewrite !map_seq_lookup_total by lia. cbn [Nat.add].
  rewrite (fr_vel_damping _ _ Hfr), (fr_vmin _ _ Hfr), (fr_vmax _ _ Hfr).
  unfold damped_acceleration. rewrite (fr_pos_damping _ _ Hfr).
  fold a. rewrite (drifted_slot H s i Hi Hlen). fold h. fold b. fold x. fold y.
  reflexivity.
Qed.

Lemma simulate_quiet_step_witness :
  b_mass (bodies (fst (simulate example_host example_engine 0%nat)) !!! 8%nat) = 3.
Proof.
  pose proof (simulate_quiet_step example_host example_engine 8 0) as Hthm.
  cbv zeta in Hthm. rewrite Hthm.
  - vm_compute. reflexivity.
  - vm_compute. reflexivity.
  - intros k Hk.
    do 10 (destruct k as [|k]; [vm_compute; reflexivity|]).
    exfalso. change (body_count example_engine) with 10%Z in Hk. lia.
  - vm_compute. reflexivity.
  - vm_compute. lia.
Defined.

(** ** [setBody], repeated *)

(** The engine an accepted [setBody] returns, with the two array updates
    written out. *)
Lemma setBody_normal (index : Z) (x y vx vy m : float) (s : Gravity) :
  wf s -> (0 <= index <= 9)%Z ->
  let i := Z.to_nat index in
  let a := computeAcceleration (modify_body i (fun _ => mkBody x y vx vy 0 0 m) s) i in
  let pdamp := calcPositionDamping x y (pos_damping s) in
  setBody index x y vx vy m s =
  set_initBodies (<[i := mkBody x y vx vy 0 0 m]> (initBodies s))
    (set_bodies (<[i := mkBody x y vx vy (v_x a - x * pdamp) (v_y a - y * pdamp) m]> (bodies s)) s).
Proof.
  intros [Hl _] Hi i a pdamp. unfold setBody. rewrite (valid_index index Hi). fold i.
  cbv zeta. unfold initBody, modify_body at 1.
  cbn [bodies set_initBodies set_bodies initBodies modify_body blackHole G dt pos_damping
       vel_damping softening vmin vmax body_count nudge_mode nudge_step].
  rewrite list_insert_insert_eq, list_lookup_total_insert_eq by lia.
  unfold damped_acceleration. cbn [b_x b_y pos_damping set_initBodies set_acc b_vx b_vy b_mass].
  fold pdamp.
  match goal with |- context [computeAcceleration ?s2 i] =>
    replace (computeAcceleration s2 i) with a; [reflexivity|] end.
  unfold a. apply computeAcceleration_ext. constructor; try reflexivity.
  - intros j. cbn [bodies set_initBodies modify_body set_bodies].
    rewrite !list_lookup_total_insert. case_decide; reflexivity.
  - intros j. cbn [bodies set_initBodies modify_body set_bodies].
    rewrite !list_lookup_total_insert. case_decide; reflexivity.
  - intros j Hj. cbn [bodies set_initBodies modify_body set_bodies].
    rewrite !list_lookup_total_insert_ne by congruence. reflexivity.
Qed.

(** X22: of two [setBody] calls on the same slot only the second counts: the
    engine is the one the second call alone gives.  In particular a
    [setBody] repeated with the same arguments changes nothing. *)
Theorem setBody_last_wins (index : Z) (x y vx vy m x' y' vx' vy' m' : float) (s : Gravity) :
  wf s -> (0 <= index <= 9)%Z ->
  setBody index x' y' vx' vy' m' (setBody index x y vx vy m s) = setBody index x' y' vx' vy' m' s
  /\ setBody index x y vx vy m (setBody index x y vx vy m s) = setBody index x y vx vy m s.
Proof.
  intros Hwf Hi.
  assert (Hgen : forall a b c d e : float,
            setBody index a b c d e (setBody index x y vx vy m s) = setBody index a b c d e s).
  { intros a b c d e.
    assert (Hwf1 : wf (setBody index x y vx vy m s))
      by (eapply wf_keeps; [apply keeps_setBody | exact Hwf]).
    rewrite (setBody_normal index a b c d e _ Hwf1 Hi), (setBody_normal index a b c d e s Hwf Hi).
    rewrite (setBody_normal index x y vx vy m s Hwf Hi).
    cbv zeta.
    cbn [bodies set_initBodies set_bodies initBodies modify_body blackHole G dt pos_damping
         vel_damping softening vmin vmax body_count nudge_mode nudge_step].
    rewrite !list_insert_insert_eq.
    match goal with
    | |- set_initBodies _ (set_bodies (<[_ := mkBody _ _ _ _ (v_x ?a1 - _) _ _]> _) _) =
         set_initBodies _ (set_bodies (<[_ := mkBody _ _ _ _ (v_x ?a2 - _) _ _]> _) _) =>
        replace a1 with a2; [reflexivity|]
    end.
    apply computeAcceleration_ext. constructor; try reflexivity.
    - intros j. cbn [bodies set_initBodies modify_body set_bodies].
      rewrite !list_insert_insert_eq. reflexivity.
    - intros j. cbn [bodies set_initBodies modify_body set_bodies].
      rewrite !list_insert_insert_eq. reflexivity.
    - intros j Hj. cbn [bodies set_initBodies modify_body set_bodies].
      rewrite !list_insert_insert_eq. reflexivity. }
  split; apply Hgen.
Qed.

Lemma setBody_last_wins_witness :
  setBody 2 5 6 0 0 1 (setBody 2 1 2 3 4 9 example_engine) = setBody 2 5 6 0 0 1 example_engine.
Proof.
  assert (Hwf : wf example_engine) by (split; vm_compute; reflexivity).
  pose proof (setBody_last_wins 2 1 2 3 4 9 5 6 0 0 1 example_engine Hwf) as [E _]; [lia|].
  exact E.
Defined.

(** ** Two resets undo the simulation *)

Lemma lookup_total_beyond (l : list Body) (j : nat) :
  (length l <= j)%nat -> l !!! j = zeroBody.
Proof.
  intros Hj. rewrite list_lookup_total_alt, (lookup_ge_None_2 l j Hj). reflexivity.
Qed.

Lemma same_initBodies (l : list Body) (a s : Gravity) :
  set_bodies l a = s -> initBodies a = initBodies s.
Proof. intros <-. reflexivity. Qed.

Lemma same_setup_refl (s : Gravity) : same_setup s s.
Proof. split; [destruct s; reflexivity|]. split; [intros j|]; reflexivity. Qed.

Lemma same_setup_trans (s a b : Gravity) : same_setup s a -> same_setup a b -> same_setup s b.
Proof.
  intros (E1 & M1 & L1) (E2 & M2 & L2). split; [|split].
  - clear M1 M2 L1 L2.
    destruct s as [ib b0 bh g d pd vd so vmi vma c nm ns],
             a as [ib1 b1 bh1 g1 d1 pd1 vd1 so1 vmi1 vma1 c1 nm1 ns1],
             b as [ib2 b2 bh2 g2 d2 pd2 vd2 so2 vmi2 vma2 c2 nm2 ns2].
    unfold set_bodies in E1, E2 |- *. cbn in E1, E2 |- *.
    injection E1 as -> -> -> -> -> -> -> -> -> -> -> ->.
    injection E2 as -> -> -> -> -> -> -> -> -> -> -> ->. reflexivity.
  - intros j. rewrite M2. apply M1.
  - congruence.
Qed.

Lemma same_setup_reset (s : Gravity) : same_setup s (reset s).
Proof.
  split; [apply reset_same|]. split; [intros j; apply reset_mass|].
  apply (kp_len_bodies _ _ (keeps_reset s)).
Qed.

Lemma same_setup_simulate (H : Host) (s : Gravity) (n : nat) :
  nudge_mode s = false -> same_setup s (fst (simulate H s n)).
Proof.
  intros Hoff.
  pose proof (frame_simulate H s n) as [F1 F2 F3 F4 F5 F6 F7 F8 F9 F10 _ F12].
  pose proof (simulate_nudge_state H s n) as Hn. cbv beta in Hn.
  unfold nudge_state at 2 in Hn. rewrite Hoff, nudge_iter_off in Hn.
  pose proof (f_equal fst Hn) as Hm. pose proof (f_equal snd Hn) as Hs.
  unfold nudge_state in Hm, Hs. cbn [fst snd] in Hm, Hs.
  split; [|split; [|exact F12]].
  - generalize dependent (fst (simulate H s n)). intros s'. intros.
    destruct s as [ib b bh g d pd vd so vmi vma c nm ns],
             s' as [ib' b' bh' g' d' pd' vd' so' vmi' vma' c' nm' ns'].
    cbn in *. subst. reflexivity.
  - intros j.
    rewrite (same_p_simulate H b_mass (fun _ _ _ => eq_refl) (fun _ _ _ => eq_refl) s n j).
    unfold drifted.
    apply (fold_left_inv (fun a => b_mass (bodies a !!! j) = b_mass (bodies s !!! j)));
      [|reflexivity].
    intros k a _ Ha. rewrite <- Ha. unfold drift_body.
    apply (bodies_modify_body_proj b_mass). reflexivity.
Qed.

(** Two resets give an engine that depends on the set-up only. *)
Lemma reset_twice_same_setup (s a : Gravity) :
  wf s -> same_setup s a -> reset (reset a) = reset (reset s).
Proof.
  intros Hwf (Esame & Hmass & Hlen).
  assert (Hwfa : wf a).
  { destruct Hwf as [Hl Hli]. split; [congruence|]. rewrite <- Esame in Hli. exact Hli. }
  pose proof (same_initBodies _ _ _ Esame) as Hinit.
  remember (reset s) as s1 eqn:E1. remember (reset a) as a1 eqn:E1a.
  assert (Hwf1 : wf s1) by (rewrite E1; apply wf_reset, Hwf).
  assert (Hwf1a : wf a1) by (rewrite E1a; apply wf_reset, Hwfa).
  assert (Hst1 : settled s1) by (rewrite E1; apply settled_reset, Hwf).
  assert (Hst1a : settled a1) by (rewrite E1a; apply settled_reset, Hwfa).
  assert (Hinit1 : initBodies a1 = initBodies s1)
    by (rewrite E1, E1a, !initBodies_reset; exact Hinit).
  assert (Hmass1 : forall j : nat, b_mass (bodies a1 !!! j) = b_mass (bodies s1 !!! j))
    by (intros j; rewrite E1, E1a, !reset_mass; apply Hmass).
  assert (Hsame1 : set_bodies (bodies s1) a1 = s1).
  { pose proof (reset_same s) as R. pose proof (reset_same a) as Ra.
    rewrite <- E1 in R. rewrite <- E1a in Ra. clear - R Ra Esame.
    destruct s as [ib b0 bh g d pd vd so vmi vma c nm ns],
             a as [ib1 b1 bh1 g1 d1 pd1 vd1 so1 vmi1 vma1 c1 nm1 ns1],
             s1 as [ib2 b2 bh2 g2 d2 pd2 vd2 so2 vmi2 vma2 c2 nm2 ns2],
             a1 as [ib3 b3 bh3 g3 d3 pd3 vd3 so3 vmi3 vma3 c3 nm3 ns3].
    unfold set_bodies in R, Ra, Esame |- *. cbn in R, Ra, Esame |- *.
    injection R as -> -> -> -> -> -> -> -> -> -> -> ->.
    injection Ra as -> -> -> -> -> -> -> -> -> -> -> ->.
    injection Esame as -> -> -> -> -> -> -> -> -> -> -> ->. reflexivity. }
  destruct (same_scalars _ _ _ Hsame1) as (HG & Hso & Hc & Hbh & Hpd).
  assert (Hsf : forall i : nat, same_field i s1 a1).
  { destruct Hwf1 as [Hl1 _], Hwf1a as [Hl1a _].
    intros i. constructor; try congruence; try (intros j _; apply Hmass1).
    - intros j. destruct (Nat.lt_ge_cases j 10) as [Hj|Hj].
      + destruct (Hst1 j Hj) as [-> _]. destruct (Hst1a j Hj) as [-> _].
        rewrite Hinit1. reflexivity.
      + rewrite !lookup_total_beyond by lia. reflexivity.
    - intros j. destruct (Nat.lt_ge_cases j 10) as [Hj|Hj].
      + destruct (Hst1 j Hj) as [_ ->]. destruct (Hst1a j Hj) as [_ ->].
        rewrite Hinit1. reflexivity.
      + rewrite !lookup_total_beyond by lia. reflexivity. }
  assert (Hb : bodies (reset a1) = bodies (reset s1)).
  { pose proof (wf_reset s1 Hwf1) as [Hl2 _]. pose proof (wf_reset a1 Hwf1a) as [Hl2a _].
    apply (list_eq_total _ _ 10 Hl2a Hl2). intros i Hi.
    rewrite (reset_settled_slot a1 i Hwf1a Hst1a Hi), (reset_settled_slot s1 i Hwf1 Hst1 Hi).
    replace (restore_from (initBodies a1 !!! i) (bodies a1 !!! i))
      with (restore_from (initBodies s1 !!! i) (bodies s1 !!! i))
      by (unfold restore_from; rewrite Hinit1, (Hmass1 i); reflexivity).
    unfold damped_acceleration. rewrite (computeAcceleration_ext s1 a1 i (Hsf i)).
    rewrite Hpd. reflexivity. }
  pose proof (reset_same s1) as R2. pose proof (reset_same a1) as R2a.
  generalize dependent (reset a1). generalize dependent (reset s1).
  intros s2 R2 a2 Hb R2a. clear - R2 R2a Hb Hsame1.
  destruct s1 as [ib0 b0 bh0 g0 d0 pd0 vd0 so0 vmi0 vma0 c0 nm0 ns0],
           a1 as [ib1 b1 bh1 g1 d1 pd1 vd1 so1 vmi1 vma1 c1 nm1 ns1],
           s2 as [ib2 b2 bh2 g2 d2 pd2 vd2 so2 vmi2 vma2 c2 nm2 ns2],
           a2 as [ib3 b3 bh3 g3 d3 pd3 vd3 so3 vmi3 vma3 c3 nm3 ns3].
  unfold set_bodies in R2, R2a, Hsame1. cbn in R2, R2a, Hsame1, Hb.
  injection R2 as -> -> -> -> -> -> -> -> -> -> -> ->.
  injection R2a as -> -> -> -> -> -> -> -> -> -> -> ->.
  injection Hsame1 as -> -> -> -> -> -> -> -> -> -> -> ->.
  subst. reflexivity.
Qed.

(** X23: with the nudge off, two resets undo the simulation: after any
    number of [simulate] and [reset] calls, [reset] called twice gives
    exactly the engine that [reset] called twice gives without them. *)
Theorem reset_twice_undoes_simulate (H : Host) (s : Gravity) (ops : list Op) (n : nat) :
  wf s -> nudge_mode s = false ->
  Forall (fun op => op = OSimulate \/ op = OReset) ops ->
  reset (reset (fst (run H ops s n))) = reset (reset s).
Proof.
  intros Hwf Hoff Hops. apply reset_twice_same_setup; [exact Hwf|].
  assert (Hpost : post (run H ops s) (fun a => same_setup s a /\ nudge_mode a = false)).
  { apply post_run; [|split; [apply same_setup_refl | exact Hoff]].
    intros op a Hin [Ha Hm] k. rewrite Forall_forall in Hops.
    assert (Hstep : same_setup a (fst (step H op a k))).
    { destruct (Hops op Hin) as [-> | ->]; cbn [step].
      - apply same_setup_simulate, Hm.
      - apply same_setup_reset. }
    split; [eapply same_setup_trans; [exact Ha | exact Hstep]|].
    destruct Hstep as (E & _ & _).
    pose proof (f_equal nudge_mode E) as Em. cbn [nudge_mode set_bodies] in Em. congruence. }
  apply Hpost.
Qed.

Lemma reset_twice_undoes_simulate_witness :
  reset (reset (fst (run example_host [OSimulate; OSimulate; OReset; OSimulate]
                       example_engine 0%nat)))
  = reset (reset example_engine).
Proof.
  apply (reset_twice_undoes_simulate example_host example_engine).
  - split; vm_compute; reflexivity.
  - vm_compute. reflexivity.
  - repeat (apply Forall_cons; split; [first [left; reflexivity | right; reflexivity]|]).
    apply Forall_nil. exact I.
Defined.
